(** * bokeh.util.serialization: a shallow embedding and its properties

    The module under study turns numpy arrays and nested Python containers
    into JSON-safe values (lists with string sentinels for non-finite
    floats, or a base64 envelope carrying raw bytes, shape and dtype name)
    and decodes the envelopes back into arrays.

    The libraries are embedded as far as the module uses them, with the
    behaviour of Python 3 and of a recent numpy of the 1.x series on a
    little-endian machine. *)

From Stdlib Require Import ZArith NArith Lia List Bool Ascii String.
From Stdlib Require Import Floats.SpecFloat.
From stdpp Require Import base option list strings gmap fin_maps pretty.

Local Open Scope Z_scope.
Set Warnings "-register-all".

(** ** Raw bytes *)

Abbreviation byte := Byte.byte.

Definition byte_of_N (n : N) : byte :=
  match Byte.of_N n with Some b => b | None => Byte.x00 end.

(** ** base64 (the Python standard library's [base64] module)

    [b64encode] is RFC 4648 encoding with '=' padding.  [b64decode] is the
    default, non-validating decoder of Python 3: a text argument must be
    ASCII; characters outside the alphabet are passed over, the others are
    read four at a time, and '=' closes a final group of two or three
    characters; input that ends inside a group is the "Incorrect padding"
    error. *)
Module Base64.

Definition alphabet : list ascii :=
  list_ascii_of_string
    "ABCDEFGHIJKLMNOPQRSTUVWXYZabcdefghijklmnopqrstuvwxyz0123456789+/".

Definition pad : ascii := "="%char.

Definition char_of_sextet (n : N) : ascii :=
  nth (N.to_nat n) alphabet pad.

Definition sextet_of_char (c : ascii) : option N :=
  let n := N_of_ascii c in
  if ((65 <=? n) && (n <=? 90))%N then Some (n - 65)%N
  else if ((97 <=? n) && (n <=? 122))%N then Some (n - 71)%N
  else if ((48 <=? n) && (n <=? 57))%N then Some (n + 4)%N
  else if (n =? 43)%N then Some 62%N
  else if (n =? 47)%N then Some 63%N
  else None.

Definition is_pad (c : ascii) : bool := (N_of_ascii c =? 61)%N.

Fixpoint encode_chars (bs : list byte) : list ascii :=
  match bs with
  | [] => []
  | [a] =>
      let a := Byte.to_N a in
      [char_of_sextet (a / 4); char_of_sextet ((a mod 4) * 16); pad; pad]
  | [a; b] =>
      let a := Byte.to_N a in
      let b := Byte.to_N b in
      [char_of_sextet (a / 4);
       char_of_sextet ((a mod 4) * 16 + b / 16);
       char_of_sextet ((b mod 16) * 4); pad]
  | a :: b :: c :: rest =>
      let a := Byte.to_N a in
      let b := Byte.to_N b in
      let c := Byte.to_N c in
      char_of_sextet (a / 4)
        :: char_of_sextet ((a mod 4) * 16 + b / 16)
        :: char_of_sextet ((b mod 16) * 4 + c / 64)
        :: char_of_sextet (c mod 64)
        :: encode_chars rest
  end%N.

(** [base64.b64encode(buf).decode('utf-8')] *)
Definition b64encode (bs : list byte) : string :=
  string_of_list_ascii (encode_chars bs).

(** A text argument is encoded as ASCII before it is decoded. *)
Definition is_ascii (text : string) : bool :=
  forallb (fun c => (N_of_ascii c <? 128)%N) (list_ascii_of_string text).

(** [binascii.a2b_base64], not strict.  [quad_pos] is the place in the
    current group of four characters, [leftchar] the bits of the group not
    yet written out, [pads] the number of '=' met since the last character
    of the alphabet.  A '=' ends the input when it completes a group that
    has two or three characters, and is passed over otherwise; so is every
    character outside the alphabet.  Input that ends inside a group is
    refused. *)
Fixpoint a2b_base64 (cs : list ascii) (quad_pos : nat) (leftchar : N) (pads : nat)
  : option (list byte) :=
  match cs with
  | [] => match quad_pos with O => Some [] | _ => None end
  | this_ch :: rest =>
      if is_pad this_ch then
        if (2 <=? quad_pos)%nat then
          if (4 <=? quad_pos + (pads + 1))%nat then Some []
          else a2b_base64 rest quad_pos leftchar (pads + 1)
        else a2b_base64 rest quad_pos leftchar pads
      else
        match sextet_of_char this_ch with
        | None => a2b_base64 rest quad_pos leftchar pads
        | Some this_ch =>
            match quad_pos with
            | 0%nat => a2b_base64 rest 1 this_ch 0
            | 1%nat =>
                cons (byte_of_N (leftchar * 4 + this_ch / 16))
                  <$> a2b_base64 rest 2 (this_ch mod 16) 0
            | 2%nat =>
                cons (byte_of_N (leftchar * 16 + this_ch / 4))
                  <$> a2b_base64 rest 3 (this_ch mod 4) 0
            | _ =>
                cons (byte_of_N (leftchar * 64 + this_ch))
                  <$> a2b_base64 rest 0 0 0
            end%N
        end
  end.

(** [base64.b64decode(text)], the default, non-validating decoder; [None]
    when it raises. *)
Definition b64decode (text : string) : option (list byte) :=
  if is_ascii text then a2b_base64 (list_ascii_of_string text) 0 0 0 else None.

End Base64.

(** ** Exceptions

    A call either returns a value or raises; the exception classes are the
    ones the module and the libraries it calls can raise. *)

Inductive exn :=
  | KeyError | TypeError | ValueError | UnboundLocalError | binascii_Error
  | RecursionError.

Inductive result (A : Type) :=
  | Ok (a : A)
  | Raise (e : exn).
Arguments Ok {A} a.
Arguments Raise {A} e.

#[export] Instance result_ret : MRet result := fun A a => Ok a.
#[export] Instance result_bind : MBind result := fun A B f r =>
  match r with Ok a => f a | Raise e => Raise e end.
#[export] Instance result_fmap : FMap result := fun A B f r =>
  match r with Ok a => Ok (f a) | Raise e => Raise e end.

(** [[f(x) for x in l]] where [f] may raise: the first exception wins. *)
Definition mapM {A B} (f : A -> result B) : list A -> result (list B) :=
  fix go (l : list A) : result (list B) :=
    match l with
    | [] => Ok []
    | x :: l' =>
        match f x with
        | Raise e => Raise e
        | Ok y => match go l' with Raise e => Raise e | Ok ys => Ok (y :: ys) end
        end
    end.

(** ** Machine integers and little-endian buffers *)

Definition to_signed (w : Z) (z : Z) : Z :=
  if z <? 2 ^ (w - 1) then z else z - 2 ^ w.

(** C [int64] arithmetic wraps around. *)
Definition wrap_int64 (z : Z) : Z := to_signed 64 (z mod 2 ^ 64).

Definition int64_min : Z := - 2 ^ 63.

Fixpoint le_to_Z (bs : list byte) : Z :=
  match bs with
  | [] => 0
  | b :: rest => Z.of_N (Byte.to_N b) + 256 * le_to_Z rest
  end.

Fixpoint Z_to_le (n : nat) (z : Z) : list byte :=
  match n with
  | O => []
  | S n' => byte_of_N (Z.to_N (z mod 256)) :: Z_to_le n' (z / 256)
  end.

(** The first [n] consecutive blocks of [k] items. *)
Fixpoint blocks {A} (n k : nat) (xs : list A) : list (list A) :=
  match n with
  | O => []
  | S n' => take k xs :: blocks n' k (drop k xs)
  end.

Definition Zprod (l : list Z) : Z := fold_right Z.mul 1 l.

(** ** IEEE 754 bit patterns

    A float of [ebits] exponent bits and [mbits] fraction bits, given by
    its unsigned bit pattern.  Python floats are binary64 values, written
    as [spec_float] (precision 53, [emax] 1024). *)
Module IEEE.

Definition sign (ebits mbits raw : Z) : bool := Z.testbit raw (ebits + mbits).
Definition expo (ebits mbits raw : Z) : Z :=
  Z.land (Z.shiftr raw mbits) (Z.ones ebits).
Definition frac (ebits mbits raw : Z) : Z := Z.land raw (Z.ones mbits).

Definition isnan (ebits mbits raw : Z) : bool :=
  (expo ebits mbits raw =? Z.ones ebits) && negb (frac ebits mbits raw =? 0).
Definition isinf (ebits mbits raw : Z) : bool :=
  (expo ebits mbits raw =? Z.ones ebits) && (frac ebits mbits raw =? 0).
Definition isposinf (ebits mbits raw : Z) : bool :=
  isinf ebits mbits raw && negb (sign ebits mbits raw).
Definition isneginf (ebits mbits raw : Z) : bool :=
  isinf ebits mbits raw && sign ebits mbits raw.
Definition isfinite (ebits mbits raw : Z) : bool :=
  negb (expo ebits mbits raw =? Z.ones ebits).

Definition float64_of_Z (z : Z) : spec_float := binary_normalize 53 1024 z 0 false.

(** The value of the pattern as a Python float (the widening is exact). *)
Definition to_float (ebits mbits raw : Z) : spec_float :=
  let s := sign ebits mbits raw in
  let e := expo ebits mbits raw in
  let m := frac ebits mbits raw in
  let bias := 2 ^ (ebits - 1) - 1 in
  let signed (x : Z) := if s then - x else x in
  if e =? Z.ones ebits then
    if m =? 0 then S754_infinity s else S754_nan
  else if e =? 0 then
    binary_normalize 53 1024 (signed m) (1 - bias - mbits) s
  else
    binary_normalize 53 1024 (signed (m + 2 ^ mbits)) (e - bias - mbits) s.

(** The binary64 pattern of a Python float; NaN is the quiet NaN. *)
Definition float64_bits (f : spec_float) : Z :=
  let sbit (s : bool) := if s then 2 ^ 63 else 0 in
  match f with
  | S754_zero s => sbit s
  | S754_infinity s => sbit s + Z.shiftl 2047 52
  | S754_nan => Z.shiftl 4095 51
  | S754_finite s m e =>
      if 2 ^ 52 <=? Z.pos m
      then sbit s + Z.shiftl (e + 1075) 52 + (Z.pos m - 2 ^ 52)
      else sbit s + Z.pos m
  end.

(** The quiet NaN of a format. *)
Definition nan_bits (ebits mbits : Z) : Z :=
  Z.shiftl (Z.ones (ebits + 1)) (mbits - 1).

End IEEE.

(** ** numpy: dtypes and arrays *)

Inductive time_unit :=
  | Unit_Y | Unit_M | Unit_W | Unit_D | Unit_h | Unit_m | Unit_s
  | Unit_ms | Unit_us | Unit_ns | Unit_ps | Unit_fs | Unit_as.

(** The dtypes of the model: the eight whitelisted ones and, outside the
    whitelist, [float16], the 64-bit integers and the temporal dtypes. *)
Inductive np_dtype :=
  | float16 | float32 | float64
  | int8 | int16 | int32 | int64
  | uint8 | uint16 | uint32 | uint64
  | datetime64 (u : time_unit)
  | timedelta64 (u : time_unit).

#[export] Instance time_unit_eq_dec : EqDecision time_unit.
Proof. solve_decision. Defined.
#[export] Instance np_dtype_eq_dec : EqDecision np_dtype.
Proof. solve_decision. Defined.

(** An [ndarray]: element type, shape, and the elements' bytes in row-major
    (C) order, each element little-endian.  [c_contiguous] is the
    [flags['C_CONTIGUOUS']] of the memory layout the array happens to have;
    [data] is the logical content in either case. *)
Record ndarray := {
  dtype : np_dtype;
  shape : list Z;
  data : list byte;
  c_contiguous : bool
}.

(** What [isinstance(x, np.ndarray)] accepts: a plain array, or a
    [np.ma.MaskedArray] (data plus a mask, [None] being [nomask]). *)
Inductive array :=
  | Plain (a : ndarray)
  | Masked (a : ndarray) (mask : option (list bool)).

(** ** Python values

    The values the module is applied to: what JSON-like column data is made
    of, and arrays.  A float is a Python [float]; numpy scalars and arrays
    of dtype [object] are not among these values. *)

Inductive pyval :=
  | PyNone
  | PyBool (b : bool)
  | PyInt (n : Z)
  | PyFloat (f : spec_float)
  | PyStr (s : string)
  | PyTemporal (dt : np_dtype) (count : Z)
      (* the date, datetime or timedelta object of a temporal element *)
  | PyList (items : list pyval)
  | PyTuple (items : list pyval)
  | PyDict (d : gmap string pyval)
  | PyArray (a : array)
  | PySeries (values : array).
      (* a pandas Series or Index, through its [values] *)

(** An array of dtype [object]: one Python value per element. *)
Record objarray := { oshape : list Z; oitems : list pyval }.

Module np.

Definition unit_name (u : time_unit) : string :=
  match u with
  | Unit_Y => "Y" | Unit_M => "M" | Unit_W => "W" | Unit_D => "D"
  | Unit_h => "h" | Unit_m => "m" | Unit_s => "s" | Unit_ms => "ms"
  | Unit_us => "us" | Unit_ns => "ns" | Unit_ps => "ps"
  | Unit_fs => "fs" | Unit_as => "as"
  end.

(** [dtype.name] *)
Definition name (dt : np_dtype) : string :=
  match dt with
  | float16 => "float16" | float32 => "float32" | float64 => "float64"
  | int8 => "int8" | int16 => "int16" | int32 => "int32" | int64 => "int64"
  | uint8 => "uint8" | uint16 => "uint16" | uint32 => "uint32"
  | uint64 => "uint64"
  | datetime64 u => "datetime64[" +:+ unit_name u +:+ "]"
  | timedelta64 u => "timedelta64[" +:+ unit_name u +:+ "]"
  end.

(** [dtype.kind] *)
Definition kind (dt : np_dtype) : ascii :=
  match dt with
  | float16 | float32 | float64 => "f"
  | int8 | int16 | int32 | int64 => "i"
  | uint8 | uint16 | uint32 | uint64 => "u"
  | datetime64 _ => "M"
  | timedelta64 _ => "m"
  end%char.

(** [dtype.itemsize], in bytes *)
Definition itemsize (dt : np_dtype) : Z :=
  match dt with
  | int8 | uint8 => 1
  | float16 | int16 | uint16 => 2
  | float32 | int32 | uint32 => 4
  | float64 | int64 | uint64 | datetime64 _ | timedelta64 _ => 8
  end.

Definition units : list time_unit :=
  [Unit_Y; Unit_M; Unit_W; Unit_D; Unit_h; Unit_m; Unit_s;
   Unit_ms; Unit_us; Unit_ns; Unit_ps; Unit_fs; Unit_as].

Definition dtypes : list np_dtype :=
  [float16; float32; float64; int8; int16; int32; int64;
   uint8; uint16; uint32; uint64]
  ++ map datetime64 units ++ map timedelta64 units.

(** [np.dtype(text)] for the canonical names, the ones [dtype.name] gives
    and the encoder writes.  (numpy reads further spellings, such as "f8",
    and names of dtypes that are not among [np_dtype]; what is proved of
    the decoder is proved for envelopes with a canonical name.) *)
Definition dtype_of_name (text : string) : option np_dtype :=
  List.find (fun dt => String.eqb (name dt) text) dtypes.

(** Exponent and fraction widths of the floating dtypes. *)
Definition float_format (dt : np_dtype) : option (Z * Z) :=
  match dt with
  | float16 => Some (5, 10)
  | float32 => Some (8, 23)
  | float64 => Some (11, 52)
  | _ => None
  end.

(** [np.product(shape)]: an int64 reduction. *)
Definition product (dims : list Z) : Z :=
  fold_right (fun d acc => wrap_int64 (d * acc)) 1 dims.

(** [array.size] *)
Definition size (a : ndarray) : Z := Zprod (shape a).

(** The elements, in row-major order, as unsigned bit patterns. *)
Definition raw (a : ndarray) : list Z :=
  let k := Z.to_nat (itemsize (dtype a)) in
  map le_to_Z (blocks (length (data a) / k) k (data a)).

(** Shape and buffer agree. *)
Definition valid (a : ndarray) : Prop :=
  Forall (fun d => 0 <= d) (shape a)
  /\ Z.of_nat (length (data a)) = itemsize (dtype a) * Zprod (shape a).

Definition test_raw (p : Z -> Z -> Z -> bool) (a : ndarray) : list bool :=
  match float_format (dtype a) with
  | Some (ebits, mbits) => map (p ebits mbits) (raw a)
  | None => map (fun _ => false) (raw a)
  end.

(** The elementwise tests, as flat boolean arrays.  Integers are always
    finite. *)
Definition isnan : ndarray -> list bool := test_raw IEEE.isnan.
Definition isposinf : ndarray -> list bool := test_raw IEEE.isposinf.
Definition isneginf : ndarray -> list bool := test_raw IEEE.isneginf.
Definition isfinite (a : ndarray) : list bool :=
  match float_format (dtype a) with
  | Some (ebits, mbits) => map (IEEE.isfinite ebits mbits) (raw a)
  | None => map (fun _ => true) (raw a)
  end.

(** [mask.any()] *)
Definition any (mask : list bool) : bool := existsb id mask.

(** Years and months, whose length in days is not fixed. *)
Definition calendar_unit (u : time_unit) : bool :=
  match u with Unit_Y | Unit_M => true | _ => false end.

(** Whole days in a count of a unit from weeks to microseconds (C
    arithmetic on int64, rounding toward minus infinity). *)
Definition whole_days (u : time_unit) (count : Z) : Z :=
  match u with
  | Unit_W => wrap_int64 (count * 7)
  | Unit_h => count / 24
  | Unit_m => count / (60 * 24)
  | Unit_s => count / (60 * 60 * 24)
  | Unit_ms => count / (1000 * 60 * 60 * 24)
  | Unit_us => count / (1000 * 1000 * 60 * 60 * 24)
  | _ => count
  end.

(** Units finer than a microsecond, which Python's [datetime] types do not
    resolve. *)
Definition finer_than_us (u : time_unit) : bool :=
  match u with
  | Unit_ns | Unit_ps | Unit_fs | Unit_as => true
  | _ => false
  end.

(** The instant lies in the years 1 to 9999 of Python's [date] and
    [datetime]: from 0001-01-01, day -719162, to 9999-12-31, day 2932896. *)
Definition datetime_in_range (u : time_unit) (count : Z) : bool :=
  match u with
  | Unit_Y =>
      let year := wrap_int64 (1970 + count) in (1 <=? year) && (year <=? 9999)
  | Unit_M =>
      let year := 1970 + count / 12 in (1 <=? year) && (year <=? 9999)
  | _ =>
      let days := whole_days u count in
      (-719162 <=? days) && (days <=? 2932896)
  end.

(** The span fits the days of Python's [timedelta]. *)
Definition timedelta_in_range (u : time_unit) (count : Z) : bool :=
  let days := whole_days u count in
  (-999999999 <=? days) && (days <=? 999999999).

(** The Python object of one element ([array.item], and the elements of
    [tolist]).  A temporal element is [None] when it is NaT, the raw count
    when its unit is finer than a microsecond, when a span is counted in
    years or months, or when Python's types cannot hold it, and a [date],
    [datetime] or [timedelta] otherwise. *)
Definition item (dt : np_dtype) (x : Z) : pyval :=
  match float_format dt with
  | Some (ebits, mbits) => PyFloat (IEEE.to_float ebits mbits x)
  | None =>
      match dt with
      | uint8 | uint16 | uint32 | uint64 => PyInt x
      | datetime64 u =>
          let count := to_signed 64 x in
          if count =? int64_min then PyNone
          else if finer_than_us u then PyInt count
          else if datetime_in_range u count then PyTemporal dt count
          else PyInt count
      | timedelta64 u =>
          let count := to_signed 64 x in
          if count =? int64_min then PyNone
          else if finer_than_us u || calendar_unit u then PyInt count
          else if timedelta_in_range u count then PyTemporal dt count
          else PyInt count
      | _ => PyInt (to_signed (8 * itemsize dt) x)
      end
  end.

(** Nested lists of the given shape over a flat run of items; with no
    dimension left, the single item itself. *)
Fixpoint nest (dims : list Z) (xs : list pyval) : pyval :=
  match dims with
  | [] => hd PyNone xs
  | d :: rest =>
      PyList (map (nest rest)
                  (blocks (Z.to_nat d) (Z.to_nat (Zprod rest)) xs))
  end.

(** [array.tolist()] *)
Definition tolist (a : ndarray) : pyval :=
  nest (shape a) (map (item (dtype a)) (raw a)).

(** [array.astype('object')] *)
Definition astype_object (a : ndarray) : objarray :=
  {| oshape := shape a; oitems := map (item (dtype a)) (raw a) |}.

(** [arr[mask] = v] *)
Definition setmask (arr : objarray) (mask : list bool) (v : pyval) : objarray :=
  {| oshape := oshape arr;
     oitems := zip_with (fun x (m : bool) => if m then v else x) (oitems arr) mask |}.

Definition obj_tolist (arr : objarray) : pyval := nest (oshape arr) (oitems arr).

(** [np.ascontiguousarray(array)] *)
Definition ascontiguousarray (a : ndarray) : ndarray :=
  {| dtype := dtype a; shape := shape a; data := data a; c_contiguous := true |}.

(** [np.fromstring(buf, dtype=dt)]: a one-dimensional array over the
    bytes. *)
Definition fromstring (buf : list byte) (dt : np_dtype) : result ndarray :=
  let n := Z.of_nat (length buf) in
  if n mod itemsize dt =? 0
  then Ok {| dtype := dt; shape := [n / itemsize dt]; data := buf;
             c_contiguous := true |}
  else Raise ValueError.

(** [array.reshape(dims)]: at most one negative dimension, which is
    inferred; the element count must be kept. *)
Definition reshape (a : ndarray) (dims : list Z) : result ndarray :=
  let known := Zprod (List.filter (fun d => 0 <=? d) dims) in
  let unknown := length (List.filter (fun d => d <? 0) dims) in
  let with_shape (sh : list Z) :=
    Ok {| dtype := dtype a; shape := sh; data := data a;
          c_contiguous := true |} in
  match unknown with
  | O => if known =? size a then with_shape dims else Raise ValueError
  | 1%nat =>
      if (known =? 0) || negb (size a mod known =? 0) then Raise ValueError
      else with_shape (map (fun d => if d <? 0 then size a / known else d) dims)
  | _ => Raise ValueError
  end.

(** *** Temporal dtypes

    A [datetime64] or [timedelta64] element is an int64 count of units;
    the smallest int64 is NaT. *)

(** Length of a unit in attoseconds, as a fraction; years and months take
    the 400-year average, as numpy does when casting durations. *)
Definition unit_len (u : time_unit) : Z * Z :=
  match u with
  | Unit_Y => (146097 * 86400 * 10 ^ 18, 400)
  | Unit_M => (146097 * 86400 * 10 ^ 18, 4800)
  | Unit_W => (7 * 86400 * 10 ^ 18, 1)
  | Unit_D => (86400 * 10 ^ 18, 1)
  | Unit_h => (3600 * 10 ^ 18, 1)
  | Unit_m => (60 * 10 ^ 18, 1)
  | Unit_s => (10 ^ 18, 1)
  | Unit_ms => (10 ^ 15, 1)
  | Unit_us => (10 ^ 12, 1)
  | Unit_ns => (10 ^ 9, 1)
  | Unit_ps => (10 ^ 6, 1)
  | Unit_fs => (10 ^ 3, 1)
  | Unit_as => (1, 1)
  end.

(** The reduced ratio [num / denom] of one [src] unit in [dst] units. *)
Definition conversion_factor (src dst : time_unit) : Z * Z :=
  let '(ns, ds) := unit_len src in
  let '(nd, dd) := unit_len dst in
  let g := Z.gcd (ns * dd) (ds * nd) in
  ((ns * dd) / g, (ds * nd) / g).

(** The scaling loop of the cast: C arithmetic on int64, rounding toward
    minus infinity. *)
Definition cast_scaled (src dst : time_unit) (v : Z) : Z :=
  let '(num, denom) := conversion_factor src dst in
  if v <? 0
  then Z.quot (wrap_int64 (wrap_int64 (v * num) - (denom - 1))) denom
  else Z.quot (wrap_int64 (v * num)) denom.

(** Days since 1970-01-01 of a proleptic Gregorian date, and back. *)
Definition days_from_civil (y m d : Z) : Z :=
  let y := if m <=? 2 then y - 1 else y in
  let era := y / 400 in
  let yoe := y - era * 400 in
  let doy := (153 * (if 2 <? m then m - 3 else m + 9) + 2) / 5 + d - 1 in
  let doe := yoe * 365 + yoe / 4 - yoe / 100 + doy in
  era * 146097 + doe - 719468.

Definition civil_from_days (z : Z) : Z * Z * Z :=
  let z := z + 719468 in
  let era := z / 146097 in
  let doe := z - era * 146097 in
  let yoe := (doe - doe / 1460 + doe / 36524 - doe / 146096) / 365 in
  let doy := doe - (365 * yoe + yoe / 4 - yoe / 100) in
  let mp := (5 * doy + 2) / 153 in
  let d := doy - (153 * mp + 2) / 5 + 1 in
  let m := if mp <? 10 then mp + 3 else mp - 9 in
  ((if m <=? 2 then yoe + era * 400 + 1 else yoe + era * 400), m, d).

(** Cast of one [timedelta64] count between units. *)
Definition cast_timedelta (src dst : time_unit) (v : Z) : Z :=
  if v =? int64_min then int64_min else cast_scaled src dst v.

(** Cast of one [datetime64] count between units: years and months go
    through the calendar.  The day number of a date is computed exactly;
    it agrees with numpy's as long as that fits an int64 (years within
    about 10^16 of 1970). *)
Definition cast_datetime (src dst : time_unit) (v : Z) : Z :=
  if v =? int64_min then int64_min
  else if bool_decide (src = dst) then v
  else if calendar_unit src then
    let months := match src with Unit_Y => 12 * v | _ => v end in
    match dst with
    | Unit_Y => months / 12
    | Unit_M => months
    | _ =>
        cast_scaled Unit_D dst
          (days_from_civil (1970 + months / 12) (months mod 12 + 1) 1)
    end
  else if calendar_unit dst then
    let '(y, m, _) := civil_from_days (cast_scaled src Unit_D v) in
    match dst with
    | Unit_Y => y - 1970
    | _ => (y - 1970) * 12 + m - 1
    end
  else cast_scaled src dst v.

(** A [np.datetime64] scalar. *)
Record datetime64_scalar := { dt_unit : time_unit; dt_value : Z }.

(** [np.datetime64('YYYY')] *)
Definition datetime64_of_year (year : Z) : datetime64_scalar :=
  {| dt_unit := Unit_Y; dt_value := year - 1970 |}.

Definition scalar_astype_datetime64 (dst : time_unit) (x : datetime64_scalar)
  : datetime64_scalar :=
  {| dt_unit := dst; dt_value := cast_datetime (dt_unit x) dst (dt_value x) |}.

Definition scalar_astype_int64 (x : datetime64_scalar) : Z := dt_value x.

(** The elements of an 8-byte array as signed counts. *)
Definition counts (a : ndarray) : list Z := map (to_signed 64) (raw a).

(** A fresh contiguous array over 8-byte elements. *)
Definition of_words (dt : np_dtype) (dims : list Z) (ws : list Z) : ndarray :=
  {| dtype := dt; shape := dims;
     data := concat (map (fun w => Z_to_le 8 (w mod 2 ^ 64)) ws);
     c_contiguous := true |}.

(** [a.astype('datetime64[dst]')], for a datetime array *)
Definition astype_datetime64 (dst : time_unit) (a : ndarray) : ndarray :=
  match dtype a with
  | datetime64 src =>
      of_words (datetime64 dst) (shape a) (map (cast_datetime src dst) (counts a))
  | _ => of_words (datetime64 dst) (shape a) (counts a)
  end.

(** [a.astype('timedelta64[dst]')], for a timedelta array *)
Definition astype_timedelta64 (dst : time_unit) (a : ndarray) : ndarray :=
  match dtype a with
  | timedelta64 src =>
      of_words (timedelta64 dst) (shape a) (map (cast_timedelta src dst) (counts a))
  | _ => of_words (timedelta64 dst) (shape a) (counts a)
  end.

(** [a.astype('int64')], for a temporal array: the counts themselves *)
Definition astype_int64 (a : ndarray) : ndarray :=
  of_words int64 (shape a) (counts a).

(** [a / y] for an int64 array and a Python float: a float64 array *)
Definition true_divide (a : ndarray) (y : spec_float) : ndarray :=
  of_words float64 (shape a)
    (map (fun v => IEEE.float64_bits (SFdiv 53 1024 (IEEE.float64_of_Z v) y))
         (counts a)).

(** *** Masked arrays *)

Definition lift (f : ndarray -> ndarray) (x : array) : array :=
  match x with
  | Plain a => Plain (f a)
  | Masked a mask => Masked (f a) mask
  end.

Definition base (x : array) : ndarray :=
  match x with Plain a | Masked a _ => a end.

(** [marr.filled(np.nan)]: without a mask, the data itself; with one, the
    fill value is checked first (NaN over an integer dtype is a
    [TypeError]), and masked elements become NaN. *)
Definition filled_nan (a : ndarray) (mask : option (list bool)) : result ndarray :=
  match mask with
  | None => Ok a
  | Some m =>
      match float_format (dtype a) with
      | None => Raise TypeError
      | Some (ebits, mbits) =>
          if any m then
            let k := Z.to_nat (itemsize (dtype a)) in
            Ok {| dtype := dtype a; shape := shape a;
                  data := concat (zip_with
                            (fun blk (hide : bool) =>
                               if hide then Z_to_le k (IEEE.nan_bits ebits mbits)
                               else blk)
                            (blocks (length (data a) / k) k (data a)) m);
                  c_contiguous := true |}
          else Ok a
      end
  end.

End np.

(** ** The module's globals and settings *)

(** [settings.use_binary_arrays()] and [settings.binary_array_cutoff()] *)
Record Settings := {
  use_binary_arrays : bool;
  binary_array_cutoff : Z
}.

(** numpy imported: [is_numpy = True] and the whitelist is populated. *)
Definition is_numpy : bool := true.

Definition array_types : list np_dtype :=
  [float32; float64; uint8; int8; uint16; int16; uint32; int32].

(** ** bokeh.util.serialization *)

Section Serialization.

Variable settings : Settings.

Definition transform_array_to_list (array : ndarray) : pyval :=
  if bool_decide (np.kind (dtype array) ∈ ["u"; "i"; "f"]%char)
     && np.any (map negb (np.isfinite array))
  then
    let transformed := np.astype_object array in
    let transformed := np.setmask transformed (np.isnan array) (PyStr "NaN") in
    let transformed := np.setmask transformed (np.isposinf array) (PyStr "Infinity") in
    let transformed := np.setmask transformed (np.isneginf array) (PyStr "-Infinity") in
    np.obj_tolist transformed
  else np.tolist array.

Definition encoding_disabled (array : ndarray) : bool :=
  if negb (use_binary_arrays settings) then true
  else if negb (bool_decide (dtype array ∈ array_types)) then true
  else
    let array_samples := np.product (shape array) in
    array_samples <? binary_array_cutoff settings.

Definition encode_base64_dict (array : ndarray) : pyval :=
  PyDict {[ "__ndarray__" := PyStr (Base64.b64encode (data array));
            "shape" := PyTuple (map PyInt (shape array));
            "dtype" := PyStr (np.name (dtype array)) ]}.

Definition serialize_array (array : array) (force_list : bool) : result pyval :=
  array ← match array with
           | Masked a mask => np.filled_nan a mask
           | Plain a => Ok a
           end;
  if encoding_disabled array || force_list
  then Ok (transform_array_to_list array)
  else
    let array := if negb (c_contiguous array)
                 then np.ascontiguousarray array else array in
    Ok (encode_base64_dict array).

Definition transform_array (obj : array) (force_list : bool) : result pyval :=
  let dt2001 := np.datetime64_of_year 2001 in
  let legacy_datetime64 :=
    np.scalar_astype_int64 dt2001
    =? np.scalar_astype_int64 (np.scalar_astype_datetime64 Unit_ms dt2001) in
  array ←
    (if Ascii.eqb (np.kind (dtype (np.base obj))) "M" then
       if legacy_datetime64 then
         if bool_decide (dtype (np.base obj) = datetime64 Unit_ns)
         then Ok (np.lift (fun a => np.true_divide (np.astype_int64 a)
                                      (IEEE.float64_of_Z (10 ^ 6))) obj)
         else Raise UnboundLocalError
       else
         Ok (np.lift (fun a => np.true_divide
                                 (np.astype_int64 (np.astype_datetime64 Unit_us a))
                                 (IEEE.float64_of_Z 1000)) obj)
     else if Ascii.eqb (np.kind (dtype (np.base obj))) "m" then
       Ok (np.lift (fun a => np.true_divide
                               (np.astype_int64 (np.astype_timedelta64 Unit_us a))
                               (IEEE.float64_of_Z 1000)) obj)
     else Ok obj);
  serialize_array array force_list.

Definition transform_series (values : array) : result pyval :=
  transform_array values false.

Definition is_ndarray (el : pyval) : bool :=
  match el with PyArray _ => true | _ => false end.

(** [[transform_array(el) for el in datum]], every [el] being an array *)
Definition transform_each (datum : list pyval) : result (list pyval) :=
  mapM (fun el => match el with
                  | PyArray a => transform_array a false
                  | _ => Ok el
                  end) datum.

(** One turn of the loop of [traverse_data] when called with its default
    flags; a list or tuple item is traversed by the recursive call. *)
Fixpoint traverse_item (item : pyval) : result pyval :=
  match item with
  | PyList datum | PyTuple datum =>
      if (is_numpy && true) && forallb is_ndarray datum
      then PyList <$> transform_each datum
      else PyList <$> mapM traverse_item datum
  | PyFloat f =>
      Ok (match f with
          | S754_nan => PyStr "NaN"
          | S754_infinity false => PyStr "Infinity"
          | S754_infinity true => PyStr "-Infinity"
          | _ => item
          end)
  | _ => Ok item
  end.

(** [traverse_data(datum, is_numpy, use_numpy)], [datum] being given by
    the items of the list or tuple. *)
Definition traverse_data (is_numpy use_numpy : bool) (datum : list pyval)
  : result (list pyval) :=
  let is_numpy := is_numpy && use_numpy in
  if is_numpy && forallb is_ndarray datum
  then transform_each datum
  else mapM traverse_item datum.

(** [for item in datum] for the column values that are neither arrays nor
    series.  A string yields its characters, a dict its keys; scalars are
    not iterable.  (Arrays and series never get here.) *)
Definition iter_payload (datum : pyval) : result (list pyval) :=
  match datum with
  | PyList items | PyTuple items => Ok items
  | PyStr text => Ok (map (fun c => PyStr (String c EmptyString))
                          (list_ascii_of_string text))
  | PyDict d => Ok (map (fun kv => PyStr kv.1) (map_to_list d))
  | _ => Raise TypeError
  end.

(** The body of the loop over the keys. *)
Definition transform_column (value : pyval) : result pyval :=
  match value with
  | PySeries values => transform_series values
  | PyArray a => transform_array a false
  | _ => items ← iter_payload value;
         PyList <$> traverse_data is_numpy true items
  end.

Definition transform_column_source_data (data : gmap string pyval)
  : result (gmap string pyval) :=
  fold_left
    (fun acc kv =>
       data_copy ← acc;
       v ← transform_column kv.2;
       Ok (<[kv.1 := v]> data_copy))
    (map_to_list data) (Ok ∅).

(** [len(x)] and the dimensions [reshape] accepts *)
Definition py_len (x : pyval) : result Z :=
  match x with
  | PyList items | PyTuple items => Ok (Z.of_nat (length items))
  | PyStr text => Ok (Z.of_nat (String.length text))
  | PyDict d => Ok (Z.of_nat (size d))
  | _ => Raise TypeError
  end.

Definition as_int (x : pyval) : result Z :=
  match x with PyInt n => Ok n | _ => Raise TypeError end.

Definition as_dims (x : pyval) : result (list Z) :=
  match x with
  | PyList items | PyTuple items => mapM as_int items
  | _ => Raise TypeError
  end.

Definition getitem (d : gmap string pyval) (key : string) : result pyval :=
  match d !! key with Some v => Ok v | None => Raise KeyError end.

(** The payload is a text (as JSON delivers it); the dtype is [None],
    numpy's default, or a name. *)
Definition decode_base64_dict (data : gmap string pyval) : result ndarray :=
  text ← getitem data "__ndarray__";
  b64 ← match text with
         | PyStr text =>
             match Base64.b64decode text with
             | Some buf => Ok buf
             | None => Raise (if Base64.is_ascii text
                              then binascii_Error else ValueError)
             end
         | _ => Raise TypeError
         end;
  dt ← getitem data "dtype";
  array ← match dt with
           | PyStr text =>
               match np.dtype_of_name text with
               | Some dt => np.fromstring b64 dt
               | None => Raise TypeError
               end
           | PyNone => np.fromstring b64 float64
           | _ => Raise TypeError
           end;
  sh ← getitem data "shape";
  n ← py_len sh;
  if 1 <? n
  then dims ← as_dims sh; np.reshape array dims
  else Ok array.

Definition is_envelope (v : pyval) : bool :=
  match v with
  | PyDict d => bool_decide (is_Some (d !! "__ndarray__"))
  | _ => false
  end.

(** The body of the loop over the items of [decode_column_data]. *)
Definition decode_column (v : pyval) : result pyval :=
  match v with
  | PyDict d =>
      if bool_decide (is_Some (d !! "__ndarray__"))
      then (fun a => PyArray (Plain a)) <$> decode_base64_dict d
      else Ok v
  | PyList items =>
      PyList <$> mapM (fun el =>
                         match el with
                         | PyDict d =>
                             if bool_decide (is_Some (d !! "__ndarray__"))
                             then (fun a => PyArray (Plain a)) <$> decode_base64_dict d
                             else Ok el
                         | _ => Ok el
                         end) items
  | _ => Ok v
  end.

Definition decode_column_data (data : gmap string pyval)
  : result (gmap string pyval) :=
  fold_left
    (fun acc kv =>
       new_data ← acc;
       v ← decode_column kv.2;
       Ok (<[kv.1 := v]> new_data))
    (map_to_list data) (Ok ∅).

End Serialization.

(** ** uuid (the Python standard library's [uuid] module) *)

Module uuid.

Definition hex_digit (n : N) : ascii :=
  nth (N.to_nat n) (list_ascii_of_string "0123456789abcdef") "0"%char.

(** ['%0<width>x' % n], for [n] below [16 ^ width] *)
Fixpoint hex (width : nat) (n : N) : list ascii :=
  match width with
  | O => []
  | S w => hex w (n / 16) ++ [hex_digit (n mod 16)]
  end.

(** [uuid.uuid4().int], from the 128 bits that [os.urandom(16)] gives:
    the variant and version fields are forced. *)
Definition uuid4 (random : N) : N :=
  let int := (random mod 2 ^ 128)%N in
  let int := N.ldiff int (N.shiftl 0xc000 48) in
  let int := N.lor int (N.shiftl 0x8000 48) in
  let int := N.ldiff int (N.shiftl 0xf000 64) in
  N.lor int (N.shiftl 4 76).

(** [str(u)]: 32 hexadecimal digits in groups of 8, 4, 4, 4 and 12 *)
Definition str (int : N) : string :=
  let h := hex 32 int in
  string_of_list_ascii
    (take 8 h ++ "-"%char :: take 4 (drop 8 h) ++ "-"%char :: take 4 (drop 12 h)
       ++ "-"%char :: take 4 (drop 16 h) ++ "-"%char :: drop 20 h).

End uuid.

(** ** [make_id]

    What one call reads from outside the module: the answer of
    [settings.simple_ids(False)] and the random bits [uuid.uuid4()] draws.
    The module global [_simple_id] is threaded through the calls; it starts
    at 1000. *)
Record Outside := { simple_ids : bool; urandom : N }.

Definition _simple_id_at_import : Z := 1000.

(** [str(n)] of a Python int is stdpp's [pretty]. *)
Definition make_id (w : Outside) (_simple_id : Z) : string * Z :=
  if simple_ids w then
    let _simple_id := _simple_id + 1 in
    let new_id := _simple_id in
    (pretty new_id, _simple_id)
  else
    let new_id := uuid.uuid4 (urandom w) in
    (uuid.str new_id, _simple_id).

(** Successive calls of [make_id]. *)
Fixpoint make_ids (ws : list Outside) (_simple_id : Z) : list string * Z :=
  match ws with
  | [] => ([], _simple_id)
  | w :: ws' =>
      let (new_id, _simple_id) := make_id w _simple_id in
      let (ids, _simple_id) := make_ids ws' _simple_id in
      (new_id :: ids, _simple_id)
  end.

(** The ids of a run that were made in simple-id mode. *)
Definition simple_ids_of (ws : list Outside) (ids : list string) : list string :=
  map snd (List.filter (fun p : Outside * string => simple_ids p.1) (zip ws ids)).

(** An array whose masked entries, if any, can be filled with NaN. *)
Definition fillable (x : array) : bool :=
  match x with
  | Plain _ | Masked _ None => true
  | Masked a (Some _) => bool_decide (is_Some (np.float_format (dtype a)))
  end.

(** Every array met by the traversal of [v] is fillable. *)
Fixpoint arrays_fillable (v : pyval) : bool :=
  match v with
  | PyList items | PyTuple items => forallb arrays_fillable items
  | PyArray x | PySeries x => fillable x
  | _ => true
  end.

(** What decoding does to one value that may be an envelope: a dict with
    the marker key becomes the decoded array, anything else is kept. *)
Definition decoded_envelope (el el' : pyval) : Prop :=
  match el with
  | PyDict d =>
      if bool_decide (is_Some (d !! "__ndarray__"))
      then exists arr, decode_base64_dict d = Ok arr /\ el' = PyArray (Plain arr)
      else el' = el
  | _ => el' = el
  end.

(** What decoding does to one column: the elements of a list are decoded
    one by one, any other value is itself decoded. *)
Definition decoded_column (v v' : pyval) : Prop :=
  match v with
  | PyList items =>
      exists items', v' = PyList items' /\ Forall2 decoded_envelope items items'
  | _ => decoded_envelope v v'
  end.

(** ** The column-set encoder over a store of objects

    Lists, tuples, dicts, arrays and series are objects with an identity;
    a value is either a reference to one of them or an immutable value
    that shares nothing with the store (a scalar, or a structure freshly
    built by a library call such as [tolist()]).  The code writes to the
    store only through [append] and item assignment. *)
Module Store.

Definition loc := positive.

Inductive value :=
  | VPure (v : pyval)
  | VRef (l : loc).

Inductive object :=
  | OList (items : list value)
  | OTuple (items : list value)
  | ODict (entries : gmap string value)
  | OArray (a : array)
  | OSeries (values : array).

Abbreviation heap := (gmap loc object).

(** A computation reads and writes the store and may raise. *)
Definition St (A : Type) : Type := heap -> result (A * heap).

#[export] Instance St_ret : MRet St := fun A a h => Ok (a, h).
#[export] Instance St_bind : MBind St := fun A B f m h =>
  match m h with
  | Ok (a, h') => f a h'
  | Raise e => Raise e
  end.

#[export] Instance St_fmap : FMap St := fun A B f m h =>
  match m h with
  | Ok (a, h') => Ok (f a, h')
  | Raise e => Raise e
  end.

Definition raise {A} (e : exn) : St A := fun _ => Raise e.

Definition lift {A} (r : result A) : St A := fun h =>
  match r with Ok a => Ok (a, h) | Raise e => Raise e end.

Definition get_heap : St heap := fun h => Ok (h, h).

(** A new object gets an identity no live object has. *)
Definition alloc (o : object) : St loc := fun h =>
  let l := fresh (dom h) in Ok (l, <[l := o]> h).

(** [lst.append(v)] *)
Definition list_append (l : loc) (v : value) : St unit := fun h =>
  match h !! l with
  | Some (OList items) => Ok (tt, <[l := OList (items ++ [v])]> h)
  | _ => Raise TypeError
  end.

(** [d[key] = v] *)
Definition dict_setitem (l : loc) (key : string) (v : value) : St unit := fun h =>
  match h !! l with
  | Some (ODict entries) => Ok (tt, <[l := ODict (<[key := v]> entries)]> h)
  | _ => Raise TypeError
  end.

(** [for x in l: body(x)] *)
Definition for_each {A} (body : A -> St unit) : list A -> St unit :=
  fix go (l : list A) : St unit :=
    match l with
    | [] => mret tt
    | x :: l' => fun h =>
        match body x h with
        | Ok (_, h') => go l' h'
        | Raise e => Raise e
        end
    end.

(** [[f(x) for x in l]] *)
Definition collect {A B} (f : A -> St B) : list A -> St (list B) :=
  fix go (l : list A) : St (list B) :=
    match l with
    | [] => mret []
    | x :: l' => fun h =>
        match f x h with
        | Ok (y, h') =>
            match go l' h' with
            | Ok (ys, h'') => Ok (y :: ys, h'')
            | Raise e => Raise e
            end
        | Raise e => Raise e
        end
    end.

(** [isinstance(x, np.ndarray)], [isinstance(x, (list, tuple))] *)
Definition as_ndarray (h : heap) (x : value) : option array :=
  match x with
  | VPure (PyArray a) => Some a
  | VPure _ => None
  | VRef l => match h !! l with Some (OArray a) => Some a | _ => None end
  end.

Definition is_sequence (h : heap) (x : value) : bool :=
  match x with
  | VPure (PyList _ | PyTuple _) => true
  | VPure _ => false
  | VRef l => match h !! l with Some (OList _ | OTuple _) => true | _ => false end
  end.

(** [pd and isinstance(x, (pd.Series, pd.Index))], through the values *)
Definition as_series (h : heap) (x : value) : option array :=
  match x with
  | VPure (PySeries a) => Some a
  | VPure _ => None
  | VRef l => match h !! l with Some (OSeries a) => Some a | _ => None end
  end.

(** The items [for item in datum] runs over, for an object of the store;
    an object of any other class is not iterable. *)
Definition iter_object (o : option object) : St (list value) :=
  match o with
  | Some (OList items | OTuple items) => mret items
  | Some (ODict entries) =>
      mret (map (fun kv => VPure (PyStr kv.1)) (map_to_list entries))
  | _ => raise TypeError
  end.

(** The traversal of an immutable value, which needs no store. *)
Definition traverse_pure (settings : Settings) (numpy use_numpy : bool) (v : pyval)
  : result value :=
  items ← iter_payload v;
  (fun out => VPure (PyList out)) <$> traverse_data settings numpy use_numpy items.

Section Serialization.

Variable settings : Settings.

(** [transform_array(el)] for an element the comprehension of the fast path
    meets *)
Definition transform_element (h : heap) (el : value) : St value :=
  match as_ndarray h el with
  | Some a => VPure <$> lift (transform_array settings a false)
  | None => mret el
  end.

(** One turn of the loop of [traverse_data]; [recur] is the recursive call
    with the default flags. *)
Definition traverse_step (recur : value -> St value) (datum_copy : loc) (item : value)
  : St unit :=
  h ← get_heap;
  if is_sequence h item then
    out ← recur item;
    list_append datum_copy out
  else
    match item with
    | VPure (PyFloat f) =>
        list_append datum_copy
          (VPure (match f with
                  | S754_nan => PyStr "NaN"
                  | S754_infinity false => PyStr "Infinity"
                  | S754_infinity true => PyStr "-Infinity"
                  | _ => PyFloat f
                  end))
    | _ => list_append datum_copy item
    end.

(** [traverse_data]; [limit] is the interpreter's recursion limit.  An
    immutable value is traversed as in the store-free embedding. *)
Fixpoint traverse_data (limit : nat) (numpy use_numpy : bool) (datum : value)
  : St value :=
  match limit with
  | O => raise RecursionError
  | S limit' =>
      match datum with
      | VPure v => lift (traverse_pure settings numpy use_numpy v)
      | VRef l =>
          h ← get_heap;
          items ← iter_object (h !! l);
          let numpy := numpy && use_numpy in
          if numpy && forallb (fun el => bool_decide (is_Some (as_ndarray h el))) items
          then
            results ← collect (transform_element h) items;
            VRef <$> alloc (OList results)
          else
            datum_copy ← alloc (OList []);
            for_each (traverse_step (traverse_data limit' is_numpy true) datum_copy)
                     items;;
            mret (VRef datum_copy)
      end
  end.

(** The value stored for one key of [transform_column_source_data]. *)
Definition transform_column (limit : nat) (x : value) : St value :=
  h ← get_heap;
  match as_series h x with
  | Some values => VPure <$> lift (transform_series settings values)
  | None =>
      match as_ndarray h x with
      | Some a => VPure <$> lift (transform_array settings a false)
      | None => traverse_data limit is_numpy true x
      end
  end.

Definition transform_column_source_data (limit : nat) (data : loc) : St loc :=
  data_copy ← alloc (ODict ∅);
  h ← get_heap;
  entries ← match h !! data with
             | Some (ODict entries) => mret entries
             | _ => raise TypeError
             end;
  for_each (fun kv : string * value =>
              out ← transform_column limit kv.2;
              dict_setitem data_copy kv.1 out) (map_to_list entries);;
  mret data_copy.

End Serialization.

(** *** Column sets the encoder accepts

    References lead to live objects, sequences nest less deep than the
    recursion limit, and masked arrays can be filled with NaN. *)








(** *** Reading the store

    [reads h x v]: followed through the store [h], the value [x] is the
    tree [v] of the store-free embedding. *)
Inductive reads (h : heap) : value -> pyval -> Prop :=
  | reads_pure v : reads h (VPure v) v
  | reads_list l items vs :
      h !! l = Some (OList items) -> Forall2 (reads h) items vs ->
      reads h (VRef l) (PyList vs)
  | reads_tuple l items vs :
      h !! l = Some (OTuple items) -> Forall2 (reads h) items vs ->
      reads h (VRef l) (PyTuple vs)
  | reads_dict l d :
      h !! l = Some (ODict (VPure <$> d)) -> reads h (VRef l) (PyDict d)
  | reads_array l a :
      h !! l = Some (OArray a) -> reads h (VRef l) (PyArray a)
  | reads_series l a :
      h !! l = Some (OSeries a) -> reads h (VRef l) (PySeries a).

(** Depth of the list and tuple nesting. *)
Fixpoint depth (v : pyval) : nat :=
  match v with
  | PyList items | PyTuple items => S (list_max (map depth items))
  | _ => O
  end.

(** [x] reads as [v] in a store [e] that holds the objects of [h0] and
    objects made since the store was [h], and is part of [h']. *)
Definition reads_fresh (h0 h h' : heap) (x : value) (v : pyval) : Prop :=
  exists e : heap,
    h0 ⊆ e /\ e ⊆ h'
    /\ (forall l, is_Some (e !! l) -> is_Some (h !! l) -> is_Some (h0 !! l))
    /\ reads e x v.

End Store.

(** ** Vocabulary of the specification *)

Definition returns_list (r : result pyval) : bool :=
  match r with Ok (PyList _) => true | _ => false end.

Definition returns_envelope (r : result pyval) : bool :=
  match r with Ok v => is_envelope v | Raise _ => false end.

(** No element of [x] is masked: [x] is a plain array, or a masked array
    without a mask, or a masked array of a floating dtype whose mask has no
    entry set (on any other dtype [filled(np.nan)] raises as soon as there
    is a mask). *)
Definition unmasked (x : array) : bool :=
  match x with
  | Plain _ | Masked _ None => true
  | Masked a (Some m) =>
      bool_decide (is_Some (np.float_format (dtype a))) && negb (np.any m)
  end.

(** The four conditions under which binary encoding is not used. *)
Definition list_path (settings : Settings) (a : ndarray) (force_list : bool) : bool :=
  negb (use_binary_arrays settings)
  || force_list
  || negb (bool_decide (dtype a ∈ array_types))
  || (np.product (shape a) <? binary_array_cutoff settings).

(** Array mode of the sanitizer, in the words of the specification: every
    element keeps its value except NaN, +Inf and -Inf, which become the
    three sentinel strings. *)
Definition sanitized_item (dt : np_dtype) (x : Z) : pyval :=
  match np.float_format dt with
  | Some (ebits, mbits) =>
      if IEEE.isnan ebits mbits x then PyStr "NaN"
      else if IEEE.isposinf ebits mbits x then PyStr "Infinity"
      else if IEEE.isneginf ebits mbits x then PyStr "-Infinity"
      else np.item dt x
  | None => np.item dt x
  end.

(** The ways in which payload and recorded shape can disagree that the
    decoder notices. *)
Definition inconsistent (dt : np_dtype) (buf : list byte) (sh : pyval) : Prop :=
  Z.of_nat (length buf) mod np.itemsize dt <> 0
  \/ exists dims,
       as_dims sh = Ok dims
       /\ (1 < length dims)%nat
       /\ Forall (fun d => 0 <= d) dims
       /\ Zprod dims <> Z.of_nat (length buf) / np.itemsize dt.

(** The Temporal Normalizer, in the words of the specification: the
    elements as microsecond counts (an int64 each), divided by 1000 in
    floating point, as a float64 array of the same shape. *)
Definition to_milliseconds (to_us : Z -> Z) (a : ndarray) : ndarray :=
  np.of_words float64 (shape a)
    (map (fun v => IEEE.float64_bits
                     (SFdiv 53 1024 (IEEE.float64_of_Z (wrap_int64 (to_us v)))
                                    (IEEE.float64_of_Z 1000)))
         (np.counts a)).

(** Scalar mode of the sanitizer. *)
Definition sanitize_scalar (f : spec_float) : pyval :=
  match f with
  | S754_nan => PyStr "NaN"
  | S754_infinity false => PyStr "Infinity"
  | S754_infinity true => PyStr "-Infinity"
  | _ => PyFloat f
  end.

(** The rule for one direct child, in the words of the specification: a
    nested sequence is traversed, a float goes through the scalar
    sanitizer, anything else is passed on. *)
Definition child_rule (settings : Settings) (item : pyval) : result pyval :=
  match item with
  | PyList datum | PyTuple datum =>
      PyList <$> traverse_data settings is_numpy true datum
  | PyFloat f => Ok (sanitize_scalar f)
  | _ => Ok item
  end.

(** The same nesting with lists for tuples and every float sanitized. *)
Fixpoint sanitize_tree (v : pyval) : pyval :=
  match v with
  | PyList items | PyTuple items => PyList (map sanitize_tree items)
  | PyFloat f => sanitize_scalar f
  | _ => v
  end.

(** No sequence inside [v], at any depth, is a non-empty run of arrays. *)
Fixpoint no_array_run (v : pyval) : bool :=
  match v with
  | PyList items | PyTuple items =>
      match items with
      | [] => true
      | _ :: _ => negb (forallb is_ndarray items)
      end && forallb no_array_run items
  | _ => true
  end.


(** The store embedding agrees with the store-free one on the sequence
    [v]: where traversing the items of [v] gives [out], traversing any value
    that reads as [v] gives a value that reads as [out]. *)
Definition simulated (settings : Settings) (v : pyval) : Prop :=
  forall limit numpy use_numpy x (h0 h : Store.heap) items out,
    h0 ⊆ h -> Store.reads h0 x v -> (Store.depth v < limit)%nat ->
    iter_payload v = Ok items ->
    traverse_data settings numpy use_numpy items = Ok out ->
    exists o h',
      Store.traverse_data settings limit numpy use_numpy x h = Ok (o, h')
      /\ Store.reads_fresh h0 h h' o (PyList out).

(** ** Vocabulary of the further properties *)

(** The export of one element of a masked array: a hidden element counts
    as NaN. *)
Definition masked_item (dt : np_dtype) (x : Z) (hide : bool) : pyval :=
  if hide then PyStr "NaN" else sanitized_item dt x.

(** The bits of one element of a filled array: [nan] where the mask hides
    the element. *)
Definition filled_bits (nan : Z) (x : Z) (hide : bool) : Z :=
  if hide then nan else x.

(** NaN can stand in for the masked elements of [x]: there is no mask, or
    the elements are floats, or they are turned into floats first (the
    temporal kinds). *)
Definition nan_storable (x : array) : bool :=
  match x with
  | Plain _ | Masked _ None => true
  | Masked a (Some _) =>
      bool_decide (is_Some (np.float_format (dtype a)))
      || Ascii.eqb (np.kind (dtype a)) "M"
      || Ascii.eqb (np.kind (dtype a)) "m"
  end.

(** What the list path exports for a temporal element of count [v]: the
    microsecond count [to_us v] divided by 1000 in floating point, then
    sanitized like any float64 element. *)
Definition exported_ms (to_us : Z -> Z) (v : Z) : pyval :=
  sanitized_item float64
    (IEEE.float64_bits
       (SFdiv 53 1024 (IEEE.float64_of_Z (wrap_int64 (to_us v)))
                      (IEEE.float64_of_Z 1000)) mod 2 ^ 64).

(** Values that are not iterable: [None], numbers, and the date and time
    objects. *)
Definition is_scalar (v : pyval) : bool :=
  match v with
  | PyNone | PyBool _ | PyInt _ | PyFloat _ | PyTemporal _ _ => true
  | _ => false
  end.

(** Items the loop of [traverse_data] appends as they are: anything but a
    list, a tuple or a float. *)
Definition kept_by_loop (v : pyval) : bool :=
  match v with
  | PyList _ | PyTuple _ | PyFloat _ => false
  | _ => true
  end.

(** An array that [serialize_array] sends as an envelope and that has at
    least one dimension. *)
Definition eligible (settings : Settings) (a : ndarray) : Prop :=
  np.valid a /\ shape a <> []
  /\ use_binary_arrays settings = true
  /\ dtype a ∈ array_types
  /\ binary_array_cutoff settings <= np.product (shape a).

(** The array the decoder builds from the envelope of [a]: the same
    dtype, shape and bytes, in a contiguous buffer of its own. *)
Definition as_decoded (a : ndarray) : ndarray :=
  {| dtype := dtype a; shape := shape a; data := data a; c_contiguous := true |}.

Definition element_as_decoded (el : pyval) : pyval :=
  match el with
  | PyArray (Plain a) => PyArray (Plain (as_decoded a))
  | _ => el
  end.

(** A column sent in binary: an eligible array, a series of one, or a
    list or tuple of eligible arrays. *)
Definition binary_column (settings : Settings) (v : pyval) : Prop :=
  match v with
  | PyArray (Plain a) | PySeries (Plain a) => eligible settings a
  | PyList items | PyTuple items =>
      Forall (fun el => exists a, el = PyArray (Plain a) /\ eligible settings a) items
  | _ => False
  end.

(** What comes back for a binary column. *)
Definition column_as_decoded (v : pyval) : pyval :=
  match v with
  | PyArray (Plain a) | PySeries (Plain a) => PyArray (Plain (as_decoded a))
  | PyList items | PyTuple items => PyList (map element_as_decoded items)
  | _ => v
  end.

(** A list or tuple column with no run of arrays inside and no direct item
    that looks like an envelope. *)
Definition plain_column (v : pyval) : bool :=
  match v with
  | PyList items | PyTuple items =>
      no_array_run v && forallb (fun x => negb (is_envelope x)) items
  | _ => false
  end.

(** What the list export holds for one element: a number, a sentinel
    string, a date or time object, or [None] (for not-a-time). *)
Definition is_leaf (v : pyval) : bool :=
  match v with
  | PyFloat _ | PyInt _ | PyStr _ | PyTemporal _ _ | PyNone => true
  | _ => false
  end.

(** [v] is a nest of lists with, level by level, the lengths [dims], and
    leaves below the last level. *)
Fixpoint has_shape (dims : list Z) (v : pyval) : bool :=
  match dims with
  | [] => is_leaf v
  | d :: rest =>
      match v with
      | PyList items =>
          (Z.of_nat (length items) =? d) && forallb (has_shape rest) items
      | _ => false
      end
  end.

(** No NaN and no infinite float in [v], at any depth of its list nesting
    (dicts and arrays are leaves). *)
Fixpoint no_nonfinite (v : pyval) : bool :=
  match v with
  | PyFloat (S754_nan | S754_infinity _) => false
  | PyList items | PyTuple items => forallb no_nonfinite items
  | _ => true
  end.

(** ** Sample inputs *)

Module Sample.

Definition settings : Settings :=
  {| use_binary_arrays := true; binary_array_cutoff := 1 |}.

(** [np.array(1.0)]: a float64 array of no dimension *)
Definition scalar_one : ndarray :=
  np.of_words float64 [] [0x3FF0000000000000].

(** [np.array([[1.0, nan], [inf, -inf]])] *)
Definition square : ndarray :=
  np.of_words float64 [2; 2]
    [0x3FF0000000000000; 0x7FF8000000000000;
     0x7FF0000000000000; 0xFFF0000000000000].

(** Three [uint8] elements under a recorded shape of four. *)
Definition short_envelope : gmap string pyval :=
  {[ "__ndarray__" := PyStr "AAEC";
     "shape" := PyList [PyInt 4];
     "dtype" := PyStr "uint8" ]}.

(** Five bytes offered as [float32]. *)
Definition ragged_envelope : gmap string pyval :=
  {[ "__ndarray__" := PyStr "AAECAwQ=";
     "shape" := PyList [PyInt 1];
     "dtype" := PyStr "float32" ]}.

(** Six [uint8] elements under a recorded shape of 2 x 2. *)
Definition misshaped_envelope : gmap string pyval :=
  {[ "__ndarray__" := PyStr "AAECAwQF";
     "shape" := PyList [PyInt 2; PyInt 2];
     "dtype" := PyStr "uint8" ]}.

(** [np.array(['1970-01-01T00:00:00.001'], dtype='datetime64[ms]')] and
    the same instant in microseconds and nanoseconds *)
Definition one_ms (u : time_unit) (count : Z) : ndarray :=
  np.of_words (datetime64 u) [1] [count].

Definition py_float (z : Z) : pyval := PyFloat (IEEE.float64_of_Z z).

(** [[[1.0, nan], [2.0, inf]]] *)
Definition nested : list pyval :=
  [PyList [py_float 1; PyFloat S754_nan];
   PyList [py_float 2; PyFloat (S754_infinity false)]].

(** [[(1.0, -inf), [7, (nan,)], "x"]] *)
Definition mixed : list pyval :=
  [PyTuple [py_float 1; PyFloat (S754_infinity true)];
   PyList [PyInt 7; PyTuple [PyFloat S754_nan]];
   PyStr "x"].

Definition mixed_traversed : list pyval :=
  [PyList [py_float 1; PyStr "-Infinity"];
   PyList [PyInt 7; PyList [PyStr "NaN"]];
   PyStr "x"].

(** The envelope of the uint8 array [[0, 1, 2]] *)
Definition small_envelope : pyval :=
  PyDict {[ "__ndarray__" := PyStr "AAEC";
            "shape" := PyList [PyInt 3];
            "dtype" := PyStr "uint8" ]}.

Definition small_array : pyval :=
  PyArray (Plain {| dtype := uint8; shape := [3];
                    data := [Byte.x00; Byte.x01; Byte.x02];
                    c_contiguous := true |}).

(** Envelopes at the top, one list deep, and two lists deep. *)
Definition wire_columns : gmap string pyval :=
  {[ "a" := small_envelope;
     "b" := PyList [small_envelope; PyInt 5];
     "c" := PyList [PyList [small_envelope]];
     "d" := PyTuple [small_envelope] ]}.

(** A store holding the column set
    [{"a": square, "b": [1, nan, (2.0,)], "c": "xy"}]. *)
Definition store : Store.heap :=
  {[ 1%positive := Store.ODict {[ "a" := Store.VRef 2%positive; "b" := Store.VRef 3%positive;
                                  "c" := Store.VPure (PyStr "xy") ]};
     2%positive := Store.OArray (Plain square);
     3%positive := Store.OList [Store.VPure (PyInt 1);
                                Store.VPure (PyFloat S754_nan);
                                Store.VRef 4%positive];
     4%positive := Store.OTuple [Store.VPure (py_float 2)] ]}.


End Sample.

(** ** Further sample inputs *)

Module Cases.

(** [np.ma.array([[1.0, nan], [inf, -inf]], mask=[[0, 0], [1, 0]])] *)
Definition masked_square : array :=
  Masked Sample.square (Some [false; false; true; false]).

(** [{"n": 3, "t": "ab"}] and [{"t": "ab", "d": {"p": None}}] *)
Definition scalar_columns : gmap string pyval :=
  {[ "n" := PyInt 3; "t" := PyStr "ab" ]}.

Definition text_columns : gmap string pyval :=
  {[ "t" := PyStr "ab"; "d" := PyDict {[ "p" := PyNone ]} ]}.

(** The uint8 array [[0, 1, 2]], as a view that is not contiguous. *)
Definition bytes3 : ndarray :=
  {| dtype := uint8; shape := [3];
     data := [Byte.x00; Byte.x01; Byte.x02]; c_contiguous := false |}.

(** [np.ma.array([0, 1, 2], mask=[False, True, False], dtype=np.uint8)]
    and the same data under a mask with no entry set. *)
Definition masked_bytes : array :=
  Masked bytes3 (Some [false; true; false]).

Definition veiled_bytes : array :=
  Masked bytes3 (Some [false; false; false]).

(** [{"a": bytes3, "b": [square, bytes3]}] *)
Definition binary_columns : gmap string pyval :=
  {[ "a" := PyArray (Plain bytes3);
     "b" := PyList [PyArray (Plain Sample.square); PyArray (Plain bytes3)] ]}.

(** [{"x": [1.0, nan, (inf, "NaN")], "y": ()}] *)
Definition plain_columns : gmap string pyval :=
  {[ "x" := PyList [Sample.py_float 1; PyFloat S754_nan;
                    PyTuple [PyFloat (S754_infinity false); PyStr "NaN"]];
     "y" := PyTuple [] ]}.

(** [[square, 7, nan]]: an array beside items that are not arrays. *)
Definition array_and_scalars : list pyval :=
  [PyArray (Plain Sample.square); PyInt 7; PyFloat S754_nan].

(** Six [uint8] elements under the recorded shape [(-1, 3)]. *)
Definition inferred_envelope : gmap string pyval :=
  {[ "__ndarray__" := PyStr "AAECAwQF";
     "shape" := PyList [PyInt (-1); PyInt 3];
     "dtype" := PyStr "uint8" ]}.

(** An envelope without its dtype. *)
Definition keyless_envelope : gmap string pyval :=
  {[ "__ndarray__" := PyStr "AAECAwQF"; "shape" := PyList [PyInt 6] ]}.

(** [{"s": "ab", "l": [1, (2.0,)], "a": square}] *)
Definition iterable_columns : gmap string pyval :=
  {[ "s" := PyStr "ab";
     "l" := PyList [PyInt 1; PyTuple [Sample.py_float 2]];
     "a" := PyArray (Plain Sample.square) ]}.

(** [l = [l, 1.0]]: a list that holds itself. *)
Definition knot : Store.heap :=
  {[ 5%positive := Store.OList [Store.VRef 5%positive;
                                Store.VPure (Sample.py_float 1)] ]}.

End Cases.

(* ===================================================================== *)
(** * Properties *)
(* ===================================================================== *)

(** ** Bytes *)

Lemma byte_of_to_N (b : byte) : byte_of_N (Byte.to_N b) = b.
Proof. unfold byte_of_N. now rewrite Byte.of_to_N. Qed.

Lemma byte_of_N_eq (n : N) (b : byte) : n = Byte.to_N b -> byte_of_N n = b.
Proof. intros ->. apply byte_of_to_N. Qed.

Lemma byte_to_N_lt (b : byte) : (Byte.to_N b < 256)%N.
Proof. pose proof (Byte.to_N_bounded b). lia. Qed.

Lemma byte_to_of_N (n : N) : (n < 256)%N -> Byte.to_N (byte_of_N n) = n.
Proof.
  intros H. unfold byte_of_N.
  destruct (Byte.of_N n) as [b|] eqn:E.
  - now apply Byte.to_of_N.
  - apply Byte.of_N_None_iff in E. lia.
Qed.

(** ** base64 round trip *)

Example b64encode_one_point_zero :
  Base64.b64encode
    [Byte.x00; Byte.x00; Byte.x00; Byte.x00; Byte.x00; Byte.x00; Byte.xf0; Byte.x3f]
  = "AAAAAAAA8D8="%string.
Proof. reflexivity. Qed.

(** The decoder passes over a '=' that closes no group, and refuses input
    that ends inside a group. *)
Example b64decode_stray_pad :
  Base64.b64decode "AAEC=" = Some [Byte.x00; Byte.x01; Byte.x02]
  /\ Base64.b64decode "AA=AA" = Some [Byte.x00; Byte.x00; Byte.x00]
  /\ Base64.b64decode "AA==AAAA" = Some [Byte.x00]
  /\ Base64.b64decode "AA=" = None
  /\ Base64.b64decode "AAAAA" = None.
Proof. repeat split; reflexivity. Qed.

Example b64decode_one_point_zero :
  Base64.b64decode "AAAAAAAA8D8="
  = Some [Byte.x00; Byte.x00; Byte.x00; Byte.x00; Byte.x00; Byte.x00; Byte.xf0; Byte.x3f].
Proof. reflexivity. Qed.

Module Base64Facts.
Import Base64.

Lemma sextet_char_inverse (n : N) :
  (n < 64)%N -> sextet_of_char (char_of_sextet n) = Some n.
Proof.
  intros H.
  assert (Hall : forallb (fun k =>
             match sextet_of_char (char_of_sextet (N.of_nat k)) with
             | Some m => (m =? N.of_nat k)%N
             | None => false
             end) (seq 0 64) = true) by (vm_compute; reflexivity).
  rewrite forallb_forall in Hall.
  specialize (Hall (N.to_nat n)).
  rewrite N2Nat.id in Hall.
  destruct (sextet_of_char (char_of_sextet n)) as [m|].
  - f_equal. apply N.eqb_eq, Hall, in_seq. lia.
  - discriminate Hall. apply in_seq. lia.
Qed.

Lemma char_of_sextet_not_pad (n : N) :
  (n < 64)%N -> is_pad (char_of_sextet n) = false.
Proof.
  intros H.
  assert (Hall : forallb (fun k => negb (is_pad (char_of_sextet (N.of_nat k))))
           (seq 0 64) = true) by (vm_compute; reflexivity).
  rewrite forallb_forall in Hall.
  specialize (Hall (N.to_nat n)).
  rewrite N2Nat.id in Hall.
  apply negb_true_iff, Hall, in_seq. lia.
Qed.

Lemma pad_not_sextet : sextet_of_char pad = None.
Proof. reflexivity. Qed.

(** Every character of the alphabet, and the pad, is ASCII. *)
Lemma char_of_sextet_ascii (n : N) : (N_of_ascii (char_of_sextet n) <? 128)%N = true.
Proof.
  unfold char_of_sextet.
  assert (Hall : forallb (fun c => (N_of_ascii c <? 128)%N) (pad :: alphabet) = true)
    by (vm_compute; reflexivity).
  rewrite forallb_forall in Hall. apply Hall.
  destruct (nth_in_or_default (N.to_nat n) alphabet pad) as [Hin| ->].
  - now right.
  - now left.
Qed.

Ltac Zify.zify_post_hook ::= Z.to_euclidean_division_equations.

Lemma encode_chars_ascii (bs : list byte) :
  forallb (fun c => (N_of_ascii c <? 128)%N) (encode_chars bs) = true.
Proof.
  induction bs as [bs IH] using (induction_ltof1 _ (@length _)).
  unfold ltof in IH.
  destruct bs as [|a [|b [|c rest]]]; cbn [encode_chars forallb];
    rewrite ?char_of_sextet_ascii; try reflexivity.
  apply IH. simpl. lia.
Qed.

(** One character of the alphabet moves the decoder on. *)
Lemma a2b_base64_sextet (n : N) (rest : list ascii) (quad_pos : nat) (leftchar : N)
    (pads : nat) :
  (n < 64)%N ->
  a2b_base64 (char_of_sextet n :: rest) quad_pos leftchar pads
  = match quad_pos with
    | 0%nat => a2b_base64 rest 1 n 0
    | 1%nat => cons (byte_of_N (leftchar * 4 + n / 16)) <$> a2b_base64 rest 2 (n mod 16) 0
    | 2%nat => cons (byte_of_N (leftchar * 16 + n / 4)) <$> a2b_base64 rest 3 (n mod 4) 0
    | _ => cons (byte_of_N (leftchar * 64 + n)) <$> a2b_base64 rest 0 0 0
    end%N.
Proof.
  intros H. cbn [a2b_base64].
  now rewrite (char_of_sextet_not_pad n H), (sextet_char_inverse n H).
Qed.

Lemma a2b_base64_pad (rest : list ascii) (quad_pos : nat) (leftchar : N) (pads : nat) :
  a2b_base64 (pad :: rest) quad_pos leftchar pads
  = if (2 <=? quad_pos)%nat then
      if (4 <=? quad_pos + (pads + 1))%nat then Some []
      else a2b_base64 rest quad_pos leftchar (pads + 1)
    else a2b_base64 rest quad_pos leftchar pads.
Proof. reflexivity. Qed.

Lemma a2b_base64_encode_chars (bs : list byte) :
  a2b_base64 (encode_chars bs) 0 0 0 = Some bs.
Proof.
  induction bs as [bs IH] using (induction_ltof1 _ (@length _)).
  unfold ltof in IH.
  destruct bs as [|a [|b [|c rest]]]; [reflexivity|..]; cbn [encode_chars].
  - pose proof (byte_to_N_lt a) as Ha.
    rewrite !a2b_base64_sextet by lia. rewrite !a2b_base64_pad.
    cbn [Nat.leb Nat.add fmap option_fmap option_map].
    do 2 f_equal. apply byte_of_N_eq. lia.
  - pose proof (byte_to_N_lt a) as Ha. pose proof (byte_to_N_lt b) as Hb.
    rewrite !a2b_base64_sextet by lia. rewrite !a2b_base64_pad.
    cbn [Nat.leb Nat.add fmap option_fmap option_map].
    f_equal. f_equal; [|f_equal]; apply byte_of_N_eq; lia.
  - pose proof (byte_to_N_lt a) as Ha. pose proof (byte_to_N_lt b) as Hb.
    pose proof (byte_to_N_lt c) as Hc.
    rewrite !a2b_base64_sextet by lia.
    rewrite IH by (simpl; lia).
    cbn [fmap option_fmap option_map].
    f_equal. f_equal; [|f_equal; [|f_equal]]; apply byte_of_N_eq; lia.
Qed.

(** Decoding an encoded buffer gives the buffer back, byte for byte. *)
Lemma b64decode_b64encode (bs : list byte) :
  b64decode (b64encode bs) = Some bs.
Proof.
  unfold b64decode, b64encode, is_ascii.
  rewrite list_ascii_of_string_of_list_ascii, encode_chars_ascii.
  apply a2b_base64_encode_chars.
Qed.

End Base64Facts.

(** ** Lists *)

Lemma zip_with_map_same {A B C} (f : B -> C -> A) (g : Z -> B) (h : Z -> C) (l : list Z) :
  zip_with f (map g l) (map h l) = map (fun x => f (g x) (h x)) l.
Proof. induction l as [|x l IH]; simpl; [reflexivity | now rewrite IH]. Qed.

Lemma existsb_map_false {A} (p : A -> bool) (l : list A) :
  existsb id (map p l) = false -> Forall (fun x => p x = false) l.
Proof.
  induction l as [|x l IH]; simpl; intros H; constructor.
  - now destruct (p x).
  - apply IH. destruct (p x); [discriminate | exact H].
Qed.

Lemma map_ext_Forall' {A B} (f g : A -> B) (l : list A) :
  Forall (fun x => f x = g x) l -> map f l = map g l.
Proof. induction 1; simpl; congruence. Qed.

(** ** The list path *)

Lemma isnan_not_finite e m x : IEEE.isfinite e m x = true -> IEEE.isnan e m x = false.
Proof. unfold IEEE.isfinite, IEEE.isnan. now destruct (_ =? Z.ones e). Qed.

Lemma isinf_not_finite e m x : IEEE.isfinite e m x = true -> IEEE.isinf e m x = false.
Proof. unfold IEEE.isfinite, IEEE.isinf. now destruct (_ =? Z.ones e). Qed.

Lemma sanitized_item_finite dt e m x :
  np.float_format dt = Some (e, m) -> IEEE.isfinite e m x = true ->
  sanitized_item dt x = np.item dt x.
Proof.
  intros Hf Hfin. unfold sanitized_item. rewrite Hf.
  rewrite (isnan_not_finite _ _ _ Hfin).
  unfold IEEE.isposinf, IEEE.isneginf.
  now rewrite (isinf_not_finite _ _ _ Hfin).
Qed.

Lemma sanitized_item_overwrite dt e m x :
  np.float_format dt = Some (e, m) ->
  (if IEEE.isneginf e m x then PyStr "-Infinity"
   else if IEEE.isposinf e m x then PyStr "Infinity"
   else if IEEE.isnan e m x then PyStr "NaN"
   else np.item dt x) = sanitized_item dt x.
Proof.
  intros Hf. unfold sanitized_item. rewrite Hf.
  unfold IEEE.isneginf, IEEE.isposinf, IEEE.isnan, IEEE.isinf.
  destruct (_ =? Z.ones e), (IEEE.frac e m x =? 0), (IEEE.sign e m x); reflexivity.
Qed.

Lemma float_kind dt :
  np.float_format dt = None \/ exists e m, np.float_format dt = Some (e, m).
Proof. destruct dt; simpl; eauto. Qed.

(** The export of [transform_array_to_list], position by position. *)
Lemma transform_array_to_list_items (a : ndarray) :
  transform_array_to_list a
  = np.nest (shape a) (map (sanitized_item (dtype a)) (np.raw a)).
Proof.
  unfold transform_array_to_list.
  destruct (float_kind (dtype a)) as [Hnone | (e & m & Hf)].
  - (* integers and temporal kinds: nothing to replace *)
    assert (Hfin : np.any (map negb (np.isfinite a)) = false).
    { unfold np.isfinite, np.any. rewrite Hnone.
      induction (np.raw a); simpl; auto. }
    rewrite Hfin, andb_false_r. unfold np.tolist. f_equal.
    apply map_ext. intros x. unfold sanitized_item. now rewrite Hnone.
  - assert (Hk : bool_decide (np.kind (dtype a) ∈ ["u"; "i"; "f"]%char) = true).
    { destruct (dtype a); try discriminate Hf; vm_compute; reflexivity. }
    rewrite Hk. cbn [andb].
    destruct (np.any (map negb (np.isfinite a))) eqn:Hany.
    + unfold np.obj_tolist, np.setmask, np.astype_object; cbn [oshape oitems].
      f_equal. unfold np.isnan, np.isposinf, np.isneginf, np.test_raw. rewrite Hf.
      rewrite !zip_with_map_same. apply map_ext. intros x.
      apply sanitized_item_overwrite. exact Hf.
    + unfold np.tolist. f_equal. symmetry. apply map_ext_Forall'.
      unfold np.isfinite, np.any in Hany. rewrite Hf, map_map in Hany.
      apply existsb_map_false in Hany.
      eapply Forall_impl; [exact Hany|]. cbn beta. intros x Hx.
      apply (sanitized_item_finite _ e m); [exact Hf|].
      now apply negb_false_iff.
Qed.

(** ** The envelope and its decoding *)

Lemma dtype_of_name_name (dt : np_dtype) : np.dtype_of_name (np.name dt) = Some dt.
Proof. destruct dt as [| | | | | | | | | | |u|u]; try destruct u; reflexivity. Qed.

Lemma bind_Ok {A B} (x : A) (f : A -> result B) : (Ok x ≫= f) = f x.
Proof. reflexivity. Qed.

Lemma bind_Raise {A B} (e : exn) (f : A -> result B) : (Raise e ≫= f) = Raise e.
Proof. reflexivity. Qed.

Lemma fmap_Ok {A B} (x : A) (f : A -> B) : f <$> Ok x = Ok (f x).
Proof. reflexivity. Qed.

Lemma mapM_Ok_map {A B} (f : A -> result B) (g : A -> B) (l : list A) :
  (forall x, f x = Ok (g x)) -> mapM f l = Ok (map g l).
Proof.
  intros H. induction l as [|x l IH]; simpl; [reflexivity|].
  now rewrite H, IH.
Qed.

Lemma as_dims_shape_tuple (dims : list Z) : as_dims (PyTuple (map PyInt dims)) = Ok dims.
Proof.
  unfold as_dims.
  induction dims as [|d dims IH]; simpl; [reflexivity|]. now rewrite IH.
Qed.

Lemma filter_nonneg (dims : list Z) :
  Forall (fun d => 0 <= d) dims ->
  List.filter (fun d => 0 <=? d) dims = dims /\ List.filter (fun d => d <? 0) dims = [].
Proof.
  induction 1 as [|d dims Hd _ [IH1 IH2]]; simpl; [auto|].
  destruct (Z.leb_spec 0 d); [|lia]. destruct (Z.ltb_spec d 0); [lia|].
  now rewrite IH1, IH2.
Qed.

Lemma reshape_same_count (a : ndarray) (dims : list Z) :
  Forall (fun d => 0 <= d) dims -> Zprod dims = np.size a ->
  np.reshape a dims
  = Ok {| dtype := dtype a; shape := dims; data := data a; c_contiguous := true |}.
Proof.
  intros Hpos Hprod. unfold np.reshape.
  destruct (filter_nonneg dims Hpos) as [-> ->]. cbn [length].
  now rewrite Hprod, Z.eqb_refl.
Qed.

Lemma reshape_wrong_count (a : ndarray) (dims : list Z) :
  Forall (fun d => 0 <= d) dims -> Zprod dims <> np.size a ->
  np.reshape a dims = Raise ValueError.
Proof.
  intros Hpos Hprod. unfold np.reshape.
  destruct (filter_nonneg dims Hpos) as [-> ->]. cbn [length].
  destruct (Z.eqb_spec (Zprod dims) (np.size a)); [contradiction | reflexivity].
Qed.

Lemma itemsize_pos (dt : np_dtype) : 0 < np.itemsize dt.
Proof. destruct dt; simpl; lia. Qed.

Lemma fromstring_valid_buffer (a : ndarray) :
  np.valid a ->
  np.fromstring (data a) (dtype a)
  = Ok {| dtype := dtype a; shape := [np.size a]; data := data a; c_contiguous := true |}.
Proof.
  intros [_ Hlen]. unfold np.fromstring, np.size. rewrite Hlen.
  pose proof (itemsize_pos (dtype a)) as Hk.
  rewrite (Z.mul_comm (np.itemsize _)), Z.mod_mul, Z.div_mul by lia.
  reflexivity.
Qed.

Lemma envelope_lookup_ndarray (x y z : pyval) :
  ({[ "__ndarray__" := x; "shape" := y; "dtype" := z ]} : gmap string pyval)
    !! "__ndarray__" = Some x.
Proof. apply lookup_insert_eq. Qed.

Lemma envelope_lookup_shape (x y z : pyval) :
  ({[ "__ndarray__" := x; "shape" := y; "dtype" := z ]} : gmap string pyval)
    !! "shape" = Some y.
Proof. rewrite lookup_insert_ne by discriminate. apply lookup_insert_eq. Qed.

Lemma envelope_lookup_dtype (x y z : pyval) :
  ({[ "__ndarray__" := x; "shape" := y; "dtype" := z ]} : gmap string pyval)
    !! "dtype" = Some z.
Proof.
  rewrite !lookup_insert_ne by discriminate. apply lookup_singleton_eq.
Qed.

(** Decoding what [encode_base64_dict] wrote, for an array of at least one
    dimension. *)
Lemma decode_encode_base64_dict (a : ndarray) (d : gmap string pyval) :
  np.valid a -> shape a <> [] ->
  encode_base64_dict a = PyDict d ->
  decode_base64_dict d
  = Ok {| dtype := dtype a; shape := shape a; data := data a; c_contiguous := true |}.
Proof.
  intros Hv Hsh Henc. unfold encode_base64_dict in Henc.
  injection Henc as <-.
  unfold decode_base64_dict, getitem.
  rewrite envelope_lookup_ndarray, envelope_lookup_shape, envelope_lookup_dtype.
  rewrite bind_Ok, Base64Facts.b64decode_b64encode, bind_Ok, bind_Ok.
  rewrite dtype_of_name_name, (fromstring_valid_buffer a Hv), !bind_Ok.
  cbn [py_len]. rewrite bind_Ok, length_map.
  destruct (shape a) as [|d0 [|d1 rest]] eqn:Es; [contradiction| |].
  - (* one dimension: the buffer stays linear *)
    cbn [length]. replace (1 <? Z.of_nat 1) with false by reflexivity.
    unfold np.size. rewrite Es. cbn [Zprod fold_right].
    now rewrite Z.mul_1_r.
  - replace (1 <? Z.of_nat (length (d0 :: d1 :: rest))) with true
      by (symmetry; apply Z.ltb_lt; cbn [length]; lia).
    rewrite as_dims_shape_tuple, bind_Ok.
    destruct Hv as [Hpos _]. rewrite Es in Hpos.
    rewrite reshape_same_count; [reflexivity | exact Hpos |].
    unfold np.size. cbn [shape]. rewrite Es. cbn [Zprod fold_right]. lia.
Qed.

(** ** Choice of the encoding path *)

(** [np.product(shape)] is the element count, short of 2^63 elements. *)
Lemma product_count (dims : list Z) :
  Forall (fun d => 0 <= d) dims -> Zprod dims < 2 ^ 63 -> np.product dims = Zprod dims.
Proof.
  induction 1 as [|d dims Hd Hpos IH]; intros Hlt; [reflexivity|].
  cbn [np.product Zprod fold_right] in *. fold (np.product dims). fold (Zprod dims) in *.
  assert (Hprod : 0 <= Zprod dims).
  { clear -Hpos. induction Hpos; cbn [Zprod fold_right]; [lia|].
    fold (Zprod l). nia. }
  destruct (Z.eq_dec d 0) as [->|Hne].
  - now rewrite !Z.mul_0_l.
  - rewrite IH by nia.
    unfold wrap_int64, to_signed. change (64 - 1) with 63.
    rewrite Z.mod_small by nia.
    destruct (Z.ltb_spec (d * Zprod dims) (2 ^ 63)); [reflexivity | lia].
Qed.

Lemma nest_cons_is_list d dims xs : exists l, np.nest (d :: dims) xs = PyList l.
Proof. simpl. eauto. Qed.

Lemma sanitized_item_scalar dt x :
  match sanitized_item dt x with
  | PyList _ | PyTuple _ | PyDict _ => False
  | _ => True
  end.
Proof.
  unfold sanitized_item, np.item.
  destruct (np.float_format dt) as [[e m]|] eqn:Hf.
  - destruct (IEEE.isnan e m x), (IEEE.isposinf e m x), (IEEE.isneginf e m x); exact I.
  - destruct dt; cbv zeta;
      repeat match goal with |- context [if ?b then _ else _] => destruct b end;
      exact I.
Qed.

Lemma hd_sanitized_scalar dt xs :
  match hd PyNone (map (sanitized_item dt) xs) with
  | PyList _ | PyTuple _ | PyDict _ => False
  | _ => True
  end.
Proof. destruct xs as [|x xs]; simpl; [exact I | apply sanitized_item_scalar]. Qed.

Lemma transform_array_to_list_not_envelope (a : ndarray) :
  is_envelope (transform_array_to_list a) = false.
Proof.
  rewrite transform_array_to_list_items.
  destruct (shape a) as [|d dims]; simpl; [|reflexivity].
  pose proof (hd_sanitized_scalar (dtype a) (np.raw a)) as H.
  destruct (hd PyNone _); try reflexivity; contradiction.
Qed.

Lemma transform_array_to_list_is_list (a : ndarray) :
  returns_list (Ok (transform_array_to_list a))
  = match shape a with [] => false | _ :: _ => true end.
Proof.
  rewrite transform_array_to_list_items.
  destruct (shape a) as [|d dims]; simpl; [|reflexivity].
  pose proof (hd_sanitized_scalar (dtype a) (np.raw a)) as H.
  destruct (hd PyNone _); try reflexivity; contradiction.
Qed.

Lemma encode_base64_dict_is_envelope (a : ndarray) :
  is_envelope (encode_base64_dict a) = true.
Proof.
  unfold encode_base64_dict, is_envelope.
  rewrite envelope_lookup_ndarray. apply bool_decide_eq_true_2. eauto.
Qed.

Lemma encoding_disabled_list_path (settings : Settings) (a : ndarray) (force_list : bool) :
  encoding_disabled settings a || force_list = list_path settings a force_list.
Proof.
  unfold encoding_disabled, list_path.
  destruct (use_binary_arrays settings), force_list,
    (bool_decide (dtype a ∈ array_types)),
    (np.product (shape a) <? binary_array_cutoff settings); reflexivity.
Qed.

Lemma serialize_array_plain (settings : Settings) (a : ndarray) (force_list : bool) :
  serialize_array settings (Plain a) force_list
  = Ok (if list_path settings a force_list
        then transform_array_to_list a
        else encode_base64_dict
               (if c_contiguous a then a else np.ascontiguousarray a)).
Proof.
  unfold serialize_array. rewrite bind_Ok, encoding_disabled_list_path.
  destruct (list_path settings a force_list); [reflexivity|].
  now destruct (c_contiguous a).
Qed.

Lemma whitelisted_not_temporal (dt : np_dtype) :
  dt ∈ array_types ->
  Ascii.eqb (np.kind dt) "M" = false /\ Ascii.eqb (np.kind dt) "m" = false.
Proof.
  intros H. destruct dt; try (split; reflexivity);
    exfalso; apply list_elem_of_In in H; simpl in H; intuition discriminate.
Qed.

Lemma transform_array_not_temporal (settings : Settings) (x : array) (force_list : bool) :
  Ascii.eqb (np.kind (dtype (np.base x))) "M" = false ->
  Ascii.eqb (np.kind (dtype (np.base x))) "m" = false ->
  transform_array settings x force_list = serialize_array settings x force_list.
Proof.
  intros HM Hm. unfold transform_array. now rewrite HM, Hm.
Qed.

(** The path taken for a plain array: the list path exactly under the
    four conditions of [list_path] (binary arrays switched off,
    [force_list], dtype outside the whitelist, or fewer elements than the
    cutoff) and otherwise the envelope; the list-path result is never an
    envelope, and it is a list exactly when the array has at least one
    dimension. *)
Lemma serialize_array_path (settings : Settings) (a : ndarray) (force_list : bool) :
  serialize_array settings (Plain a) force_list
  = Ok (if list_path settings a force_list
        then transform_array_to_list a
        else encode_base64_dict
               (if c_contiguous a then a else np.ascontiguousarray a))
  /\ returns_envelope (serialize_array settings (Plain a) force_list)
     = negb (list_path settings a force_list)
  /\ returns_list (serialize_array settings (Plain a) force_list)
     = list_path settings a force_list
       && match shape a with [] => false | _ :: _ => true end.
Proof.
  rewrite serialize_array_plain.
  destruct (list_path settings a force_list); cbn [negb andb returns_envelope].
  - split; [reflexivity|]. split.
    + apply transform_array_to_list_not_envelope.
    + apply transform_array_to_list_is_list.
  - split; [reflexivity|]. split.
    + apply encode_base64_dict_is_envelope.
    + reflexivity.
Qed.

(** C2.  The code at the inputs where it leaves what the claim and its
    own docstring ("either a list or a dictionary") promise.  For the
    float64 array of no dimension [np.array(1.0)] with [force_list] the list
    path is taken, and the result is the bare float [1.0]: neither a list
    nor an envelope.  For the masked uint8 array [[0, --, 2]] none of the
    four conditions holds, and the call raises instead of returning an
    envelope. *)
Theorem serialize_array_outside_docstring :
  (list_path Sample.settings Sample.scalar_one true = true
   /\ serialize_array Sample.settings (Plain Sample.scalar_one) true
      = Ok (PyFloat (S754_finite false 4503599627370496 (-52)))
   /\ returns_list (serialize_array Sample.settings (Plain Sample.scalar_one) true)
      = false
   /\ returns_envelope (serialize_array Sample.settings (Plain Sample.scalar_one) true)
      = false)
  /\ (list_path Sample.settings (np.base Cases.masked_bytes) false = false
      /\ exists e, serialize_array Sample.settings Cases.masked_bytes false = Raise e).
Proof.
  split.
  - vm_compute. auto.
  - split; [vm_compute; reflexivity|]. eexists. vm_compute. reflexivity.
Qed.

(** C3.  On the list path every position of the export holds the element's
    own value, except that a NaN position holds the string "NaN", a +Inf
    position "Infinity" and a -Inf position "-Infinity" ([sanitized_item]);
    the nesting follows the shape.  When no element is non-finite the export
    is the plain [tolist()] of the array. *)
Theorem transform_array_to_list_sanitizes (a : ndarray) :
  transform_array_to_list a
  = np.nest (shape a) (map (sanitized_item (dtype a)) (np.raw a))
  /\ (if np.any (map negb (np.isfinite a))
      then True
      else transform_array_to_list a = np.tolist a).
Proof.
  split; [apply transform_array_to_list_items|].
  destruct (np.any (map negb (np.isfinite a))) eqn:Hany; [exact I|].
  unfold transform_array_to_list. now rewrite Hany, andb_false_r.
Qed.

Example transform_array_to_list_square :
  transform_array_to_list Sample.square
  = PyList [PyList [PyFloat (S754_finite false 4503599627370496 (-52)); PyStr "NaN"];
            PyList [PyStr "Infinity"; PyStr "-Infinity"]].
Proof. vm_compute. reflexivity. Qed.

(** ** Round trip through the envelope *)

Lemma list_path_binary (settings : Settings) (a : ndarray) :
  use_binary_arrays settings = true ->
  dtype a ∈ array_types ->
  binary_array_cutoff settings <= np.product (shape a) ->
  list_path settings a false = false.
Proof.
  intros Hb Hdt Hcut. unfold list_path. rewrite Hb.
  rewrite bool_decide_eq_true_2 by exact Hdt.
  cbn [negb orb]. apply Z.ltb_ge. exact Hcut.
Qed.

Lemma serialize_array_unmasked (settings : Settings) (x : array) (force_list : bool) :
  unmasked x = true ->
  serialize_array settings x force_list
  = serialize_array settings (Plain (np.base x)) force_list.
Proof.
  destruct x as [a|a [m|]]; cbn [unmasked np.base]; intros Hx; try reflexivity.
  apply andb_true_iff in Hx as [Hf Hm]. apply negb_true_iff in Hm.
  apply bool_decide_eq_true_1 in Hf as [[e mb] Hf].
  unfold serialize_array, np.filled_nan. now rewrite Hf, Hm.
Qed.

(** C1, as amended.  For an array of at least one dimension in which no
    element is masked, whose dtype is whitelisted and whose element count
    reaches the cutoff, with binary arrays enabled and [force_list] false,
    the transform returns an envelope, and decoding that envelope gives an
    array of the same dtype, the same shape and the same bytes (so every
    bit pattern, NaN and the infinities included, is kept). *)
Theorem binary_round_trip (settings : Settings) (x : array) :
  unmasked x = true ->
  np.valid (np.base x) ->
  shape (np.base x) <> [] ->
  use_binary_arrays settings = true ->
  dtype (np.base x) ∈ array_types ->
  binary_array_cutoff settings <= np.product (shape (np.base x)) ->
  exists (d : gmap string pyval) (b : ndarray),
    transform_array settings x false = Ok (PyDict d)
    /\ serialize_array settings x false = Ok (PyDict d)
    /\ decode_base64_dict d = Ok b
    /\ dtype b = dtype (np.base x) /\ shape b = shape (np.base x)
    /\ data b = data (np.base x).
Proof.
  intros Hx Hv Hsh Hb Hdt Hcut.
  destruct (whitelisted_not_temporal _ Hdt) as [HM Hm].
  rewrite (transform_array_not_temporal settings x false HM Hm).
  rewrite (serialize_array_unmasked settings x false Hx).
  set (a := np.base x) in *. clearbody a.
  rewrite serialize_array_plain, (list_path_binary settings a Hb Hdt Hcut).
  set (a' := if c_contiguous a then a else np.ascontiguousarray a).
  assert (Ha' : dtype a' = dtype a /\ shape a' = shape a /\ data a' = data a)
    by (subst a'; destruct (c_contiguous a); auto).
  destruct Ha' as (Edt & Esh & Edata).
  assert (Hv' : np.valid a') by (unfold np.valid; now rewrite Edt, Esh, Edata).
  unfold encode_base64_dict at 1 2.
  eexists _, _. split; [reflexivity|]. split; [reflexivity|]. split.
  - apply (decode_encode_base64_dict a'); [exact Hv' | congruence | reflexivity].
  - cbn [dtype shape data]. auto.
Qed.

Lemma binary_round_trip_witness :
  exists (d : gmap string pyval) (b : ndarray),
    transform_array Sample.settings
      (Masked Sample.square (Some [false; false; false; false])) false = Ok (PyDict d)
    /\ serialize_array Sample.settings
         (Masked Sample.square (Some [false; false; false; false])) false = Ok (PyDict d)
    /\ decode_base64_dict d = Ok b
    /\ dtype b = dtype Sample.square /\ shape b = shape Sample.square
    /\ data b = data Sample.square.
Proof.
  apply (binary_round_trip Sample.settings
           (Masked Sample.square (Some [false; false; false; false]))).
  - reflexivity.
  - split; [repeat constructor; lia | reflexivity].
  - discriminate.
  - reflexivity.
  - apply list_elem_of_In. simpl. auto.
  - vm_compute. discriminate.
Defined.

(** The same for the plain array. *)
Example binary_round_trip_square :
  exists (d : gmap string pyval),
    transform_array Sample.settings (Plain Sample.square) false = Ok (PyDict d)
    /\ decode_base64_dict d = Ok Sample.square.
Proof. eexists. split; vm_compute; reflexivity. Qed.

(** C1, as stated, fails in three places.  An array of no dimension is
    eligible and is encoded with the empty shape, and decoding gives a
    one-element array of one dimension.  A masked array comes back with NaN
    in place of each masked element: for [[1.0, nan], [--, -inf]] the
    decoded bytes differ from the array's own.  And a masked array of a
    whitelisted integer dtype that carries a mask, even one with no entry
    set, is not encoded at all: the transform raises. *)
Lemma round_trip_not_exact :
  (np.valid Sample.scalar_one
   /\ use_binary_arrays Sample.settings = true
   /\ dtype Sample.scalar_one ∈ array_types
   /\ binary_array_cutoff Sample.settings <= np.product (shape Sample.scalar_one)
   /\ exists (d : gmap string pyval) (b : ndarray),
        transform_array Sample.settings (Plain Sample.scalar_one) false = Ok (PyDict d)
        /\ decode_base64_dict d = Ok b
        /\ shape b = [1] /\ shape Sample.scalar_one = [])
  /\ (np.valid Sample.square
      /\ dtype Sample.square ∈ array_types
      /\ binary_array_cutoff Sample.settings <= np.product (shape Sample.square)
      /\ exists (d : gmap string pyval) (b : ndarray),
           transform_array Sample.settings Cases.masked_square false = Ok (PyDict d)
           /\ decode_base64_dict d = Ok b
           /\ data b <> data Sample.square)
  /\ (np.valid Cases.bytes3
      /\ dtype Cases.bytes3 ∈ array_types
      /\ binary_array_cutoff Sample.settings <= np.product (shape Cases.bytes3)
      /\ exists e, transform_array Sample.settings Cases.veiled_bytes false = Raise e).
Proof.
  split; [|split].
  - split; [split; [constructor | reflexivity]|].
    split; [reflexivity|].
    split; [apply list_elem_of_In; simpl; auto|].
    split; [vm_compute; discriminate|].
    eexists _, _. split; [vm_compute; reflexivity|].
    split; [vm_compute; reflexivity|]. split; reflexivity.
  - split; [split; [repeat constructor; lia | reflexivity]|].
    split; [apply list_elem_of_In; simpl; auto|].
    split; [vm_compute; discriminate|].
    eexists _, _. split; [vm_compute; reflexivity|].
    split; [vm_compute; reflexivity|]. vm_compute. discriminate.
  - split; [split; [repeat constructor; lia | reflexivity]|].
    split; [apply list_elem_of_In; simpl; auto|].
    split; [vm_compute; discriminate|].
    eexists. vm_compute. reflexivity.
Qed.

(** ** Decoding errors *)

Section Decode.

Variables (envelope : gmap string pyval) (text name : string)
          (buf : list byte) (dt : np_dtype) (sh : pyval).
Hypothesis Hpayload : envelope !! "__ndarray__" = Some (PyStr text).
Hypothesis Hbuf : Base64.b64decode text = Some buf.
Hypothesis Hname : envelope !! "dtype" = Some (PyStr name).
Hypothesis Hdt : np.dtype_of_name name = Some dt.
Hypothesis Hshape : envelope !! "shape" = Some sh.

Lemma decode_base64_dict_unfold :
  decode_base64_dict envelope
  = (array ← np.fromstring buf dt;
     n ← py_len sh;
     if 1 <? n then dims ← as_dims sh; np.reshape array dims else Ok array).
Proof.
  unfold decode_base64_dict, getitem.
  rewrite Hpayload, Hname, Hshape, bind_Ok, Hbuf, !bind_Ok, Hdt.
  reflexivity.
Qed.

End Decode.

Lemma mapM_length {A B} (f : A -> result B) (l : list A) (l' : list B) :
  mapM f l = Ok l' -> length l' = length l.
Proof.
  revert l'. induction l as [|x l IH]; simpl; intros l' H.
  - now injection H as <-.
  - destruct (f x); [|discriminate]. destruct (mapM f l); [|discriminate].
    injection H as <-. simpl. f_equal. now apply IH.
Qed.

Lemma as_dims_len (sh : pyval) (dims : list Z) :
  as_dims sh = Ok dims -> py_len sh = Ok (Z.of_nat (length dims)).
Proof.
  destruct sh; try discriminate; simpl; intros H;
    now rewrite (mapM_length _ _ _ H).
Qed.

(** C4, as amended.  Decoding raises [ValueError] when the decoded byte
    length is not a multiple of the dtype's element size, or when the
    recorded shape has two or more dimensions, none negative, whose product
    is not the element count. *)
Theorem decode_base64_dict_rejects
    (envelope : gmap string pyval) (text name : string)
    (buf : list byte) (dt : np_dtype) (sh : pyval) :
  envelope !! "__ndarray__" = Some (PyStr text) ->
  Base64.b64decode text = Some buf ->
  envelope !! "dtype" = Some (PyStr name) ->
  np.dtype_of_name name = Some dt ->
  envelope !! "shape" = Some sh ->
  inconsistent dt buf sh ->
  decode_base64_dict envelope = Raise ValueError.
Proof.
  intros H1 H2 H3 H4 H5 Hbad.
  rewrite (decode_base64_dict_unfold _ _ _ _ _ _ H1 H2 H3 H4 H5).
  unfold np.fromstring.
  destruct (Z.eqb_spec (Z.of_nat (length buf) mod np.itemsize dt) 0) as [Hmul|Hmul].
  - destruct Hbad as [Hbad | (dims & Hdims & Hlen & Hpos & Hprod)]; [contradiction|].
    rewrite bind_Ok, (as_dims_len _ _ Hdims), bind_Ok.
    replace (1 <? Z.of_nat (length dims)) with true
      by (symmetry; apply Z.ltb_lt; lia).
    rewrite Hdims, bind_Ok.
    apply reshape_wrong_count; [exact Hpos|].
    unfold np.size. cbn [shape Zprod fold_right]. lia.
  - reflexivity.
Qed.

Lemma decode_base64_dict_rejects_witness :
  decode_base64_dict Sample.misshaped_envelope = Raise ValueError.
Proof.
  apply (decode_base64_dict_rejects Sample.misshaped_envelope "AAECAwQF" "uint8"
           [Byte.x00; Byte.x01; Byte.x02; Byte.x03; Byte.x04; Byte.x05]
           uint8 (PyList [PyInt 2; PyInt 2]));
    try reflexivity.
  right. exists [2; 2]. split; [reflexivity|]. split; [simpl; lia|].
  split; [repeat constructor; lia|]. vm_compute. discriminate.
Defined.

Example decode_base64_dict_rejects_ragged :
  decode_base64_dict Sample.ragged_envelope = Raise ValueError.
Proof. vm_compute. reflexivity. Qed.

(** C4, as stated, fails for a recorded shape of one dimension: three
    [uint8] elements under the shape [[4]] decode to a three-element array,
    no error. *)
Lemma decode_base64_dict_accepts_short :
  Sample.short_envelope !! "shape" = Some (PyList [PyInt 4])
  /\ decode_base64_dict Sample.short_envelope
     = Ok {| dtype := uint8; shape := [3];
             data := [Byte.x00; Byte.x01; Byte.x02]; c_contiguous := true |}.
Proof. split; vm_compute; reflexivity. Qed.

(** C9.  With payload and dtype readable and the byte count a multiple of
    the element size, the decoder reshapes only when the recorded shape has
    more than one entry; otherwise the recorded shape is not looked at, and
    the result is the linear array of [byte count / element size]
    elements. *)
Theorem decode_base64_dict_flat
    (envelope : gmap string pyval) (text name : string)
    (buf : list byte) (dt : np_dtype) (sh : pyval) (n : Z) :
  envelope !! "__ndarray__" = Some (PyStr text) ->
  Base64.b64decode text = Some buf ->
  envelope !! "dtype" = Some (PyStr name) ->
  np.dtype_of_name name = Some dt ->
  envelope !! "shape" = Some sh ->
  py_len sh = Ok n ->
  Z.of_nat (length buf) mod np.itemsize dt = 0 ->
  let linear := {| dtype := dt;
                   shape := [Z.of_nat (length buf) / np.itemsize dt];
                   data := buf; c_contiguous := true |} in
  decode_base64_dict envelope
  = if 1 <? n then dims ← as_dims sh; np.reshape linear dims else Ok linear.
Proof.
  intros H1 H2 H3 H4 H5 Hn Hmul linear.
  rewrite (decode_base64_dict_unfold _ _ _ _ _ _ H1 H2 H3 H4 H5).
  unfold np.fromstring. rewrite Hmul, Z.eqb_refl, bind_Ok, Hn, bind_Ok.
  reflexivity.
Qed.

Lemma decode_base64_dict_flat_witness :
  decode_base64_dict Sample.short_envelope
  = Ok {| dtype := uint8; shape := [3];
          data := [Byte.x00; Byte.x01; Byte.x02]; c_contiguous := true |}.
Proof.
  exact (decode_base64_dict_flat Sample.short_envelope "AAEC" "uint8"
           [Byte.x00; Byte.x01; Byte.x02] uint8 (PyList [PyInt 4]) 1
           eq_refl eq_refl eq_refl eq_refl eq_refl eq_refl eq_refl).
Defined.

(** ** Temporal arrays *)

Lemma length_Z_to_le (n : nat) (z : Z) : length (Z_to_le n z) = n.
Proof. revert z. induction n as [|n IH]; intros z; simpl; [reflexivity | now rewrite IH]. Qed.

Lemma le_to_Z_to_le (n : nat) (z : Z) :
  0 <= z -> le_to_Z (Z_to_le n z) = z mod 256 ^ Z.of_nat n.
Proof.
  revert z. induction n as [|n IH]; intros z Hz.
  - simpl. now rewrite Z.mod_1_r.
  - cbn [Z_to_le le_to_Z].
    rewrite byte_to_of_N by (pose proof (Z.mod_pos_bound z 256); lia).
    rewrite Z2N.id by (pose proof (Z.mod_pos_bound z 256); lia).
    rewrite IH by (apply Z.div_pos; lia).
    rewrite Nat2Z.inj_succ, Z.pow_succ_r by lia.
    rewrite (Z.rem_mul_r z 256 (256 ^ Z.of_nat n)) by lia. lia.
Qed.

Lemma blocks_concat {A} (k : nat) (l : list (list A)) :
  Forall (fun x => length x = k) l -> blocks (length l) k (concat l) = l.
Proof.
  induction 1 as [|x l Hx _ IH]; simpl; [reflexivity|].
  rewrite take_app_length' by (symmetry; exact Hx).
  rewrite drop_app_length' by (symmetry; exact Hx).
  now rewrite IH.
Qed.

Lemma length_concat_uniform {A} (k : nat) (l : list (list A)) :
  Forall (fun x => length x = k) l -> length (concat l) = (k * length l)%nat.
Proof.
  induction 1 as [|x l Hx _ IH]; simpl; [lia|].
  rewrite length_app, IH, Hx. lia.
Qed.

Lemma raw_of_words (dt : np_dtype) (dims ws : list Z) :
  np.itemsize dt = 8 ->
  np.raw (np.of_words dt dims ws) = map (fun w => w mod 2 ^ 64) ws.
Proof.
  intros Hk. unfold np.raw, np.of_words. cbn [dtype data]. rewrite Hk.
  set (chunks := map (fun w => Z_to_le 8 (w mod 2 ^ 64)) ws).
  assert (Hall : Forall (fun x => length x = 8%nat) chunks).
  { subst chunks. apply Forall_map, Forall_forall. intros w _.
    apply length_Z_to_le. }
  rewrite (length_concat_uniform 8 chunks Hall).
  replace (8 * length chunks / Z.to_nat 8)%nat with (length chunks)
    by (change (Z.to_nat 8) with 8%nat; rewrite Nat.mul_comm, Nat.div_mul; lia).
  change (Z.to_nat 8) with 8%nat.
  rewrite (blocks_concat 8 chunks Hall). subst chunks.
  rewrite map_map. apply map_ext. intros w.
  rewrite le_to_Z_to_le by (apply Z.mod_pos_bound; lia).
  change (256 ^ Z.of_nat 8) with (2 ^ 64).
  apply Z.mod_mod. lia.
Qed.

Lemma counts_of_words (dt : np_dtype) (dims ws : list Z) :
  np.itemsize dt = 8 ->
  np.counts (np.of_words dt dims ws) = map wrap_int64 ws.
Proof.
  intros Hk. unfold np.counts. rewrite (raw_of_words _ _ _ Hk), map_map.
  reflexivity.
Qed.

Lemma wrap_int64_range (z : Z) : - 2 ^ 63 <= wrap_int64 z < 2 ^ 63.
Proof.
  unfold wrap_int64, to_signed.
  pose proof (Z.mod_pos_bound z (2 ^ 64) ltac:(lia)).
  change (64 - 1) with 63. destruct (Z.ltb_spec (z mod 2 ^ 64) (2 ^ 63)); lia.
Qed.

Lemma wrap_int64_idem (z : Z) : wrap_int64 (wrap_int64 z) = wrap_int64 z.
Proof.
  pose proof (wrap_int64_range z) as Hr.
  generalize dependent (wrap_int64 z). intros w Hw.
  unfold wrap_int64, to_signed. change (64 - 1) with 63.
  destruct (Z.leb_spec 0 w).
  - rewrite Z.mod_small by lia. destruct (Z.ltb_spec w (2 ^ 63)); lia.
  - replace (w mod 2 ^ 64) with (w + 2 ^ 64).
    + destruct (Z.ltb_spec (w + 2 ^ 64) (2 ^ 63)); lia.
    + apply Z.mod_unique with (q := -1); lia.
Qed.

Lemma legacy_datetime64_false :
  (np.scalar_astype_int64 (np.datetime64_of_year 2001)
   =? np.scalar_astype_int64
        (np.scalar_astype_datetime64 Unit_ms (np.datetime64_of_year 2001))) = false.
Proof. vm_compute. reflexivity. Qed.

Lemma normalize_datetime (u : time_unit) (a : ndarray) :
  dtype a = datetime64 u ->
  np.true_divide (np.astype_int64 (np.astype_datetime64 Unit_us a))
                 (IEEE.float64_of_Z 1000)
  = to_milliseconds (np.cast_datetime u Unit_us) a.
Proof.
  intros Hdt. unfold np.true_divide, np.astype_int64, np.astype_datetime64.
  rewrite Hdt. unfold to_milliseconds. cbn [shape].
  rewrite !counts_of_words by reflexivity.
  rewrite !map_map. f_equal. apply map_ext. intros v.
  now rewrite wrap_int64_idem.
Qed.

Lemma normalize_timedelta (u : time_unit) (a : ndarray) :
  dtype a = timedelta64 u ->
  np.true_divide (np.astype_int64 (np.astype_timedelta64 Unit_us a))
                 (IEEE.float64_of_Z 1000)
  = to_milliseconds (np.cast_timedelta u Unit_us) a.
Proof.
  intros Hdt. unfold np.true_divide, np.astype_int64, np.astype_timedelta64.
  rewrite Hdt. unfold to_milliseconds. cbn [shape].
  rewrite !counts_of_words by reflexivity.
  rewrite !map_map. f_equal. apply map_ext. intros v.
  now rewrite wrap_int64_idem.
Qed.


Example transform_array_one_ms :
  transform_array Sample.settings (Plain (Sample.one_ms Unit_ms 1)) true
  = Ok (PyList [PyFloat (S754_finite false 4503599627370496 (-52))]).
Proof. vm_compute. reflexivity. Qed.

(** ** Nested traversal *)

Lemma pyval_nested_ind (P : pyval -> Prop) :
  P PyNone ->
  (forall b, P (PyBool b)) ->
  (forall n, P (PyInt n)) ->
  (forall f, P (PyFloat f)) ->
  (forall s, P (PyStr s)) ->
  (forall dt count, P (PyTemporal dt count)) ->
  (forall items, Forall P items -> P (PyList items)) ->
  (forall items, Forall P items -> P (PyTuple items)) ->
  (forall d, P (PyDict d)) ->
  (forall a, P (PyArray a)) ->
  (forall values, P (PySeries values)) ->
  forall v, P v.
Proof.
  intros HNone HBool HInt HFloat HStr HTemp HList HTuple HDict HArr HSer.
  fix IH 1. intros v.
  destruct v as [|b|n|f|s|dt count|items|items|d|a|values].
  - exact HNone.
  - apply HBool.
  - apply HInt.
  - apply HFloat.
  - apply HStr.
  - apply HTemp.
  - apply HList. induction items as [|x items IHl]; constructor; [apply IH | exact IHl].
  - apply HTuple. induction items as [|x items IHl]; constructor; [apply IH | exact IHl].
  - apply HDict.
  - apply HArr.
  - apply HSer.
Qed.

Lemma mapM_Forall2 {A B} (f : A -> result B) (l : list A) (out : list B) :
  mapM f l = Ok out <-> Forall2 (fun x y => f x = Ok y) l out.
Proof.
  revert out. induction l as [|x l IH]; intros out; simpl.
  - split; [intros [= <-]; constructor | intros H; now inversion H].
  - split.
    + destruct (f x) as [y|] eqn:Ey; [|discriminate].
      destruct (mapM f l) as [ys|] eqn:Eys; [|discriminate].
      intros [= <-]. constructor; [exact Ey | now apply IH].
    + intros H. inversion H as [|? y ? ys Hy Hys]; subst.
      rewrite Hy. apply IH in Hys. now rewrite Hys.
Qed.

Lemma mapM_ext_Forall {A B} (f g : A -> result B) (l : list A) :
  Forall (fun x => f x = g x) l -> mapM f l = mapM g l.
Proof. induction 1 as [|x l Hx _ IH]; simpl; [reflexivity | now rewrite Hx, IH]. Qed.

Lemma fmap_Ok_inv {A B} (f : A -> B) (r : result A) (y : B) :
  f <$> r = Ok y -> exists x, r = Ok x /\ y = f x.
Proof. destruct r as [x|e]; [intros [= <-]; eauto | discriminate]. Qed.

Lemma mapM_Ok_Forall {A B} (f : A -> result B) (g : A -> B) (l : list A) :
  Forall (fun x => f x = Ok (g x)) l -> mapM f l = Ok (map g l).
Proof. induction 1 as [|x l Hx _ IH]; simpl; [reflexivity | now rewrite Hx, IH]. Qed.

Lemma child_rule_traverse_item (settings : Settings) (item : pyval) :
  traverse_item settings item = child_rule settings item.
Proof.
  destruct item as [|b|n|f|s|dt count|items|items|d|a|values]; try reflexivity;
    cbn [traverse_item child_rule]; unfold traverse_data;
    now destruct ((is_numpy && true) && forallb is_ndarray items).
Qed.

Lemma traverse_item_plain_tree (settings : Settings) (v : pyval) :
  no_array_run v = true -> traverse_item settings v = Ok (sanitize_tree v).
Proof.
  assert (Hseq : forall items,
             Forall (fun v => no_array_run v = true ->
                              traverse_item settings v = Ok (sanitize_tree v)) items ->
             match items with
             | [] => true
             | _ :: _ => negb (forallb is_ndarray items)
             end && forallb no_array_run items = true ->
             (if (is_numpy && true) && forallb is_ndarray items
              then PyList <$> transform_each settings items
              else PyList <$> mapM (traverse_item settings) items)
             = Ok (PyList (map sanitize_tree items))).
  { intros items IH Hv. apply andb_true_iff in Hv as [Hrun Hall].
    destruct items as [|x items]; [reflexivity|].
    apply negb_true_iff in Hrun. rewrite Hrun, andb_false_r.
    rewrite (mapM_Ok_Forall _ sanitize_tree); [reflexivity|].
    rewrite forallb_forall in Hall. rewrite Forall_forall in IH |- *.
    intros y Hy. apply IH; [exact Hy|]. apply Hall. now apply list_elem_of_In. }
  induction v as [|b|n|f|s|dt count|items IH|items IH|d|a|values]
    using pyval_nested_ind; intros Hv; try reflexivity.
  - apply (Hseq items IH Hv).
  - apply (Hseq items IH Hv).
Qed.

(** C6.  When the fast path is not taken at the top, every direct child is
    handled by [child_rule]: a list or tuple child is traversed and comes
    back as a list, a float child is replaced by its sentinel when it is
    NaN or an infinity, every other child is passed through.  When no
    sequence inside the input is a run of arrays, the result is the input's
    own nesting with the floats sanitized ([sanitize_tree]).  In
    particular [[1.0, NaN], [2.0, Infinity]] gives
    [[1.0, "NaN"], [2.0, "Infinity"]]. *)
Theorem traverse_data_sanitizes
    (settings : Settings) (numpy use_numpy : bool) (datum : list pyval) :
  (numpy && use_numpy) && forallb is_ndarray datum = false ->
  traverse_data settings numpy use_numpy datum = mapM (child_rule settings) datum
  /\ (if forallb no_array_run datum
      then traverse_data settings numpy use_numpy datum = Ok (map sanitize_tree datum)
      else True)
  /\ traverse_data settings is_numpy true Sample.nested
     = Ok [PyList [Sample.py_float 1; PyStr "NaN"];
           PyList [Sample.py_float 2; PyStr "Infinity"]].
Proof.
  intros Hslow. unfold traverse_data at 1 2. rewrite Hslow.
  split; [|split].
  - apply mapM_ext_Forall, Forall_forall. intros x _.
    apply child_rule_traverse_item.
  - destruct (forallb no_array_run datum) eqn:Hfree; [|exact I].
    apply mapM_Ok_Forall, Forall_forall. intros x Hx.
    apply traverse_item_plain_tree.
    rewrite forallb_forall in Hfree. apply Hfree. now apply list_elem_of_In.
  - reflexivity.
Qed.

Lemma traverse_data_sanitizes_witness :
  traverse_data Sample.settings is_numpy true Sample.mixed
  = mapM (child_rule Sample.settings) Sample.mixed
  /\ (if forallb no_array_run Sample.mixed
      then traverse_data Sample.settings is_numpy true Sample.mixed
           = Ok (map sanitize_tree Sample.mixed)
      else True)
  /\ traverse_data Sample.settings is_numpy true Sample.nested
     = Ok [PyList [Sample.py_float 1; PyStr "NaN"];
           PyList [Sample.py_float 2; PyStr "Infinity"]].
Proof.
  apply (traverse_data_sanitizes Sample.settings is_numpy true Sample.mixed).
  reflexivity.
Defined.

Example traverse_data_mixed :
  traverse_data Sample.settings is_numpy true Sample.mixed
  = Ok [PyList [Sample.py_float 1; PyStr "-Infinity"];
        PyList [PyInt 7; PyList [PyStr "NaN"]];
        PyStr "x"].
Proof. reflexivity. Qed.

(** ** Lists for tuples *)

Lemma Forall_blocks {A} (P : A -> Prop) (n k : nat) (xs : list A) :
  Forall P xs -> Forall (Forall P) (blocks n k xs).
Proof.
  revert xs. induction n as [|n IH]; intros xs H; simpl; constructor.
  - now apply Forall_take.
  - apply IH. now apply Forall_drop.
Qed.






Lemma all_ndarray_inv (items : list pyval) :
  forallb is_ndarray items = true -> Forall (fun el => exists a, el = PyArray a) items.
Proof.
  rewrite forallb_forall, Forall_forall. intros H el Hel.
  apply list_elem_of_In, H in Hel. destruct el; try discriminate. eauto.
Qed.





(** The fast path on no children at all, and on two arrays. *)
Example traverse_data_empty :
  traverse_data Sample.settings is_numpy true [] = Ok [].
Proof. reflexivity. Qed.

Example traverse_data_arrays :
  traverse_data Sample.settings is_numpy true
    [PyArray (Plain Sample.square); PyArray (Plain Sample.scalar_one)]
  = transform_each Sample.settings
      [PyArray (Plain Sample.square); PyArray (Plain Sample.scalar_one)].
Proof. reflexivity. Qed.

(** ** Loops over the entries of a dict *)

Section Loop.

Variable f : pyval -> result pyval.

Let step (acc : result (gmap string pyval)) (kv : string * pyval) :=
  out ← acc; v ← f kv.2; Ok (<[kv.1 := v]> out).

Lemma loop_Raise (l : list (string * pyval)) (e : exn) :
  fold_left step l (Raise e) = Raise e.
Proof. induction l as [|kv l IH]; simpl; [reflexivity | exact IH]. Qed.

Lemma loop_inv (l : list (string * pyval)) (m0 m : gmap string pyval) :
  NoDup l.*1 ->
  fold_left step l (Ok m0) = Ok m ->
  (forall k, k ∉ l.*1 -> m !! k = m0 !! k)
  /\ (forall k v, (k, v) ∈ l -> exists v', f v = Ok v' /\ m !! k = Some v').
Proof.
  revert m0. induction l as [|[k0 v0] l IH]; intros m0 Hnd Hrun.
  - simpl in Hrun. injection Hrun as <-. split; [reflexivity|].
    intros k v Hin. inversion Hin.
  - cbn [fold_left] in Hrun. unfold step at 2 in Hrun.
    rewrite bind_Ok in Hrun. cbn [fst snd] in Hrun.
    destruct (f v0) as [v0'|e] eqn:Ef;
      [rewrite bind_Ok in Hrun | rewrite bind_Raise, loop_Raise in Hrun; discriminate].
    rewrite fmap_cons in Hnd. apply NoDup_cons in Hnd as [Hk0 Hnd].
    destruct (IH _ Hnd Hrun) as [Hout Hin].
    split.
    + intros k Hk. rewrite fmap_cons, not_elem_of_cons in Hk. destruct Hk as [Hne Hk].
      rewrite (Hout k Hk). cbn [fst]. now rewrite lookup_insert_ne.
    + intros k v Hkv. apply elem_of_cons in Hkv as [[= -> ->] | Hkv].
      * exists v0'. split; [exact Ef|].
        rewrite (Hout k0 Hk0). cbn [fst]. apply lookup_insert_eq.
      * now apply Hin.
Qed.

Lemma loop_returns (l : list (string * pyval)) (m0 : gmap string pyval) :
  Forall (fun kv => exists v', f kv.2 = Ok v') l ->
  exists m, fold_left step l (Ok m0) = Ok m.
Proof.
  intros H. revert m0. induction H as [|[k v] l [v' Hv] _ IH]; intros m0.
  - exists m0. reflexivity.
  - cbn [fold_left]. unfold step at 2. rewrite bind_Ok. cbn [fst snd] in Hv |- *.
    rewrite Hv, bind_Ok. apply IH.
Qed.

(** The loop returns [m] exactly when [m] has the keys of [data] and each
    value is what [f] returns on the value of [data]. *)
Lemma loop_spec (data m : gmap string pyval) :
  fold_left step (map_to_list data) (Ok ∅) = Ok m
  <-> forall k, match data !! k with
                | Some v => exists v', f v = Ok v' /\ m !! k = Some v'
                | None => m !! k = None
                end.
Proof.
  split.
  - intros Hrun k.
    destruct (loop_inv _ _ _ (NoDup_fst_map_to_list data) Hrun) as [Hout Hin].
    destruct (data !! k) as [v|] eqn:Ek.
    + apply Hin. now apply elem_of_map_to_list.
    + rewrite Hout; [apply lookup_empty|].
      intros Hk. apply list_elem_of_fmap in Hk as ([k' v] & -> & Hkv).
      apply elem_of_map_to_list in Hkv. cbn [fst] in Ek. congruence.
  - intros Hall.
    destruct (loop_returns (map_to_list data) ∅) as [m' Hm'].
    { apply Forall_forall. intros [k v] Hkv. apply elem_of_map_to_list in Hkv.
      specialize (Hall k). rewrite Hkv in Hall. destruct Hall as (v' & Hv' & _).
      eauto. }
    rewrite Hm'. f_equal. apply map_eq. intros k.
    destruct (loop_inv _ _ _ (NoDup_fst_map_to_list data) Hm') as [Hout Hin].
    specialize (Hall k). destruct (data !! k) as [v|] eqn:Ek.
    + destruct Hall as (v' & Hv' & ->).
      apply elem_of_map_to_list in Ek.
      destruct (Hin _ _ Ek) as (v'' & Hv'' & ->). congruence.
    + rewrite Hall, Hout; [apply lookup_empty|].
      intros Hk. apply list_elem_of_fmap in Hk as ([k' v] & -> & Hkv).
      apply elem_of_map_to_list in Hkv. cbn [fst] in Ek. congruence.
Qed.

End Loop.

(** ** Decoding a column set *)

Lemma decode_element_iff (el el' : pyval) :
  match el with
  | PyDict d =>
      if bool_decide (is_Some (d !! "__ndarray__"))
      then (fun a => PyArray (Plain a)) <$> decode_base64_dict d
      else Ok el
  | _ => Ok el
  end = Ok el'
  <-> decoded_envelope el el'.
Proof.
  unfold decoded_envelope.
  destruct el as [|b|n|f|s|dt count|items|items|d|a|values];
    try (split; [intros [= <-]; reflexivity | intros ->; reflexivity]).
  destruct (bool_decide (is_Some (d !! "__ndarray__"))).
  - split.
    + intros H. apply fmap_Ok_inv in H as (arr & Harr & ->). eauto.
    + intros (arr & -> & ->). reflexivity.
  - split; [intros [= <-]; reflexivity | intros ->; reflexivity].
Qed.

Lemma decode_column_iff (v v' : pyval) :
  decode_column v = Ok v' <-> decoded_column v v'.
Proof.
  destruct v as [|b|n|f|s|dt count|items|items|d|a|values];
    try (match goal with
         | |- decode_column ?x = _ <-> _ => exact (decode_element_iff x v')
         end).
  unfold decode_column, decoded_column. split.
  - intros H. apply fmap_Ok_inv in H as (items' & Hitems & ->).
    exists items'. split; [reflexivity|].
    apply mapM_Forall2 in Hitems.
    eapply Forall2_impl; [exact Hitems|]. intros el el'. apply decode_element_iff.
  - intros (items' & -> & Hitems).
    assert (Hm : Forall2 (fun x y =>
                match x with
                | PyDict d =>
                    if bool_decide (is_Some (d !! "__ndarray__"))
                    then (fun a => PyArray (Plain a)) <$> decode_base64_dict d
                    else Ok x
                | _ => Ok x
                end = Ok y) items items').
    { eapply Forall2_impl; [exact Hitems|]. intros el el'. apply decode_element_iff. }
    apply mapM_Forall2 in Hm. now rewrite Hm.
Qed.

(** C8.  [decode_column_data] returns [new_data] exactly when [new_data]
    has the keys of [data] and, key by key, the value is the decoding of
    the column ([decoded_column]): an envelope becomes its decoded array;
    in a list, each element that is an envelope becomes its decoded array
    and every other element, a nested list holding envelopes included, is
    kept as it is; any other value is kept as it is. *)
Theorem decode_column_data_spec (data new_data : gmap string pyval) :
  decode_column_data data = Ok new_data
  <-> forall k, match data !! k with
                | Some v => exists v', decoded_column v v' /\ new_data !! k = Some v'
                | None => new_data !! k = None
                end.
Proof.
  unfold decode_column_data. rewrite (loop_spec decode_column).
  split; intros H k; specialize (H k); destruct (data !! k) as [v|]; try exact H.
  - destruct H as (v' & Hv' & Hk). exists v'. split; [|exact Hk].
    now apply decode_column_iff.
  - destruct H as (v' & Hv' & Hk). exists v'. split; [|exact Hk].
    now apply decode_column_iff.
Qed.

Example decode_column_data_depth :
  decode_column_data Sample.wire_columns
  = Ok {[ "a" := Sample.small_array;
          "b" := PyList [Sample.small_array; PyInt 5];
          "c" := PyList [PyList [Sample.small_envelope]];
          "d" := PyTuple [Sample.small_envelope] ]}.
Proof. vm_compute. reflexivity. Qed.

(** ** When the encoder returns *)

Lemma mapM_returns {A B} (f : A -> result B) (l : list A) :
  Forall (fun x => exists y, f x = Ok y) l -> exists ys, mapM f l = Ok ys.
Proof.
  induction 1 as [|x l [y Hy] _ [ys IH]]; simpl; [eauto|].
  rewrite Hy, IH. eauto.
Qed.

Lemma serialize_array_returns settings (x : array) (force_list : bool) :
  fillable x = true -> exists v, serialize_array settings x force_list = Ok v.
Proof.
  intros Hx. unfold serialize_array.
  assert (Hfill : exists a, match x with
                            | Masked a mask => np.filled_nan a mask
                            | Plain a => Ok a
                            end = Ok a).
  { destruct x as [a|a [m|]]; [eauto| |simpl; eauto].
    cbn [fillable] in Hx. apply bool_decide_eq_true_1 in Hx as [[e mb] Hf].
    unfold np.filled_nan. rewrite Hf. destruct (np.any m); eauto. }
  destruct Hfill as [a ->]. rewrite bind_Ok.
  destruct (encoding_disabled settings a || force_list); eauto.
Qed.

Lemma fillable_float64 (f : ndarray -> ndarray) (x : array) :
  (forall a, dtype (f a) = float64) -> fillable (np.lift f x) = true.
Proof.
  intros Hf. destruct x as [a|a [m|]]; try reflexivity.
  cbn [np.lift fillable]. rewrite Hf. reflexivity.
Qed.

Lemma transform_array_returns settings (x : array) (force_list : bool) :
  fillable x = true -> exists v, transform_array settings x force_list = Ok v.
Proof.
  intros Hx. unfold transform_array. rewrite legacy_datetime64_false.
  destruct (Ascii.eqb (np.kind (dtype (np.base x))) "M");
    [|destruct (Ascii.eqb (np.kind (dtype (np.base x))) "m")];
    rewrite bind_Ok; apply serialize_array_returns;
    try exact Hx; now apply fillable_float64.
Qed.

Lemma transform_each_returns settings (items : list pyval) :
  forallb arrays_fillable items = true ->
  exists out, transform_each settings items = Ok out.
Proof.
  intros H. apply mapM_returns, Forall_forall. intros el Hel.
  rewrite forallb_forall in H. apply list_elem_of_In, H in Hel.
  destruct el; eauto. now apply transform_array_returns.
Qed.

Lemma traverse_item_returns settings (v : pyval) :
  arrays_fillable v = true -> exists out, traverse_item settings v = Ok out.
Proof.
  assert (Hseq : forall items,
             Forall (fun v => arrays_fillable v = true ->
                              exists out, traverse_item settings v = Ok out) items ->
             forallb arrays_fillable items = true ->
             exists out,
               (if (is_numpy && true) && forallb is_ndarray items
                then PyList <$> transform_each settings items
                else PyList <$> mapM (traverse_item settings) items) = Ok out).
  { intros items IH Hall.
    destruct ((is_numpy && true) && forallb is_ndarray items).
    - destruct (transform_each_returns settings items Hall) as [out ->]. eauto.
    - destruct (mapM_returns (traverse_item settings) items) as [out ->]; [|eauto].
      rewrite forallb_forall in Hall. rewrite Forall_forall in IH |- *.
      intros x Hx. apply IH; [exact Hx|]. apply Hall. now apply list_elem_of_In. }
  induction v as [|b|n|f|s|dt count|items IH|items IH|d|a|values]
    using pyval_nested_ind; intros Hv; try (eexists; reflexivity).
  - apply (Hseq items IH Hv).
  - apply (Hseq items IH Hv).
Qed.

Lemma traverse_data_returns settings (numpy use_numpy : bool) (datum : list pyval) :
  forallb arrays_fillable datum = true ->
  exists out, traverse_data settings numpy use_numpy datum = Ok out.
Proof.
  intros Hall. unfold traverse_data.
  destruct ((numpy && use_numpy) && forallb is_ndarray datum).
  - apply (transform_each_returns settings datum Hall).
  - apply mapM_returns, Forall_forall. intros x Hx.
    apply traverse_item_returns.
    rewrite forallb_forall in Hall. apply Hall. now apply list_elem_of_In.
Qed.

(** ** The store: what the encoder writes *)

Module StoreFacts.
Import Store.

Lemma bind_inv {A B} (m : St A) (f : A -> St B) (h : heap) (b : B) (h' : heap) :
  (m ≫= f) h = Ok (b, h') -> exists a h1, m h = Ok (a, h1) /\ f a h1 = Ok (b, h').
Proof.
  unfold mbind, St_bind. destruct (m h) as [[a h1]|e]; [eauto | discriminate].
Qed.

Lemma bind_run {A B} (m : St A) (f : A -> St B) (h : heap) (a : A) (h1 : heap) :
  m h = Ok (a, h1) -> (m ≫= f) h = f a h1.
Proof. intros H. unfold mbind, St_bind. now rewrite H. Qed.

Lemma fmap_inv {A B} (f : A -> B) (m : St A) (h : heap) (b : B) (h' : heap) :
  (f <$> m) h = Ok (b, h') -> exists a, m h = Ok (a, h') /\ b = f a.
Proof.
  unfold fmap, St_fmap. destruct (m h) as [[a h1]|e]; [|discriminate].
  intros [= <- <-]. eauto.
Qed.

Lemma lift_inv {A} (r : result A) (h : heap) (a : A) (h' : heap) :
  lift r h = Ok (a, h') -> r = Ok a /\ h' = h.
Proof. unfold lift. destruct r; [intros [= <- <-]; auto | discriminate]. Qed.

Lemma get_heap_inv (h h1 h' : heap) : get_heap h = Ok (h1, h') -> h1 = h /\ h' = h.
Proof. intros [= <- <-]. auto. Qed.

Lemma mret_inv {A} (a b : A) (h h' : heap) :
  (mret a : St A) h = Ok (b, h') -> b = a /\ h' = h.
Proof. intros [= <- <-]. auto. Qed.

Lemma alloc_inv (o : object) (h : heap) (l : loc) (h' : heap) :
  alloc o h = Ok (l, h') -> h !! l = None /\ h' = <[l := o]> h.
Proof.
  intros [= <- <-]. split; [|reflexivity].
  apply not_elem_of_dom, is_fresh.
Qed.

Lemma list_append_inv (l : loc) (v : value) (h : heap) (u : unit) (h' : heap) :
  list_append l v h = Ok (u, h') ->
  exists items, h !! l = Some (OList items) /\ h' = <[l := OList (items ++ [v])]> h.
Proof.
  unfold list_append. destruct (h !! l) as [[items| | | |]|]; try discriminate.
  intros [= _ <-]. eauto.
Qed.


Lemma iter_object_inv (o : option object) (h : heap) (items : list value) (h' : heap) :
  iter_object o h = Ok (items, h') -> h' = h.
Proof.
  destruct o as [[| | | |]|]; simpl; try discriminate; now intros [= _ <-].
Qed.

(** An invariant of the store kept by every turn of a loop holds after
    the loop. *)
Lemma for_each_invariant {A} (I : heap -> Prop) (body : A -> St unit) (l : list A) :
  (forall x h u h', x ∈ l -> I h -> body x h = Ok (u, h') -> I h') ->
  forall h u h', I h -> for_each body l h = Ok (u, h') -> I h'.
Proof.
  induction l as [|x l IH]; intros Hbody h u h' HI Hrun.
  - apply mret_inv in Hrun as [_ ->]. exact HI.
  - cbn [for_each] in Hrun.
    destruct (body x h) as [[u1 h1]|e] eqn:Ex; [|discriminate].
    apply (IH (fun y h0 u0 h0' Hy => Hbody y h0 u0 h0' (list_elem_of_further _ _ _ Hy))
              h1 u h'); [|exact Hrun].
    apply (Hbody x h u1 h1); [left | exact HI | exact Ex].
Qed.

Lemma collect_pure {A B} (f : A -> St B) (l : list A) :
  (forall x h y h', f x h = Ok (y, h') -> h' = h) ->
  forall h ys h', collect f l h = Ok (ys, h') -> h' = h.
Proof.
  intros Hf. induction l as [|x l IH]; intros h ys h' Hrun.
  - now apply mret_inv in Hrun as [_ ->].
  - cbn [collect] in Hrun.
    destruct (f x h) as [[y h1]|e] eqn:Ex; [|discriminate].
    destruct (collect f l h1) as [[ys1 h2]|e] eqn:El; [|discriminate].
    injection Hrun as _ <-. apply Hf in Ex as ->. now apply IH in El.
Qed.

Section Frame.

Variable settings : Settings.

(** [traverse_data] leaves every object of the store as it found it. *)
Lemma traverse_data_frame (limit : nat) (numpy use_numpy : bool) (datum : value)
    (h : heap) (out : value) (h' : heap) :
  traverse_data settings limit numpy use_numpy datum h = Ok (out, h') -> h ⊆ h'.
Proof.
  revert numpy use_numpy datum h out h'.
  induction limit as [|limit IH]; intros numpy use_numpy datum h out h' Hrun;
    [discriminate|].
  cbn [traverse_data] in Hrun. destruct datum as [v|l].
  - apply lift_inv in Hrun as [_ ->]. reflexivity.
  - apply bind_inv in Hrun as (h0 & h1 & Hget & Hrun).
    apply get_heap_inv in Hget as [-> ->].
    apply bind_inv in Hrun as (items & h1 & Hiter & Hrun).
    apply iter_object_inv in Hiter as ->.
    destruct ((numpy && use_numpy)
              && forallb (fun el => bool_decide (is_Some (as_ndarray h el))) items).
    + apply bind_inv in Hrun as (results & h1 & Hcol & Hrun).
      apply collect_pure in Hcol as ->.
      * apply fmap_inv in Hrun as (l' & Hal & _).
        apply alloc_inv in Hal as [Hfresh ->]. now apply insert_subseteq.
      * intros el h0 y h0' Hel. unfold transform_element in Hel.
        destruct (as_ndarray h el).
        -- apply fmap_inv in Hel as (r & Hr & _). now apply lift_inv in Hr as [_ ->].
        -- now apply mret_inv in Hel as [_ ->].
    + apply bind_inv in Hrun as (datum_copy & h1 & Hal & Hrun).
      apply alloc_inv in Hal as [Hfresh ->].
      apply bind_inv in Hrun as (u & h2 & Hloop & Hret).
      apply mret_inv in Hret as [_ ->].
      revert Hloop.
      apply (for_each_invariant (fun hi => h ⊆ hi)); [|now apply insert_subseteq].
      intros item hi u' hi' _ Hsub Hbody. unfold traverse_step in Hbody.
      apply bind_inv in Hbody as (h0 & h3 & Hget & Hbody).
      apply get_heap_inv in Hget as [-> ->].
      assert (Happ : forall v hj uj hj',
                 h ⊆ hj -> list_append datum_copy v hj = Ok (uj, hj') -> h ⊆ hj').
      { intros v hj uj hj' Hj Ha.
        apply list_append_inv in Ha as (its & _ & ->).
        now apply insert_subseteq_r. }
      destruct (is_sequence hi item).
      * apply bind_inv in Hbody as (r & h3 & Hrec & Happend).
        apply IH in Hrec.
        apply (Happ _ _ _ _ (transitivity Hsub Hrec) Happend).
      * destruct item as [[]|]; apply (Happ _ _ _ _ Hsub Hbody).
Qed.

(** *** Enough recursion depth gives a result *)













End Frame.

End StoreFacts.

(** ** The store and the store-free embedding agree *)

Module StoreRefinement.

Lemma reads_mono (h h' : Store.heap) (x : Store.value) (v : pyval) :
  h ⊆ h' -> Store.reads h x v -> Store.reads h' x v.
Proof.
  intros Hsub. revert x.
  induction v as [|b|n|f|s|dt count|items IH|items IH|d|a|values]
    using pyval_nested_ind; intros x Hr; inversion Hr; subst;
    try constructor; try (eapply lookup_weaken; eassumption).
  - apply Store.reads_list with (items := items0); [eapply lookup_weaken; eassumption|].
    match goal with H : Forall2 _ _ _ |- _ => rename H into Hall end.
    clear -IH Hall. induction Hall as [|y w ys ws Hyw _ IHall]; [constructor|].
    inversion IH; subst. constructor; auto.
  - apply Store.reads_tuple with (items := items0); [eapply lookup_weaken; eassumption|].
    match goal with H : Forall2 _ _ _ |- _ => rename H into Hall end.
    clear -IH Hall. induction Hall as [|y w ys ws Hyw _ IHall]; [constructor|].
    inversion IH; subst. constructor; auto.
Qed.

Lemma reads_as_ndarray (h : Store.heap) (x : Store.value) (v : pyval) :
  Store.reads h x v ->
  Store.as_ndarray h x = match v with PyArray a => Some a | _ => None end.
Proof.
  destruct 1 as [v|l items vs Hl _|l items vs Hl _|l d Hl|l a Hl|l a Hl];
    cbn [Store.as_ndarray]; try (now rewrite Hl). now destruct v.
Qed.

Lemma reads_as_series (h : Store.heap) (x : Store.value) (v : pyval) :
  Store.reads h x v ->
  Store.as_series h x = match v with PySeries a => Some a | _ => None end.
Proof.
  destruct 1 as [v|l items vs Hl _|l items vs Hl _|l d Hl|l a Hl|l a Hl];
    cbn [Store.as_series]; try (now rewrite Hl). now destruct v.
Qed.

Lemma reads_is_sequence (h : Store.heap) (x : Store.value) (v : pyval) :
  Store.reads h x v ->
  Store.is_sequence h x = match v with PyList _ | PyTuple _ => true | _ => false end.
Proof.
  destruct 1 as [v|l items vs Hl _|l items vs Hl _|l d Hl|l a Hl|l a Hl];
    cbn [Store.is_sequence]; try (now rewrite Hl). now destruct v.
Qed.

Lemma submaps_union (m1 m2 M : Store.heap) :
  m1 ⊆ M -> m2 ⊆ M -> m1 ⊆ m1 ∪ m2 /\ m2 ⊆ m1 ∪ m2 /\ m1 ∪ m2 ⊆ M.
Proof.
  intros H1 H2. split; [apply map_union_subseteq_l|].
  split; [|now apply map_union_least].
  apply map_subseteq_spec. intros l o Hl.
  apply lookup_union_Some_raw.
  destruct (m1 !! l) as [o'|] eqn:E1; [left | right; auto].
  rewrite map_subseteq_spec in H1, H2.
  apply H1 in E1. apply H2 in Hl. congruence.
Qed.

Lemma iter_reads (h : Store.heap) (l : Store.loc) (v : pyval) (items : list pyval) :
  Store.reads h (Store.VRef l) v -> iter_payload v = Ok items ->
  exists o items0,
    h !! l = Some o
    /\ (forall h1, Store.iter_object (Some o) h1 = Ok (items0, h1))
    /\ Forall2 (Store.reads h) items0 items.
Proof.
  intros Hr Hit. inversion Hr; subst; cbn [iter_payload] in Hit;
    try discriminate Hit; injection Hit as <-.
  - eexists _, _. split; [eassumption|]. split; [reflexivity | assumption].
  - eexists _, _. split; [eassumption|]. split; [reflexivity | assumption].
  - eexists _, _. split; [eassumption|]. split; [reflexivity|].
    rewrite map_to_list_fmap.
    induction (map_to_list d) as [|[k x] kvs IH]; constructor; [constructor | exact IH].
Qed.

Lemma all_arrays_agree (h : Store.heap) (items0 : list Store.value) (items : list pyval) :
  Forall2 (Store.reads h) items0 items ->
  forallb (fun el => bool_decide (is_Some (Store.as_ndarray h el))) items0
  = forallb is_ndarray items.
Proof.
  induction 1 as [|x v xs vs Hxv _ IH]; [reflexivity|].
  cbn [forallb]. rewrite IH, (reads_as_ndarray _ _ _ Hxv). now destruct v.
Qed.

Section Simulation.

Variable settings : Settings.

Lemma collect_simulates (h0 h : Store.heap) (items0 : list Store.value)
    (items outs : list pyval) :
  h0 ⊆ h ->
  Forall2 (Store.reads h0) items0 items ->
  forallb is_ndarray items = true ->
  transform_each settings items = Ok outs ->
  Store.collect (Store.transform_element settings h) items0 h
  = Ok (map Store.VPure outs, h).
Proof.
  intros Hsub Hall. revert outs.
  induction Hall as [|x v xs vs Hxv _ IH]; intros outs Harr Hout.
  - injection Hout as <-. reflexivity.
  - cbn [forallb] in Harr. apply andb_true_iff in Harr as [Hv Harr].
    destruct v; try discriminate Hv.
    unfold transform_each in Hout. cbn [mapM] in Hout.
    destruct (transform_array settings a false) as [r|] eqn:Er; [|discriminate].
    fold (transform_each settings vs) in Hout.
    destruct (transform_each settings vs) as [rs|] eqn:Ers; [|discriminate].
    injection Hout as <-.
    cbn [Store.collect]. unfold Store.transform_element at 1.
    rewrite (reads_as_ndarray _ _ _ (reads_mono _ _ _ _ Hsub Hxv)).
    unfold fmap at 1, Store.St_fmap at 1, Store.lift at 1. rewrite Er.
    now rewrite (IH rs Harr eq_refl).
Qed.

Lemma Forall2_reads_mono (e e' : Store.heap) (xs : list Store.value) (vs : list pyval) :
  e ⊆ e' -> Forall2 (Store.reads e) xs vs -> Forall2 (Store.reads e') xs vs.
Proof.
  intros Hsub H. eapply Forall2_impl; [exact H|].
  intros x v. now apply reads_mono.
Qed.

Lemma traverse_item_sequence (datum : list pyval) (out : pyval) (tuple : bool) :
  traverse_item settings (if tuple then PyTuple datum else PyList datum) = Ok out ->
  exists out', traverse_data settings is_numpy true datum = Ok out'
               /\ out = PyList out'.
Proof.
  rewrite child_rule_traverse_item. destruct tuple; cbn [child_rule];
    intros H; apply fmap_Ok_inv in H as (out' & Hout' & ->); eauto.
Qed.

(** The loop of the slow path, from any point on. *)
Lemma loop_simulates (limit' : nat) (h0 h : Store.heap) (dc : Store.loc) :
  h0 ⊆ h -> h !! dc = None ->
  forall items0 items,
    Forall2 (Store.reads h0) items0 items ->
    Forall (fun v => match v with
                     | PyList _ | PyTuple _ =>
                         (Store.depth v < limit')%nat /\ simulated settings v
                     | _ => True
                     end) items ->
    forall outs, mapM (traverse_item settings) items = Ok outs ->
    forall hi vals E pre,
      h ⊆ hi -> hi !! dc = Some (Store.OList vals) ->
      h0 ⊆ E -> E ⊆ delete dc hi ->
      (forall l, is_Some (E !! l) -> is_Some (h !! l) -> is_Some (h0 !! l)) ->
      Forall2 (Store.reads E) vals pre ->
      exists u h2 vals' E',
        Store.for_each
          (Store.traverse_step (Store.traverse_data settings limit' is_numpy true) dc)
          items0 hi = Ok (u, h2)
        /\ h ⊆ h2 /\ h2 !! dc = Some (Store.OList vals')
        /\ h0 ⊆ E' /\ E' ⊆ delete dc h2
        /\ (forall l, is_Some (E' !! l) -> is_Some (h !! l) -> is_Some (h0 !! l))
        /\ Forall2 (Store.reads E') vals' (pre ++ outs).
Proof.
  intros Hh0 Hdc items0 items Hreads.
  induction Hreads as [|x v xs vs Hxv _ IH];
    intros Hsim outs Hout hi vals E pre Hhi Hvals HE0 HE Hdom Hpre.
  - injection Hout as <-. exists tt, hi, vals, E.
    rewrite app_nil_r. repeat split; auto.
  - cbn [mapM] in Hout.
    destruct (traverse_item settings v) as [o_v|] eqn:Ev; [|discriminate].
    destruct (mapM (traverse_item settings) vs) as [outs'|] eqn:Evs; [|discriminate].
    injection Hout as <-.
    inversion Hsim as [|? ? Hv Hsim']; subst.
    assert (Hh0i : h0 ⊆ hi) by (now transitivity h).
    pose proof (reads_mono _ _ _ _ Hh0i Hxv) as Hxi.
    assert (Hh0dc : h0 !! dc = None) by (eapply lookup_weaken_None; eassumption).
    (* what one append gives *)
    assert (Hstep : forall o hj E1,
               hi ⊆ hj -> h0 ⊆ E1 -> E1 ⊆ delete dc hj ->
               (forall l, is_Some (E1 !! l) -> is_Some (h !! l) -> is_Some (h0 !! l)) ->
               Forall2 (Store.reads E1) vals pre ->
               Store.reads E1 o o_v ->
               exists u h2 vals' E',
                 Store.for_each
                   (Store.traverse_step
                      (Store.traverse_data settings limit' is_numpy true) dc)
                   xs (<[dc := Store.OList (vals ++ [o])]> hj) = Ok (u, h2)
                 /\ h ⊆ h2 /\ h2 !! dc = Some (Store.OList vals')
                 /\ h0 ⊆ E' /\ E' ⊆ delete dc h2
                 /\ (forall l, is_Some (E' !! l) -> is_Some (h !! l) -> is_Some (h0 !! l))
                 /\ Forall2 (Store.reads E') vals' (pre ++ o_v :: outs')).
    { intros o hj E1 Hij HE10 HE1 Hdom1 Hpre1 Ho.
      destruct (IH Hsim' outs' eq_refl (<[dc := Store.OList (vals ++ [o])]> hj)
                   (vals ++ [o]) E1 (pre ++ [o_v]))
        as (u & h2 & vals' & E' & Hrun & H1 & H2 & H3 & H4 & H5 & H6).
      - apply insert_subseteq_r; [exact Hdc | now transitivity hi].
      - apply lookup_insert_eq.
      - exact HE10.
      - now rewrite delete_insert_eq.
      - exact Hdom1.
      - apply Forall2_app; [exact Hpre1 | constructor; [exact Ho | constructor]].
      - exists u, h2, vals', E'. rewrite <- app_assoc in H6. cbn [app] in H6.
        repeat split; assumption. }
    cbn [Store.for_each]. unfold Store.traverse_step at 1.
    unfold mbind at 1, Store.St_bind at 1, Store.get_heap at 1.
    rewrite (reads_is_sequence _ _ _ Hxi).
    assert (Happend : forall o hj, hi ⊆ hj ->
               Store.list_append dc o hj
               = Ok (tt, <[dc := Store.OList (vals ++ [o])]> hj)).
    { intros o hj Hij. unfold Store.list_append.
      now rewrite (lookup_weaken _ _ _ _ Hvals Hij). }
    assert (Hrefl : hi ⊆ hi) by reflexivity.
    destruct v as [|b|n|f|s|dt count|datum|datum|d|a|values];
      try (injection Ev as <-);
      try (inversion Hxv; subst; cbv beta iota;
           rewrite (Happend _ hi Hrefl); cbv beta iota;
           apply (Hstep _ hi E Hrefl HE0 HE Hdom Hpre);
           first [ eapply reads_mono; [exact HE0 | eassumption]
                 | constructor ]; fail).
    + (* a list *)
      destruct Hv as [Hdepth Hsimv].
      destruct (traverse_item_sequence datum o_v false Ev) as (out' & Hout' & ->).
      destruct (Hsimv limit' is_numpy true x h0 hi datum out' Hh0i Hxv Hdepth eq_refl Hout')
        as (o & hi' & Hrec & e & He0 & He & Hedom & Hro).
      rewrite (StoreFacts.bind_run _ _ _ _ _ Hrec).
      pose proof (StoreFacts.traverse_data_frame _ _ _ _ _ _ _ _ Hrec) as Hfr.
      rewrite (Happend _ hi' Hfr). cbv beta iota.
      assert (Hedc : e ⊆ delete dc hi').
      { apply map_subseteq_spec. intros l ob Hl.
        destruct (decide (l = dc)) as [->|Hne].
        - exfalso. destruct (Hedom dc) as [? Habs]; [eauto | eauto |]. congruence.
        - rewrite lookup_delete_ne by congruence.
          eapply lookup_weaken; eassumption. }
      assert (HEdc : E ⊆ delete dc hi').
      { transitivity (delete dc hi); [exact HE | now apply delete_mono]. }
      destruct (submaps_union E e (delete dc hi') HEdc Hedc) as (HEl & Her & HEu).
      apply (Hstep o hi' (E ∪ e) Hfr).
      * now transitivity E.
      * exact HEu.
      * intros l Hl Hhl. apply lookup_union_is_Some in Hl as [Hl|Hl]; [now apply Hdom|].
        apply Hedom; [exact Hl|]. destruct Hhl as [ob Hob].
        exists ob. eapply lookup_weaken; eassumption.
      * now apply (Forall2_reads_mono E).
      * now apply (reads_mono e).
    + (* a tuple *)
      destruct Hv as [Hdepth Hsimv].
      destruct (traverse_item_sequence datum o_v true Ev) as (out' & Hout' & ->).
      destruct (Hsimv limit' is_numpy true x h0 hi datum out' Hh0i Hxv Hdepth eq_refl Hout')
        as (o & hi' & Hrec & e & He0 & He & Hedom & Hro).
      rewrite (StoreFacts.bind_run _ _ _ _ _ Hrec).
      pose proof (StoreFacts.traverse_data_frame _ _ _ _ _ _ _ _ Hrec) as Hfr.
      rewrite (Happend _ hi' Hfr). cbv beta iota.
      assert (Hedc : e ⊆ delete dc hi').
      { apply map_subseteq_spec. intros l ob Hl.
        destruct (decide (l = dc)) as [->|Hne].
        - exfalso. destruct (Hedom dc) as [? Habs]; [eauto | eauto |]. congruence.
        - rewrite lookup_delete_ne by congruence.
          eapply lookup_weaken; eassumption. }
      assert (HEdc : E ⊆ delete dc hi').
      { transitivity (delete dc hi); [exact HE | now apply delete_mono]. }
      destruct (submaps_union E e (delete dc hi') HEdc Hedc) as (HEl & Her & HEu).
      apply (Hstep o hi' (E ∪ e) Hfr).
      * now transitivity E.
      * exact HEu.
      * intros l Hl Hhl. apply lookup_union_is_Some in Hl as [Hl|Hl]; [now apply Hdom|].
        apply Hedom; [exact Hl|]. destruct Hhl as [ob Hob].
        exists ob. eapply lookup_weaken; eassumption.
      * now apply (Forall2_reads_mono E).
      * now apply (reads_mono e).
Qed.

Lemma depth_items (items : list pyval) (n : nat) :
  (list_max (map Store.depth items) < n)%nat ->
  Forall (fun v => (Store.depth v < n)%nat) items.
Proof.
  induction items as [|v items IH]; simpl; intros H; constructor.
  - lia.
  - apply IH. lia.
Qed.

(** An immutable value is traversed without touching the store. *)
Lemma pure_simulates (limit' : nat) (numpy use_numpy : bool) (h0 h : Store.heap)
    (v : pyval) (items out : list pyval) :
  h0 ⊆ h -> iter_payload v = Ok items ->
  traverse_data settings numpy use_numpy items = Ok out ->
  exists o h',
    Store.traverse_data settings (S limit') numpy use_numpy (Store.VPure v) h = Ok (o, h')
    /\ Store.reads_fresh h0 h h' o (PyList out).
Proof.
  intros Hsub Hit Hout. exists (Store.VPure (PyList out)), h. split.
  - cbn [Store.traverse_data]. unfold Store.lift, Store.traverse_pure.
    now rewrite Hit, bind_Ok, Hout.
  - exists h0. split; [reflexivity|]. split; [exact Hsub|].
    split; [intros l Hl _; exact Hl | constructor].
Qed.

(** A sequence or mapping of the store: one level of [traverse_data], the
    nested calls being given. *)
Lemma ref_simulates (limit' : nat) (numpy use_numpy : bool) (h0 h : Store.heap)
    (l : Store.loc) (v : pyval) (items out : list pyval) :
  h0 ⊆ h -> Store.reads h0 (Store.VRef l) v -> iter_payload v = Ok items ->
  Forall (fun v => match v with
                   | PyList _ | PyTuple _ =>
                       (Store.depth v < limit')%nat /\ simulated settings v
                   | _ => True
                   end) items ->
  traverse_data settings numpy use_numpy items = Ok out ->
  exists o h',
    Store.traverse_data settings (S limit') numpy use_numpy (Store.VRef l) h = Ok (o, h')
    /\ Store.reads_fresh h0 h h' o (PyList out).
Proof.
  intros Hsub Hr Hit Hall Hout.
  destruct (iter_reads h0 l v items Hr Hit) as (ob & items0 & Hl & Hiter & Hreads).
  pose proof (lookup_weaken _ _ _ _ Hl Hsub) as Hl'.
  set (dc := fresh (dom h)).
  assert (Hdc : h !! dc = None) by apply not_elem_of_dom, is_fresh.
  assert (Hdc0 : h0 !! dc = None) by (eapply lookup_weaken_None; eassumption).
  cbn [Store.traverse_data].
  unfold mbind at 1, Store.St_bind at 1, Store.get_heap at 1. cbv beta iota.
  rewrite Hl'. rewrite (StoreFacts.bind_run _ _ _ _ _ (Hiter h)).
  rewrite (all_arrays_agree h items0 items (Forall2_reads_mono _ _ _ _ Hsub Hreads)).
  unfold traverse_data in Hout. cbv zeta in Hout.
  destruct (numpy && use_numpy && forallb is_ndarray items) eqn:Efast.
  - (* every item is an array *)
    apply andb_true_iff in Efast as [_ Harr].
    rewrite (StoreFacts.bind_run _ _ _ _ _
               (collect_simulates h0 h items0 items out Hsub Hreads Harr Hout)).
    exists (Store.VRef dc), (<[dc := Store.OList (map Store.VPure out)]> h).
    split; [reflexivity|].
    exists (<[dc := Store.OList (map Store.VPure out)]> h0).
    split; [now apply insert_subseteq|].
    split; [now apply insert_mono|].
    split.
    + intros k Hk Hhk. destruct (decide (k = dc)) as [->|Hne].
      * rewrite Hdc in Hhk. now destruct Hhk.
      * now rewrite lookup_insert_ne in Hk by congruence.
    + apply Store.reads_list with (items := map Store.VPure out);
        [apply lookup_insert_eq|].
      generalize (<[dc := Store.OList (map Store.VPure out)]> h0). intros e.
      clear. induction out; constructor; [constructor | assumption].
  - (* the loop *)
    assert (Halloc : Store.alloc (Store.OList []) h
                     = Ok (dc, <[dc := Store.OList []]> h)) by reflexivity.
    rewrite (StoreFacts.bind_run _ _ _ _ _ Halloc).
    destruct (loop_simulates limit' h0 h dc Hsub Hdc items0 items Hreads Hall out Hout
                (<[dc := Store.OList []]> h) [] h0 [])
      as (u & h2 & vals' & E' & Hrun & Hh2 & Hdc2 & HE0 & HE & Hdom & Hvals).
    + now apply insert_subseteq.
    + apply lookup_insert_eq.
    + reflexivity.
    + rewrite delete_insert_eq, delete_id by exact Hdc. exact Hsub.
    + intros k Hk _. exact Hk.
    + constructor.
    + rewrite (StoreFacts.bind_run _ _ _ _ _ Hrun).
      exists (Store.VRef dc), h2. split; [reflexivity|].
      assert (HEdc : E' !! dc = None).
      { eapply lookup_weaken_None; [apply lookup_delete_eq | exact HE]. }
      exists (<[dc := Store.OList vals']> E').
      split; [transitivity E'; [exact HE0 | now apply insert_subseteq]|].
      split.
      { apply insert_subseteq_l; [exact Hdc2|].
        transitivity (delete dc h2); [exact HE | apply delete_subseteq]. }
      split.
      * intros k Hk Hhk. destruct (decide (k = dc)) as [->|Hne].
        -- rewrite Hdc in Hhk. now destruct Hhk.
        -- rewrite lookup_insert_ne in Hk by congruence. now apply Hdom.
      * apply Store.reads_list with (items := vals'); [apply lookup_insert_eq|].
        cbn [app] in Hvals.
        apply (Forall2_reads_mono E'); [now apply insert_subseteq | exact Hvals].
Qed.

(** Whatever reads as the tree [v] is traversed by the store embedding to
    a value that reads as what the store-free embedding gives for [v]; the
    objects behind it are those of the input and new ones. *)
Theorem traverse_data_simulates (v : pyval) : simulated settings v.
Proof.
  induction v as [|b|n|f|s|dt count|items IH|items IH|d|a|values]
    using pyval_nested_ind;
    intros limit numpy use_numpy x h0 h its out Hsub Hr Hdepth Hit Hout;
    (destruct limit as [|limit']; [simpl in Hdepth; lia|]);
    inversion Hr; subst; try discriminate Hit;
    try (eapply pure_simulates; eassumption).
  - eapply ref_simulates; try eassumption.
    injection Hit as <-.
    pose proof (depth_items items limit' ltac:(simpl in Hdepth; lia)) as Hd.
    apply Forall_forall. intros w Hw.
    rewrite Forall_forall in IH, Hd.
    specialize (IH w Hw). specialize (Hd w Hw). now destruct w.
  - eapply ref_simulates; try eassumption.
    injection Hit as <-.
    pose proof (depth_items items limit' ltac:(simpl in Hdepth; lia)) as Hd.
    apply Forall_forall. intros w Hw.
    rewrite Forall_forall in IH, Hd.
    specialize (IH w Hw). specialize (Hd w Hw). now destruct w.
  - eapply ref_simulates; try eassumption.
    injection Hit as <-.
    clear. induction (map_to_list d) as [|kv kvs IHk]; simpl; constructor;
      [exact I | exact IHk].
Qed.

(** X16.  The value stored for one key, computed on the store of objects
    (references, shared lists, lists appended to in place), reads as the
    value the store-free [transform_column] gives for the tree the column
    reads as; the objects behind it are objects of the input or objects
    made by the call. *)
Theorem transform_column_simulates (limit : nat) (h0 h : Store.heap)
    (x : Store.value) (v out : pyval) :
  h0 ⊆ h -> Store.reads h0 x v -> (Store.depth v < limit)%nat ->
  transform_column settings v = Ok out ->
  exists o h',
    Store.transform_column settings limit x h = Ok (o, h')
    /\ Store.reads_fresh h0 h h' o out.
Proof.
  intros Hsub Hr Hdepth Hout.
  pose proof (reads_mono _ _ _ _ Hsub Hr) as Hrh.
  unfold Store.transform_column.
  unfold mbind at 1, Store.St_bind at 1, Store.get_heap at 1. cbv beta iota.
  rewrite (reads_as_series _ _ _ Hrh), (reads_as_ndarray _ _ _ Hrh).
  assert (Hpure : forall r : result pyval, r = Ok out ->
            exists o h',
              @fmap Store.St Store.St_fmap _ _ Store.VPure (Store.lift r) h = Ok (o, h')
              /\ Store.reads_fresh h0 h h' o out).
  { intros r ->. exists (Store.VPure out), h. split; [reflexivity|].
    exists h0. split; [reflexivity|]. split; [exact Hsub|].
    split; [intros l Hl _; exact Hl | constructor]. }
  assert (Hseq : forall items outs,
            iter_payload v = Ok items ->
            traverse_data settings is_numpy true items = Ok outs ->
            exists o h',
              Store.traverse_data settings limit is_numpy true x h = Ok (o, h')
              /\ Store.reads_fresh h0 h h' o (PyList outs)).
  { intros items outs Hit Houts.
    exact (traverse_data_simulates v limit is_numpy true x h0 h items outs
             Hsub Hr Hdepth Hit Houts). }
  destruct v as [|b|n|f|s|dt count|items|items|d|a|values];
    cbn [transform_column] in Hout;
    try (apply Hpure; exact Hout);
    try (destruct (iter_payload _) as [items'|] eqn:Eit; [|discriminate Hout];
         rewrite bind_Ok in Hout;
         apply fmap_Ok_inv in Hout as (outs & Houts & ->);
         eapply Hseq; [reflexivity | exact Houts]).
Qed.

End Simulation.

End StoreRefinement.

(** ** The column-set encoder *)

Lemma transform_column_source_data_keys settings (data data_copy : gmap string pyval) :
  transform_column_source_data settings data = Ok data_copy ->
  dom data_copy = dom data.
Proof.
  unfold transform_column_source_data. rewrite (loop_spec (transform_column settings)).
  intros H. apply set_eq. intros k. rewrite !elem_of_dom. specialize (H k).
  destruct (data !! k) as [v|].
  - destruct H as (v' & _ & ->). split; eauto.
  - rewrite H. split; intros [? ?]; discriminate.
Qed.



Example transform_column_source_data_store :
  match Store.transform_column_source_data Sample.settings 10 1%positive Sample.store with
  | Ok (data_copy, h') =>
      match h' !! data_copy with
      | Some (Store.ODict entries') =>
          match entries' !! "b" with
          | Some (Store.VRef l) =>
              h' !! l = Some (Store.OList [Store.VPure (PyInt 1);
                                           Store.VPure (PyStr "NaN");
                                           Store.VRef 7%positive])
              /\ h' !! 7%positive = Some (Store.OList [Store.VPure (Sample.py_float 2)])
          | _ => False
          end
      | _ => False
      end
  | Raise _ => False
  end.
Proof. vm_compute. auto. Qed.

(* ===================================================================== *)
(** * Further properties of the module *)
(* ===================================================================== *)

(** ** Identifiers *)

Lemma hex_length (w : nat) (n : N) : length (uuid.hex w n) = w.
Proof.
  revert n. induction w as [|w IH]; intros n; simpl; [reflexivity|].
  rewrite length_app, IH. simpl. lia.
Qed.

(** The text of a UUID has a dash after its first eight characters. *)
Lemma uuid_str_dash (u : N) :
  exists a b, list_ascii_of_string (uuid.str u) = a ++ "-"%char :: b /\ length a = 8%nat.
Proof.
  unfold uuid.str. rewrite list_ascii_of_string_of_list_ascii.
  eexists _, _. split; [reflexivity|].
  rewrite length_take, hex_length. reflexivity.
Qed.

Lemma pretty_N_go_no_dash (x : N) (s : string) :
  "-"%char ∉ list_ascii_of_string s ->
  "-"%char ∉ list_ascii_of_string (pretty_N_go x s).
Proof.
  revert s. induction (N.lt_wf_0 x) as [x _ IH]; intros s Hs.
  destruct (N.eq_dec x 0%N) as [->|Hx]; [exact Hs|].
  rewrite pretty_N_go_step by lia. apply IH; [apply N.div_lt; lia|].
  cbn [list_ascii_of_string]. rewrite not_elem_of_cons. split; [|exact Hs].
  unfold pretty_N_char. repeat case_match; discriminate.
Qed.

(** The text of an integer has a dash at its front or nowhere. *)
Lemma pretty_Z_dash_first (z : Z) (a b : list ascii) :
  list_ascii_of_string (pretty z) = a ++ "-"%char :: b -> a = [].
Proof.
  assert (Hpos : forall p, "-"%char ∉ list_ascii_of_string (pretty (N.pos p))).
  { intros p. unfold pretty, pretty_N. destruct (decide (N.pos p = 0%N)); [discriminate|].
    apply pretty_N_go_no_dash. simpl. apply not_elem_of_nil. }
  destruct z as [|p|p]; intros H.
  - destruct a as [|c [|c' a]]; discriminate H.
  - exfalso. apply (Hpos p). change (pretty (Z.pos p)) with (pretty (N.pos p)) in H.
    rewrite H. apply elem_of_app. right. apply elem_of_cons. now left.
  - destruct a as [|c a]; [reflexivity|]. exfalso.
    change (pretty (Z.neg p)) with (String "-" (pretty (N.pos p))) in H.
    cbn [list_ascii_of_string app] in H. injection H as _ H. apply (Hpos p).
    rewrite H. apply elem_of_app. right. apply elem_of_cons. now left.
Qed.

Lemma make_id_simple (w : Outside) (s : Z) :
  simple_ids w = true -> make_id w s = (pretty (s + 1), s + 1).
Proof. intros H. unfold make_id. now rewrite H. Qed.

Lemma make_id_uuid (w : Outside) (s : Z) :
  simple_ids w = false -> make_id w s = (uuid.str (uuid.uuid4 (urandom w)), s).
Proof. intros H. unfold make_id. now rewrite H. Qed.

Lemma make_ids_cons (w : Outside) (ws : list Outside) (s : Z) :
  make_ids (w :: ws) s
  = ((make_id w s).1 :: (make_ids ws (make_id w s).2).1,
     (make_ids ws (make_id w s).2).2).
Proof.
  cbn [make_ids]. destruct (make_id w s) as [i s1].
  cbn [fst snd]. now destruct (make_ids ws s1).
Qed.

(** X1.  Over any run of calls of [make_id], in whatever modes, the global
    counter ends at its start plus the number of simple-id calls; the ids
    made in simple-id mode are the decimal texts of the successive counter
    values (start + 1, start + 2, ...), so they are pairwise different. *)
Theorem make_id_numbering (ws : list Outside) (_simple_id : Z) :
  let ids := (make_ids ws _simple_id).1 in
  let n := length (List.filter simple_ids ws) in
  (make_ids ws _simple_id).2 = _simple_id + Z.of_nat n
  /\ length ids = length ws
  /\ simple_ids_of ws ids
     = map (fun k => pretty (_simple_id + 1 + Z.of_nat k)) (seq 0 n)
  /\ NoDup (simple_ids_of ws ids).
Proof.
  cbv zeta.
  assert (Hrun : forall ws s,
             (make_ids ws s).2 = s + Z.of_nat (length (List.filter simple_ids ws))
             /\ length (make_ids ws s).1 = length ws
             /\ simple_ids_of ws (make_ids ws s).1
                = map (fun k => pretty (s + 1 + Z.of_nat k))
                      (seq 0 (length (List.filter simple_ids ws)))).
  { clear. induction ws as [|w ws' IH]; intros s.
    - cbn. split; [lia | auto].
    - rewrite make_ids_cons. cbn [fst snd length List.filter].
      unfold simple_ids_of. cbn [zip zip_with List.filter fst].
      destruct (simple_ids w) eqn:Hw.
      + rewrite (make_id_simple w s Hw). cbn [fst snd].
        destruct (IH (s + 1)) as (H1 & H2 & H3).
        split; [rewrite H1; cbn [length]; lia|]. split; [now rewrite H2|].
        cbn [map snd length seq]. f_equal; [f_equal; lia|].
        fold (simple_ids_of ws' (make_ids ws' (s + 1)).1). rewrite H3.
        rewrite <- seq_shift, map_map. apply map_ext. intros k. f_equal. lia.
      + rewrite (make_id_uuid w s Hw). cbn [fst snd].
        destruct (IH s) as (H1 & H2 & H3).
        split; [exact H1|]. split; [now rewrite H2|]. exact H3. }
  destruct (Hrun ws _simple_id) as (H1 & H2 & H3).
  split; [exact H1|]. split; [exact H2|]. split; [exact H3|].
  rewrite H3. apply NoDup_fmap_2_strong; [|apply NoDup_seq].
  intros j k _ _ Hjk. apply (inj pretty) in Hjk. lia.
Qed.

(** The first three ids of a session in simple-id mode. *)
Example make_id_first_ids :
  make_ids (replicate 3 {| simple_ids := true; urandom := 0 |}) _simple_id_at_import
  = (["1001"; "1002"; "1003"], 1003).
Proof. vm_compute. reflexivity. Qed.

(** X2.  An id made in simple-id mode is never the id of a call in UUID
    mode, whatever the counter and the random bits; and a call in UUID mode
    leaves the counter as it was. *)
Theorem make_id_modes_apart (w1 w2 : Outside) (s1 s2 : Z) :
  simple_ids w1 = true -> simple_ids w2 = false ->
  (make_id w1 s1).1 <> (make_id w2 s2).1
  /\ (make_id w2 s2).2 = s2.
Proof.
  intros H1 H2. rewrite (make_id_simple w1 s1 H1), (make_id_uuid w2 s2 H2).
  cbn [fst snd]. split; [|reflexivity].
  intros Heq.
  destruct (uuid_str_dash (uuid.uuid4 (urandom w2))) as (a & b & Hab & Ha).
  rewrite <- Heq in Hab. apply pretty_Z_dash_first in Hab. subst a. discriminate Ha.
Qed.

Lemma make_id_modes_apart_witness :
  (make_id {| simple_ids := true; urandom := 7 |} 1000).1
  <> (make_id {| simple_ids := false; urandom := 7 |} 1000).1
  /\ (make_id {| simple_ids := false; urandom := 7 |} 1000).2 = 1000.
Proof.
  apply (make_id_modes_apart {| simple_ids := true; urandom := 7 |}
           {| simple_ids := false; urandom := 7 |} 1000 1000); reflexivity.
Defined.

(** ** Masked arrays *)

Lemma length_blocks {A} (n k : nat) (xs : list A) : length (blocks n k xs) = n.
Proof. revert xs. induction n as [|n IH]; intros xs; simpl; [reflexivity | now rewrite IH]. Qed.

Lemma blocks_full {A} (n k : nat) (xs : list A) :
  (n * k <= length xs)%nat -> Forall (fun b => length b = k) (blocks n k xs).
Proof.
  revert xs. induction n as [|n IH]; intros xs Hlen; simpl; constructor.
  - rewrite length_take. lia.
  - apply IH. rewrite length_drop. lia.
Qed.

Lemma length_raw (a : ndarray) :
  length (np.raw a) = (length (data a) / Z.to_nat (np.itemsize (dtype a)))%nat.
Proof. unfold np.raw. now rewrite length_map, length_blocks. Qed.

Lemma Zprod_nonneg (dims : list Z) : Forall (fun d => 0 <= d) dims -> 0 <= Zprod dims.
Proof.
  induction 1 as [|d dims Hd _ IH]; cbn [Zprod fold_right]; [lia|].
  fold (Zprod dims). nia.
Qed.

Lemma length_raw_valid (a : ndarray) :
  np.valid a -> length (np.raw a) = Z.to_nat (Zprod (shape a)).
Proof.
  intros [Hpos Hlen]. rewrite length_raw.
  pose proof (itemsize_pos (dtype a)) as Hk.
  pose proof (Zprod_nonneg _ Hpos) as Hp.
  assert (Hn : length (data a)
               = (Z.to_nat (Zprod (shape a)) * Z.to_nat (np.itemsize (dtype a)))%nat).
  { apply Nat2Z.inj. rewrite Hlen, Nat2Z.inj_mul, !Z2Nat.id by lia. lia. }
  rewrite Hn. apply Nat.div_mul. lia.
Qed.

Lemma nan_bits_le (dt : np_dtype) (e m : Z) :
  np.float_format dt = Some (e, m) ->
  le_to_Z (Z_to_le (Z.to_nat (np.itemsize dt)) (IEEE.nan_bits e m)) = IEEE.nan_bits e m
  /\ sanitized_item dt (IEEE.nan_bits e m) = PyStr "NaN".
Proof.
  destruct dt; try discriminate; intros [= <- <-]; split; vm_compute; reflexivity.
Qed.

Lemma zip_with_all_false {A C} (f : A -> bool -> C) (g : A -> C)
    (xs : list A) (m : list bool) :
  (forall x, f x false = g x) -> length m = length xs -> existsb id m = false ->
  zip_with f xs m = map g xs.
Proof.
  intros Hf. revert m. induction xs as [|x xs IH]; intros [|b m] Hlen Hm;
    try discriminate Hlen; [reflexivity|].
  cbn [existsb] in Hm. apply orb_false_iff in Hm as [Hb Hm].
  unfold id in Hb. subst b. cbn [zip_with map]. rewrite Hf. f_equal.
  apply IH; [simpl in Hlen; lia | exact Hm].
Qed.

Lemma map_zip_with {A B C D} (g : C -> D) (f : A -> B -> C) (xs : list A) (ys : list B) :
  map g (zip_with f xs ys) = zip_with (fun x y => g (f x y)) xs ys.
Proof.
  revert ys. induction xs as [|x xs IH]; intros [|y ys]; simpl; try reflexivity.
  now rewrite IH.
Qed.

Lemma zip_with_map_left {A A' B C} (f : A' -> B -> C) (g : A -> A')
    (xs : list A) (ys : list B) :
  zip_with f (map g xs) ys = zip_with (fun x y => f (g x) y) xs ys.
Proof.
  revert ys. induction xs as [|x xs IH]; intros [|y ys]; simpl; try reflexivity.
  now rewrite IH.
Qed.

Lemma zip_with_pointwise {A B C} (f g : A -> B -> C) (xs : list A) (ys : list B) :
  (forall x y, f x y = g x y) -> zip_with f xs ys = zip_with g xs ys.
Proof.
  intros H. revert ys. induction xs as [|x xs IH]; intros [|y ys]; simpl; try reflexivity.
  now rewrite H, IH.
Qed.

(** The buffer of a filled array. *)
Lemma filled_nan_bits (a a' : ndarray) (m : list bool) (e mb : Z) :
  np.float_format (dtype a) = Some (e, mb) ->
  length m = length (np.raw a) ->
  np.filled_nan a (Some m) = Ok a' ->
  dtype a' = dtype a /\ shape a' = shape a
  /\ np.raw a' = zip_with (filled_bits (IEEE.nan_bits e mb)) (np.raw a) m
  /\ (np.valid a -> np.valid a').
Proof.
  intros Hf Hlen. unfold np.filled_nan. rewrite Hf.
  destruct (nan_bits_le _ _ _ Hf) as [Hle Hnan].
  destruct (np.any m) eqn:Hany; intros [= <-].
  - split; [reflexivity|]. split; [reflexivity|].
    unfold np.raw at 1, np.valid. cbn [dtype data shape].
    set (k := Z.to_nat (np.itemsize (dtype a))) in *.
    set (n := (length (data a) / k)%nat).
    assert (Hk : (0 < k)%nat).
    { subst k. pose proof (itemsize_pos (dtype a)). lia. }
    match goal with |- context [concat ?c] => set (chunks := c) end.
    assert (Hn : length chunks = n).
    { subst chunks. rewrite length_zip_with, length_blocks, Hlen, length_raw.
      fold k. fold n. lia. }
    assert (Hall : Forall (fun b => length b = k) chunks).
    { subst chunks.
      assert (Hb : Forall (fun b => length b = k) (blocks n k (data a))).
      { apply blocks_full. subst n. rewrite Nat.mul_comm. apply Nat.Div0.mul_div_le. }
      clearbody n. clear -Hb. revert m.
      induction Hb as [|b bs Hb _ IH]; intros [|h m]; simpl; constructor; auto.
      destruct h; [apply length_Z_to_le | exact Hb]. }
    rewrite (length_concat_uniform k chunks Hall), Hn.
    replace (k * n / k)%nat with n by (rewrite Nat.mul_comm, Nat.div_mul; lia).
    split.
    + rewrite <- Hn, (blocks_concat k chunks Hall). subst chunks.
      rewrite map_zip_with. unfold np.raw. fold k. fold n.
      rewrite zip_with_map_left. apply zip_with_pointwise.
      intros blk [|]; unfold filled_bits; [|reflexivity].
      fold k in Hle. exact Hle.
    + intros [Hpos Hdata]. split; [exact Hpos|]. rewrite <- Hdata.
      pose proof (length_raw_valid a (conj Hpos Hdata)) as Hraw.
      rewrite length_raw in Hraw. fold k in Hraw. fold n in Hraw.
      pose proof (Zprod_nonneg _ Hpos) as Hp.
      pose proof (itemsize_pos (dtype a)) as Hi.
      rewrite Hdata, Nat2Z.inj_mul, Hraw. subst k. rewrite !Z2Nat.id by lia. reflexivity.
  - split; [reflexivity|]. split; [reflexivity|]. split; [|auto].
    symmetry. rewrite <- (map_id (np.raw a)) at 2.
    apply zip_with_all_false; [reflexivity | exact Hlen | exact Hany].
Qed.

(** The elements of a filled array, as the list path exports them. *)
Lemma raw_filled_nan (a a' : ndarray) (m : list bool) (e mb : Z) :
  np.float_format (dtype a) = Some (e, mb) ->
  length m = length (np.raw a) ->
  np.filled_nan a (Some m) = Ok a' ->
  dtype a' = dtype a /\ shape a' = shape a
  /\ map (sanitized_item (dtype a)) (np.raw a')
     = zip_with (masked_item (dtype a)) (np.raw a) m.
Proof.
  intros Hf Hlen Hfill.
  destruct (filled_nan_bits a a' m e mb Hf Hlen Hfill) as (Edt & Esh & Eraw & _).
  destruct (nan_bits_le _ _ _ Hf) as [_ Hnan].
  split; [exact Edt|]. split; [exact Esh|].
  rewrite Eraw, map_zip_with. apply zip_with_pointwise.
  intros x [|]; unfold filled_bits, masked_item; [exact Hnan | reflexivity].
Qed.

(** X3.  A masked array of floats that takes the list path exports "NaN"
    at every masked position; an unmasked position exports as in a plain
    array (its value, or the sentinel of its non-finite value). *)
Theorem serialize_array_masked
    (settings : Settings) (a : ndarray) (m : list bool) (e mb : Z)
    (force_list : bool) :
  np.float_format (dtype a) = Some (e, mb) ->
  length m = length (np.raw a) ->
  list_path settings a force_list = true ->
  serialize_array settings (Masked a (Some m)) force_list
  = Ok (np.nest (shape a) (zip_with (masked_item (dtype a)) (np.raw a) m)).
Proof.
  intros Hf Hlen Hpath. unfold serialize_array.
  destruct (np.filled_nan a (Some m)) as [a'|err] eqn:Hfill.
  - destruct (raw_filled_nan a a' m e mb Hf Hlen Hfill) as (Hdt & Hsh & Hraw).
    rewrite bind_Ok, encoding_disabled_list_path.
    unfold list_path in Hpath |- *. rewrite Hdt, Hsh, Hpath.
    rewrite transform_array_to_list_items. now rewrite Hdt, Hsh, Hraw.
  - unfold np.filled_nan in Hfill. rewrite Hf in Hfill.
    destruct (np.any m); discriminate Hfill.
Qed.

Lemma serialize_array_masked_witness :
  serialize_array Sample.settings Cases.masked_square true
  = Ok (PyList [PyList [PyFloat (S754_finite false 4503599627370496 (-52)); PyStr "NaN"];
                PyList [PyStr "NaN"; PyStr "-Infinity"]]).
Proof.
  exact (serialize_array_masked Sample.settings Sample.square
           [false; false; true; false] 11 52 true eq_refl eq_refl eq_refl).
Defined.

Lemma serialize_array_raises_iff settings (x : array) (force_list : bool) :
  match serialize_array settings x force_list with
  | Ok _ => fillable x = true
  | Raise e => fillable x = false /\ e = TypeError
  end.
Proof.
  unfold serialize_array. destruct x as [a|a [m|]].
  - rewrite bind_Ok. now destruct (encoding_disabled settings a || force_list).
  - unfold np.filled_nan, fillable.
    destruct (np.float_format (dtype a)) as [[e mb]|] eqn:Hf.
    + assert (Hd : bool_decide (is_Some (Some (e, mb))) = true)
        by (apply bool_decide_eq_true_2; eauto).
      rewrite Hd.
      destruct (np.any m); rewrite bind_Ok;
        match goal with |- context [if ?c then _ else _] => destruct c end; reflexivity.
    + rewrite bind_Raise. split; [|reflexivity].
      apply bool_decide_eq_false_2. intros [? ?]; discriminate.
  - cbn [np.filled_nan]. rewrite bind_Ok.
    now destruct (encoding_disabled settings a || force_list).
Qed.

(** X4.  [transform_array] returns on every array except a masked array
    that has a mask and whose elements are integers: plain arrays of every
    dtype, unmasked and float masked arrays, and masked temporal arrays
    (made floats before they are filled) all give a result.  When it
    raises, the exception is the one of [filled]; in particular [array] is
    never left unbound, the datetime probe being false. *)
Theorem transform_array_raises_iff (settings : Settings) (x : array) (force_list : bool) :
  match transform_array settings x force_list with
  | Ok _ => nan_storable x = true
  | Raise e => nan_storable x = false /\ e <> UnboundLocalError
  end.
Proof.
  unfold transform_array. rewrite legacy_datetime64_false.
  destruct (Ascii.eqb (np.kind (dtype (np.base x))) "M") eqn:HM;
    [|destruct (Ascii.eqb (np.kind (dtype (np.base x))) "m") eqn:Hm];
    rewrite bind_Ok.
  - match goal with |- context [serialize_array _ ?y _] =>
      pose proof (serialize_array_raises_iff settings y force_list) as H;
      assert (Hfill : fillable y = true) by (now apply fillable_float64)
    end.
    destruct (serialize_array _ _ _) as [v|err].
    + destruct x as [a|a [m|]]; try reflexivity. cbn [nan_storable np.base] in *.
      now rewrite HM, orb_true_r.
    + destruct H as [H _]. congruence.
  - match goal with |- context [serialize_array _ ?y _] =>
      pose proof (serialize_array_raises_iff settings y force_list) as H;
      assert (Hfill : fillable y = true) by (now apply fillable_float64)
    end.
    destruct (serialize_array _ _ _) as [v|err].
    + destruct x as [a|a [m|]]; try reflexivity. cbn [nan_storable np.base] in *.
      now rewrite Hm, orb_true_r.
    + destruct H as [H _]. congruence.
  - pose proof (serialize_array_raises_iff settings x force_list) as H.
    destruct (serialize_array settings x force_list) as [v|err].
    + destruct x as [a|a [m|]]; try reflexivity. cbn [nan_storable fillable] in *.
      now rewrite H.
    + destruct H as [H ->]. split; [|discriminate].
      destruct x as [a|a [m|]]; try discriminate H. cbn [nan_storable fillable np.base] in *.
      now rewrite H, HM, Hm.
Qed.

(** A masked [int32] array raises; the same data as [float32] is exported. *)
Example transform_array_masked_integers :
  transform_array Sample.settings
    (Masked {| dtype := int32; shape := [1];
               data := [Byte.x01; Byte.x00; Byte.x00; Byte.x00];
               c_contiguous := true |} (Some [false])) true
  = Raise TypeError
  /\ transform_array Sample.settings
       (Masked {| dtype := float32; shape := [1];
                  data := [Byte.x00; Byte.x00; Byte.x80; Byte.x3f];
                  c_contiguous := true |} (Some [true])) true
     = Ok (PyList [PyStr "NaN"]).
Proof. split; vm_compute; reflexivity. Qed.

(** ** Not-a-time *)

Lemma to_milliseconds_export (to_us : Z -> Z) (a : ndarray) :
  transform_array_to_list (to_milliseconds to_us a)
  = np.nest (shape a) (map (exported_ms to_us) (np.counts a)).
Proof.
  rewrite transform_array_to_list_items. unfold to_milliseconds.
  rewrite raw_of_words by reflexivity. cbn [shape dtype np.of_words].
  now rewrite !map_map.
Qed.

(** X5.  On the list path a plain datetime or timedelta array exports,
    element by element, the float of its microsecond count divided by
    1000 ([exported_ms]); a NaT element (the smallest int64, kept by the unit
    cast) is not recognised as missing: it exports as the finite float
    -9223372036854776.0, whatever the unit of the array. *)
Theorem transform_array_not_a_time
    (settings : Settings) (u : time_unit) (dims : list Z) (buf : list byte)
    (contiguous : bool) :
  let stamps := {| dtype := datetime64 u; shape := dims; data := buf;
                   c_contiguous := contiguous |} in
  let spans := {| dtype := timedelta64 u; shape := dims; data := buf;
                  c_contiguous := contiguous |} in
  transform_array settings (Plain stamps) true
  = Ok (np.nest dims (map (exported_ms (np.cast_datetime u Unit_us)) (np.counts stamps)))
  /\ transform_array settings (Plain spans) true
     = Ok (np.nest dims (map (exported_ms (np.cast_timedelta u Unit_us)) (np.counts spans)))
  /\ exported_ms (np.cast_datetime u Unit_us) int64_min
     = PyFloat (S754_finite true 4611686018427388 1)
  /\ exported_ms (np.cast_timedelta u Unit_us) int64_min
     = PyFloat (S754_finite true 4611686018427388 1).
Proof.
  intros stamps spans. split; [|split; [|split]].
  - unfold transform_array. rewrite legacy_datetime64_false.
    change (dtype (np.base (Plain stamps))) with (datetime64 u).
    change (Ascii.eqb (np.kind (datetime64 u)) "M") with true.
    cbv iota. rewrite bind_Ok. unfold np.lift.
    rewrite (normalize_datetime u stamps eq_refl).
    unfold serialize_array. rewrite bind_Ok, orb_true_r.
    now rewrite to_milliseconds_export.
  - unfold transform_array.
    change (dtype (np.base (Plain spans))) with (timedelta64 u).
    change (Ascii.eqb (np.kind (timedelta64 u)) "M") with false.
    change (Ascii.eqb (np.kind (timedelta64 u)) "m") with true.
    cbv iota. rewrite bind_Ok. unfold np.lift.
    rewrite (normalize_timedelta u spans eq_refl).
    unfold serialize_array. rewrite bind_Ok, orb_true_r.
    now rewrite to_milliseconds_export.
  - unfold exported_ms, np.cast_datetime.
    rewrite Z.eqb_refl. vm_compute. reflexivity.
  - unfold exported_ms, np.cast_timedelta.
    rewrite Z.eqb_refl. vm_compute. reflexivity.
Qed.

(** [np.array(['NaT'], dtype='datetime64[ns]')] *)
Example transform_array_nat_ns :
  transform_array Sample.settings (Plain (Sample.one_ms Unit_ns int64_min)) true
  = Ok (PyList [PyFloat (S754_finite true 4611686018427388 1)]).
Proof. vm_compute. reflexivity. Qed.

(** ** Columns that are not sequences of numbers *)

Section Raises.

Variable f : pyval -> result pyval.
Variable P : exn -> Prop.

(** A loop over the entries raises what one of its turns raises. *)
Lemma loop_raises (l : list (string * pyval)) (m0 : gmap string pyval) (e : exn) :
  Forall (fun kv => forall e, f kv.2 = Raise e -> P e) l ->
  fold_left (fun acc kv => out ← acc; v ← f kv.2; Ok (<[kv.1 := v]> out)) l (Ok m0)
  = Raise e ->
  P e.
Proof.
  intros Hall. revert m0.
  induction Hall as [|[k v] l Hv _ IH]; intros m0 Hrun; [discriminate Hrun|].
  cbn [fold_left] in Hrun. rewrite bind_Ok in Hrun. cbn [fst snd] in Hv, Hrun.
  destruct (f v) as [v'|e'] eqn:Ef.
  - rewrite bind_Ok in Hrun. now apply (IH _ Hrun).
  - rewrite bind_Raise, loop_Raise in Hrun. injection Hrun as <-. now apply Hv.
Qed.

End Raises.

Lemma transform_column_scalar settings (v : pyval) :
  is_scalar v = true -> transform_column settings v = Raise TypeError.
Proof. destruct v; try discriminate; reflexivity. Qed.

Lemma iter_payload_fillable (v : pyval) (items : list pyval) :
  arrays_fillable v = true -> iter_payload v = Ok items ->
  forallb arrays_fillable items = true.
Proof.
  destruct v as [|b|n|f|s|dt count|l|l|d|a|values]; try discriminate;
    cbn [iter_payload arrays_fillable]; intros Hv [= <-]; try exact Hv.
  - induction (list_ascii_of_string s) as [|c cs IH]; simpl; auto.
  - induction (map_to_list d) as [|kv kvs IH]; simpl; auto.
Qed.

Lemma transform_column_raises settings (v : pyval) (e : exn) :
  arrays_fillable v = true -> transform_column settings v = Raise e -> e = TypeError.
Proof.
  intros Hv Hrun.
  assert (Hseq : forall r : result (list pyval),
             (forall items, r = Ok items -> forallb arrays_fillable items = true) ->
             (forall e', r = Raise e' -> e' = TypeError) ->
             (items ← r; PyList <$> traverse_data settings is_numpy true items) = Raise e ->
             e = TypeError).
  { intros [items|e'] Hok Hraise H.
    - rewrite bind_Ok in H.
      destruct (traverse_data_returns settings is_numpy true items (Hok _ eq_refl))
        as [out Hout].
      rewrite Hout in H. discriminate H.
    - rewrite bind_Raise in H. injection H as <-. now apply Hraise. }
  destruct v as [|b|n|f|s|dt count|l|l|d|a|values];
    cbn [transform_column] in Hrun;
    try (apply (Hseq _ (fun items => iter_payload_fillable _ items Hv)) in Hrun;
         [exact Hrun | cbn [iter_payload]; intros e' [= <-]; reflexivity
                       || (intros e' He'; discriminate He')]).
  - destruct (transform_array_returns settings a false Hv) as [out Hout].
    rewrite Hout in Hrun. discriminate Hrun.
  - unfold transform_series in Hrun.
    destruct (transform_array_returns settings values false Hv) as [out Hout].
    rewrite Hout in Hrun. discriminate Hrun.
Qed.

(** X6.  A column set with a column whose value is a bare scalar ([None],
    a bool, an int, a float, a date or time object) is not encoded: the
    call raises, since [traverse_data] iterates over the value.  When in
    addition every array of the column set can be filled, the exception
    is [TypeError]. *)
Theorem transform_column_source_data_scalar_column
    (settings : Settings) (data : gmap string pyval) (key : string) (v : pyval) :
  data !! key = Some v -> is_scalar v = true ->
  (exists e, transform_column_source_data settings data = Raise e)
  /\ ((forall k x, data !! k = Some x -> arrays_fillable x = true) ->
      transform_column_source_data settings data = Raise TypeError).
Proof.
  intros Hkey Hv.
  assert (Hraise : exists e, transform_column_source_data settings data = Raise e).
  { destruct (transform_column_source_data settings data) as [m|e] eqn:Hrun; [|eauto].
    exfalso. unfold transform_column_source_data in Hrun.
    rewrite (loop_spec (transform_column settings)) in Hrun.
    specialize (Hrun key). rewrite Hkey in Hrun. destruct Hrun as (v' & Hv' & _).
    rewrite (transform_column_scalar settings v Hv) in Hv'. discriminate Hv'. }
  split; [exact Hraise|]. intros Hfill. destruct Hraise as [e He]. rewrite He. f_equal.
  unfold transform_column_source_data in He.
  apply (loop_raises (transform_column settings) (fun e => e = TypeError)) in He;
    [exact He|].
  apply Forall_forall. intros [k x] Hkx e' He'. cbn [snd] in He'.
  apply elem_of_map_to_list in Hkx. apply Hfill in Hkx.
  now apply (transform_column_raises settings x).
Qed.

Lemma transform_column_source_data_scalar_column_witness :
  (exists e, transform_column_source_data Sample.settings Cases.scalar_columns = Raise e)
  /\ ((forall k x, Cases.scalar_columns !! k = Some x -> arrays_fillable x = true) ->
      transform_column_source_data Sample.settings Cases.scalar_columns
      = Raise TypeError).
Proof.
  apply (transform_column_source_data_scalar_column Sample.settings
           Cases.scalar_columns "n" (PyInt 3)); reflexivity.
Defined.

(** A sequence of strings goes through [traverse_data] as it is. *)
Lemma traverse_data_strings settings (numpy use_numpy : bool) (texts : list string) :
  traverse_data settings numpy use_numpy (map PyStr texts) = Ok (map PyStr texts).
Proof.
  unfold traverse_data.
  assert (Hslow : mapM (traverse_item settings) (map PyStr texts) = Ok (map PyStr texts)).
  { rewrite <- (map_id (map PyStr texts)) at 2. apply mapM_Ok_Forall.
    apply Forall_map, Forall_forall. intros s _. reflexivity. }
  destruct texts as [|s texts]; [now destruct (numpy && use_numpy)|].
  cbn [map forallb is_ndarray andb]. rewrite andb_false_r. exact Hslow.
Qed.

(** X7.  A column whose value is a string is encoded as the list of its
    characters, and a column whose value is a dict as a list of its keys
    (each key once, the values dropped): [traverse_data] iterates over
    whatever it is given. *)
Theorem transform_column_source_data_text_column
    (settings : Settings) (data wire : gmap string pyval) :
  transform_column_source_data settings data = Ok wire ->
  (forall key text,
      data !! key = Some (PyStr text) ->
      wire !! key
      = Some (PyList (map (fun c => PyStr (String c EmptyString))
                          (list_ascii_of_string text))))
  /\ (forall key d,
         data !! key = Some (PyDict d) ->
         exists keys,
           wire !! key = Some (PyList (map PyStr keys))
           /\ NoDup keys
           /\ forall k, k ∈ keys <-> is_Some (d !! k)).
Proof.
  unfold transform_column_source_data.
  rewrite (loop_spec (transform_column settings)). intros Hrun.
  split; intros key x Hkey; specialize (Hrun key); rewrite Hkey in Hrun;
    destruct Hrun as (v' & Hv' & ->);
    cbn [transform_column iter_payload] in Hv'; rewrite bind_Ok in Hv'.
  - rewrite <- (map_map (fun c => String c EmptyString) PyStr) in Hv' |- *.
    rewrite traverse_data_strings, fmap_Ok in Hv'. now injection Hv' as <-.
  - rewrite <- (map_map fst PyStr) in Hv'.
    rewrite traverse_data_strings, fmap_Ok in Hv'. injection Hv' as <-.
    exists (map fst (map_to_list x)). split; [reflexivity|]. split.
    + apply NoDup_fst_map_to_list.
    + intros k. change (map fst (map_to_list x)) with ((map_to_list x).*1).
      rewrite list_elem_of_fmap. split.
      * intros ([k' v] & -> & Hkv). apply elem_of_map_to_list in Hkv. eauto.
      * intros [v Hv]. exists (k, v). split; [reflexivity|].
        now apply elem_of_map_to_list.
Qed.

Lemma transform_column_source_data_text_column_witness :
  (forall key text,
      Cases.text_columns !! key = Some (PyStr text) ->
      ({[ "t" := PyList [PyStr "a"; PyStr "b"];
          "d" := PyList [PyStr "p"] ]} : gmap string pyval) !! key
      = Some (PyList (map (fun c => PyStr (String c EmptyString))
                          (list_ascii_of_string text))))
  /\ (forall key d,
         Cases.text_columns !! key = Some (PyDict d) ->
         exists keys,
           ({[ "t" := PyList [PyStr "a"; PyStr "b"];
               "d" := PyList [PyStr "p"] ]} : gmap string pyval) !! key
           = Some (PyList (map PyStr keys))
           /\ NoDup keys
           /\ forall k, k ∈ keys <-> is_Some (d !! k)).
Proof.
  apply (transform_column_source_data_text_column Sample.settings Cases.text_columns).
  vm_compute. reflexivity.
Defined.

(** ** When a column set is encoded *)

Lemma transform_column_returns settings (v : pyval) :
  is_scalar v = false -> arrays_fillable v = true ->
  exists w, transform_column settings v = Ok w.
Proof.
  intros Hs Hv.
  destruct v as [|b|n|f|s|dt count|l|l|d|a|values]; try discriminate Hs;
    cbn [transform_column transform_series];
    try (now apply transform_array_returns);
    (destruct (iter_payload _) as [items|] eqn:Hit; [|discriminate Hit]);
    rewrite bind_Ok;
    destruct (traverse_data_returns settings is_numpy true items
                (iter_payload_fillable _ items Hv Hit)) as [out ->];
    eauto.
Qed.

(** X20.  Provided every array of the column set can be filled, the
    encoder returns a mapping exactly when no column is a bare scalar:
    strings, dicts, lists, tuples, arrays and series are all taken (the
    interpreter's recursion limit aside, which the store embedding
    accounts for). *)
Theorem column_set_encodes_iff (settings : Settings) (data : gmap string pyval) :
  (forall k x, data !! k = Some x -> arrays_fillable x = true) ->
  (exists wire, transform_column_source_data settings data = Ok wire)
  <-> (forall k v, data !! k = Some v -> is_scalar v = false).
Proof.
  intros Hfill. unfold transform_column_source_data. split.
  - intros [wire Hrun] k v Hk.
    rewrite (loop_spec (transform_column settings)) in Hrun.
    specialize (Hrun k). rewrite Hk in Hrun. destruct Hrun as (v' & Hv' & _).
    destruct (is_scalar v) eqn:Hs; [|reflexivity].
    rewrite (transform_column_scalar settings v Hs) in Hv'. discriminate Hv'.
  - intros Hs. apply loop_returns, Forall_forall. intros [k v] Hkv.
    apply elem_of_map_to_list in Hkv. cbn [snd].
    apply transform_column_returns; [now apply (Hs k) | now apply (Hfill k)].
Qed.

Lemma column_set_encodes_iff_witness :
  (exists wire, transform_column_source_data Sample.settings Cases.iterable_columns
                = Ok wire)
  <-> (forall k v, Cases.iterable_columns !! k = Some v -> is_scalar v = false).
Proof.
  apply (column_set_encodes_iff Sample.settings Cases.iterable_columns).
  intros k x Hk.
  destruct (decide (k = "s")) as [->|Hs]; [|destruct (decide (k = "l")) as [->|Hl];
    [|destruct (decide (k = "a")) as [->|Ha]]].
  - injection Hk as <-. reflexivity.
  - injection Hk as <-. reflexivity.
  - injection Hk as <-. reflexivity.
  - unfold Cases.iterable_columns in Hk.
    rewrite !lookup_insert_ne, lookup_singleton_ne in Hk by congruence. discriminate Hk.
Defined.

(** ** Encoding, then decoding, a column set *)

Lemma eligible_round_trip (settings : Settings) (a : ndarray) :
  eligible settings a ->
  exists d, transform_array settings (Plain a) false = Ok (PyDict d)
            /\ d !! "__ndarray__" <> None
            /\ decode_base64_dict d = Ok (as_decoded a).
Proof.
  intros (Hv & Hsh & Hb & Hdt & Hcut).
  destruct (whitelisted_not_temporal _ Hdt) as [HM Hm].
  rewrite (transform_array_not_temporal settings (Plain a) false HM Hm).
  rewrite serialize_array_plain, (list_path_binary settings a Hb Hdt Hcut).
  set (a' := if c_contiguous a then a else np.ascontiguousarray a).
  assert (Ha' : dtype a' = dtype a /\ shape a' = shape a /\ data a' = data a)
    by (subst a'; destruct (c_contiguous a); auto).
  destruct Ha' as (Edt & Esh & Edata).
  assert (Hv' : np.valid a') by (unfold np.valid; now rewrite Edt, Esh, Edata).
  unfold encode_base64_dict at 1.
  eexists. split; [reflexivity|]. split.
  - rewrite envelope_lookup_ndarray. discriminate.
  - rewrite (decode_encode_base64_dict a'); [| exact Hv' | congruence | reflexivity].
    unfold as_decoded. now rewrite Edt, Esh, Edata.
Qed.

Lemma decode_envelope (d : gmap string pyval) (a : ndarray) :
  d !! "__ndarray__" <> None -> decode_base64_dict d = Ok a ->
  decode_column (PyDict d) = Ok (PyArray (Plain a))
  /\ (if bool_decide (is_Some (d !! "__ndarray__"))
      then (fun a => PyArray (Plain a)) <$> decode_base64_dict d
      else Ok (PyDict d)) = Ok (PyArray (Plain a)).
Proof.
  intros Hmark Hdec. cbn [decode_column].
  rewrite bool_decide_eq_true_2 by (destruct (d !! "__ndarray__"); [eauto | contradiction]).
  now rewrite Hdec.
Qed.

Lemma binary_items_round_trip (settings : Settings) (items : list pyval) :
  Forall (fun el => exists a, el = PyArray (Plain a) /\ eligible settings a) items ->
  exists wire,
    traverse_data settings is_numpy true items = Ok wire
    /\ decode_column (PyList wire) = Ok (PyList (map element_as_decoded items)).
Proof.
  intros Hall.
  assert (Harr : forallb is_ndarray items = true).
  { apply forallb_forall. intros el Hel. rewrite Forall_forall in Hall.
    apply list_elem_of_In in Hel. destruct (Hall el Hel) as (a & -> & _). reflexivity. }
  unfold traverse_data. rewrite Harr. cbn [is_numpy andb]. clear Harr.
  unfold transform_each, decode_column.
  induction Hall as [|el items (a & -> & Ha) _ (wire & Hwire & Hdec)].
  - exists []. split; reflexivity.
  - destruct (eligible_round_trip settings a Ha) as (d & Henc & Hmark & Hd).
    exists (PyDict d :: wire). cbn [mapM map element_as_decoded].
    rewrite Henc, Hwire. split; [reflexivity|].
    destruct (decode_envelope d _ Hmark Hd) as [_ ->].
    apply fmap_Ok_inv in Hdec as (out & -> & [= <-]). reflexivity.
Qed.

Lemma binary_column_round_trip (settings : Settings) (v : pyval) :
  binary_column settings v ->
  exists w, transform_column settings v = Ok w
            /\ decode_column w = Ok (column_as_decoded v).
Proof.
  destruct v as [|b|n|f|s|dt count|items|items|d|[a|a m]|[a|a m]]; try contradiction;
    cbn [binary_column column_as_decoded transform_column transform_series iter_payload];
    intros Hv.
  - destruct (binary_items_round_trip settings items Hv) as (wire & Hwire & Hdec).
    exists (PyList wire). rewrite bind_Ok, Hwire. split; [reflexivity | exact Hdec].
  - destruct (binary_items_round_trip settings items Hv) as (wire & Hwire & Hdec).
    exists (PyList wire). rewrite bind_Ok, Hwire. split; [reflexivity | exact Hdec].
  - destruct (eligible_round_trip settings a Hv) as (d & Henc & Hmark & Hd).
    exists (PyDict d). split; [exact Henc|]. now apply decode_envelope.
  - destruct (eligible_round_trip settings a Hv) as (d & Henc & Hmark & Hd).
    exists (PyDict d). split; [exact Henc|]. now apply decode_envelope.
Qed.

Section Compose.

Variables f g : pyval -> result pyval.
Variable h : pyval -> pyval.
Variable data : gmap string pyval.

Hypothesis Hcol :
  forall k v, data !! k = Some v -> exists w, f v = Ok w /\ g w = Ok (h v).

(** Two loops over the entries, the second over the result of the first. *)
Lemma loops_compose :
  exists wire,
    fold_left (fun acc kv => out ← acc; v ← f kv.2; Ok (<[kv.1 := v]> out))
              (map_to_list data) (Ok ∅) = Ok wire
    /\ (forall k, wire !! k = None <-> data !! k = None)
    /\ (forall k v w, data !! k = Some v -> f v = Ok w -> wire !! k = Some w)
    /\ fold_left (fun acc kv => out ← acc; v ← g kv.2; Ok (<[kv.1 := v]> out))
                 (map_to_list wire) (Ok ∅) = Ok (h <$> data).
Proof.
  destruct (loop_returns f (map_to_list data) ∅) as [wire Hwire].
  { apply Forall_forall. intros [k v] Hkv. apply elem_of_map_to_list in Hkv.
    destruct (Hcol k v Hkv) as (w & Hw & _). eauto. }
  exists wire. split; [exact Hwire|].
  pose proof (proj1 (loop_spec f data wire) Hwire) as Hspec.
  split; [|split].
  - intros k. specialize (Hspec k). destruct (data !! k) as [v|].
    + destruct Hspec as (v' & _ & ->). split; discriminate.
    + now rewrite Hspec.
  - intros k v w Hk Hw. specialize (Hspec k). rewrite Hk in Hspec.
    destruct Hspec as (v' & Hv' & ->). congruence.
  - apply (loop_spec g wire (h <$> data)). intros k. specialize (Hspec k).
    rewrite lookup_fmap. destruct (data !! k) as [v|] eqn:Hk.
    + destruct Hspec as (w & Hw & ->).
      destruct (Hcol k v Hk) as (w' & Hw' & Hg).
      assert (w' = w) by congruence. subst w'. exists (h v). auto.
    + now rewrite Hspec.
Qed.

End Compose.

(** X8.  A column set in which every column is an eligible plain array,
    a series of one, or a list or tuple of eligible plain arrays is
    encoded, and decoding the result gives the arrays back key by key,
    with their dtype, shape and bytes: a series comes back as the array of its values, and a
    tuple of arrays as a list of arrays. *)
Theorem column_data_round_trip (settings : Settings) (data : gmap string pyval) :
  (forall k v, data !! k = Some v -> binary_column settings v) ->
  exists wire,
    transform_column_source_data settings data = Ok wire
    /\ decode_column_data wire = Ok (column_as_decoded <$> data).
Proof.
  intros Hdata.
  destruct (loops_compose (transform_column settings) decode_column column_as_decoded data)
    as (wire & Henc & _ & _ & Hdec).
  - intros k v Hk. apply binary_column_round_trip. now apply (Hdata k).
  - exists wire. split; [exact Henc | exact Hdec].
Qed.

Lemma eligible_bytes3 : eligible Sample.settings Cases.bytes3.
Proof.
  split; [split; [repeat constructor; lia | reflexivity]|].
  split; [discriminate|]. split; [reflexivity|].
  split; [apply list_elem_of_In; simpl; auto | vm_compute; discriminate].
Qed.

Lemma eligible_square : eligible Sample.settings Sample.square.
Proof.
  split; [split; [repeat constructor; lia | reflexivity]|].
  split; [discriminate|]. split; [reflexivity|].
  split; [apply list_elem_of_In; simpl; auto | vm_compute; discriminate].
Qed.

Lemma column_data_round_trip_witness :
  exists wire,
    transform_column_source_data Sample.settings Cases.binary_columns = Ok wire
    /\ decode_column_data wire = Ok (column_as_decoded <$> Cases.binary_columns).
Proof.
  apply (column_data_round_trip Sample.settings Cases.binary_columns).
  intros k v Hk.
  destruct (decide (k = "a")) as [->|Ha]; [|destruct (decide (k = "b")) as [->|Hb]].
  - injection Hk as <-. exact eligible_bytes3.
  - injection Hk as <-. repeat constructor.
    + exists Sample.square. split; [reflexivity | exact eligible_square].
    + exists Cases.bytes3. split; [reflexivity | exact eligible_bytes3].
  - unfold Cases.binary_columns in Hk.
    rewrite lookup_insert_ne, lookup_singleton_ne in Hk by congruence. discriminate Hk.
Defined.

(** *** Sentinels stay *)

Lemma is_envelope_sanitize_tree (v : pyval) :
  is_envelope (sanitize_tree v) = is_envelope v.
Proof.
  destruct v as [|b|n|f|s|dt count|items|items|d|a|values]; try reflexivity.
  now destruct f as [| [|] | |].
Qed.

Lemma decode_plain_items (items : list pyval) :
  forallb (fun x => negb (is_envelope x)) items = true ->
  decode_column (PyList items) = Ok (PyList items).
Proof.
  intros Hall. cbn [decode_column].
  rewrite (mapM_Ok_Forall _ id); [now rewrite map_id|].
  apply Forall_forall. intros el Hel. rewrite forallb_forall in Hall.
  apply list_elem_of_In, Hall, negb_true_iff in Hel.
  destruct el; try reflexivity. cbn [is_envelope] in Hel. now rewrite Hel.
Qed.

(** The traversal of a sequence without runs of arrays. *)
Lemma traverse_data_plain (settings : Settings) (numpy use_numpy : bool)
    (datum : list pyval) :
  no_array_run (PyList datum) = true ->
  traverse_data settings numpy use_numpy datum = Ok (map sanitize_tree datum).
Proof.
  cbn [no_array_run]. intros H. apply andb_true_iff in H as [Hrun Hall].
  unfold traverse_data. destruct datum as [|x datum].
  - now destruct (numpy && use_numpy).
  - apply negb_true_iff in Hrun. rewrite Hrun, andb_false_r.
    apply mapM_Ok_Forall, Forall_forall. intros y Hy.
    apply traverse_item_plain_tree. rewrite forallb_forall in Hall.
    apply Hall. now apply list_elem_of_In.
Qed.

Lemma plain_column_round_trip (settings : Settings) (v : pyval) :
  plain_column v = true ->
  transform_column settings v = Ok (sanitize_tree v)
  /\ decode_column (sanitize_tree v) = Ok (sanitize_tree v).
Proof.
  assert (Hseq : forall items,
             no_array_run (PyList items) = true ->
             forallb (fun x => negb (is_envelope x)) items = true ->
             (items' ← Ok items; PyList <$> traverse_data settings is_numpy true items')
             = Ok (PyList (map sanitize_tree items))
             /\ decode_column (PyList (map sanitize_tree items))
                = Ok (PyList (map sanitize_tree items))).
  { intros items Hrun Henv.
    rewrite bind_Ok, (traverse_data_plain settings is_numpy true items Hrun).
    split; [reflexivity|]. apply decode_plain_items.
    rewrite forallb_forall in Henv |- *. intros y Hy.
    apply in_map_iff in Hy as (x & <- & Hx).
    rewrite is_envelope_sanitize_tree. now apply Henv. }
  destruct v as [|b|n|f|s|dt count|items|items|d|a|values]; try discriminate;
    cbn [plain_column]; intros H; apply andb_true_iff in H as [Hrun Henv];
    apply (Hseq items); auto.
Qed.

(** X9.  For a column set of lists and tuples that hold no run of arrays
    and no envelope-shaped dict, encoding gives the same nesting with
    lists for tuples and the sentinel strings for NaN and the infinities,
    and decoding gives that encoded form back unchanged: the sentinels are
    not turned back into floats, nor the lists into tuples. *)
Theorem sentinels_survive_decoding (settings : Settings) (data : gmap string pyval) :
  (forall k v, data !! k = Some v -> plain_column v = true) ->
  transform_column_source_data settings data = Ok (sanitize_tree <$> data)
  /\ decode_column_data (sanitize_tree <$> data) = Ok (sanitize_tree <$> data).
Proof.
  intros Hdata.
  destruct (loops_compose (transform_column settings) decode_column sanitize_tree data)
    as (wire & Henc & Hnone & Hsome & Hdec).
  { intros k v Hk. exists (sanitize_tree v).
    now apply plain_column_round_trip, (Hdata k). }
  assert (Hwire : wire = sanitize_tree <$> data).
  { apply map_eq. intros k. rewrite lookup_fmap.
    destruct (data !! k) as [v|] eqn:Hk.
    - apply (Hsome k v); [exact Hk|].
      now apply plain_column_round_trip, (Hdata k).
    - now apply Hnone. }
  subst wire. split; [exact Henc | exact Hdec].
Qed.

Lemma sentinels_survive_decoding_witness :
  transform_column_source_data Sample.settings Cases.plain_columns
  = Ok (sanitize_tree <$> Cases.plain_columns)
  /\ decode_column_data (sanitize_tree <$> Cases.plain_columns)
     = Ok (sanitize_tree <$> Cases.plain_columns).
Proof.
  apply (sentinels_survive_decoding Sample.settings Cases.plain_columns).
  intros k v Hk.
  destruct (decide (k = "x")) as [->|Hx]; [|destruct (decide (k = "y")) as [->|Hy]].
  - injection Hk as <-. reflexivity.
  - injection Hk as <-. reflexivity.
  - unfold Cases.plain_columns in Hk.
    rewrite lookup_insert_ne, lookup_singleton_ne in Hk by congruence. discriminate Hk.
Defined.

Example sentinels_survive_decoding_columns :
  decode_column_data (sanitize_tree <$> Cases.plain_columns)
  = Ok {[ "x" := PyList [Sample.py_float 1; PyStr "NaN";
                         PyList [PyStr "Infinity"; PyStr "NaN"]];
          "y" := PyList [] ]}.
Proof. vm_compute. reflexivity. Qed.

(** ** Temporal arrays through the envelope *)

Lemma to_milliseconds_eligible (settings : Settings) (to_us : Z -> Z) (a : ndarray) :
  np.itemsize (dtype a) = 8 ->
  np.valid a -> shape a <> [] ->
  use_binary_arrays settings = true ->
  binary_array_cutoff settings <= np.product (shape a) ->
  eligible settings (to_milliseconds to_us a).
Proof.
  intros Hk Hv Hsh Hb Hcut. pose proof (length_raw_valid a Hv) as Hraw.
  destruct Hv as [Hpos Hlen].
  unfold eligible, np.valid, to_milliseconds, np.of_words. cbn [dtype shape data].
  split; [split; [exact Hpos|]|].
  - rewrite (length_concat_uniform 8).
    + rewrite !length_map. unfold np.counts. rewrite length_map, Hraw.
      pose proof (Zprod_nonneg _ Hpos). change (np.itemsize float64) with 8. lia.
    + apply Forall_map, Forall_forall. intros w _. apply length_Z_to_le.
  - split; [exact Hsh|]. split; [exact Hb|]. split; [|exact Hcut].
    apply list_elem_of_In. simpl. auto.
Qed.

(** X21.  A plain datetime or timedelta array that is sent in binary
    comes back from the decoder as a float64 array of the same shape,
    holding the millisecond values: the temporal dtype is not restored. *)
Theorem temporal_round_trip
    (settings : Settings) (u : time_unit) (dims : list Z) (buf : list byte)
    (contiguous : bool) :
  let stamps := {| dtype := datetime64 u; shape := dims; data := buf;
                   c_contiguous := contiguous |} in
  let spans := {| dtype := timedelta64 u; shape := dims; data := buf;
                  c_contiguous := contiguous |} in
  np.valid stamps -> dims <> [] ->
  use_binary_arrays settings = true ->
  binary_array_cutoff settings <= np.product dims ->
  (exists d,
      transform_array settings (Plain stamps) false = Ok (PyDict d)
      /\ decode_base64_dict d
         = Ok (as_decoded (to_milliseconds (np.cast_datetime u Unit_us) stamps)))
  /\ (exists d,
         transform_array settings (Plain spans) false = Ok (PyDict d)
         /\ decode_base64_dict d
            = Ok (as_decoded (to_milliseconds (np.cast_timedelta u Unit_us) spans)))
  /\ dtype (as_decoded (to_milliseconds (np.cast_datetime u Unit_us) stamps)) = float64
  /\ shape (as_decoded (to_milliseconds (np.cast_datetime u Unit_us) stamps)) = dims.
Proof.
  intros stamps spans Hv Hsh Hb Hcut.
  assert (Hv' : np.valid spans) by exact Hv.
  split; [|split; [|split; reflexivity]].
  - destruct (eligible_round_trip settings
                (to_milliseconds (np.cast_datetime u Unit_us) stamps))
      as (d & Henc & _ & Hdec).
    { now apply to_milliseconds_eligible. }
    exists d. split; [|exact Hdec].
    rewrite transform_array_not_temporal in Henc by reflexivity. rewrite <- Henc.
    unfold transform_array. rewrite legacy_datetime64_false.
    change (dtype (np.base (Plain stamps))) with (datetime64 u).
    change (Ascii.eqb (np.kind (datetime64 u)) "M") with true.
    cbv iota. rewrite bind_Ok. unfold np.lift.
    now rewrite (normalize_datetime u stamps eq_refl).
  - destruct (eligible_round_trip settings
                (to_milliseconds (np.cast_timedelta u Unit_us) spans))
      as (d & Henc & _ & Hdec).
    { now apply to_milliseconds_eligible. }
    exists d. split; [|exact Hdec].
    rewrite transform_array_not_temporal in Henc by reflexivity. rewrite <- Henc.
    unfold transform_array.
    change (dtype (np.base (Plain spans))) with (timedelta64 u).
    change (Ascii.eqb (np.kind (timedelta64 u)) "M") with false.
    change (Ascii.eqb (np.kind (timedelta64 u)) "m") with true.
    cbv iota. rewrite bind_Ok. unfold np.lift.
    now rewrite (normalize_timedelta u spans eq_refl).
Qed.

Lemma temporal_round_trip_witness :
  (exists d,
      transform_array Sample.settings (Plain (Sample.one_ms Unit_ms 1)) false = Ok (PyDict d)
      /\ decode_base64_dict d
         = Ok (as_decoded (to_milliseconds (np.cast_datetime Unit_ms Unit_us)
                             (Sample.one_ms Unit_ms 1))))
  /\ (exists d,
         transform_array Sample.settings
           (Plain {| dtype := timedelta64 Unit_ms; shape := [1];
                     data := data (Sample.one_ms Unit_ms 1); c_contiguous := true |})
           false = Ok (PyDict d)
         /\ decode_base64_dict d
            = Ok (as_decoded
                    (to_milliseconds (np.cast_timedelta Unit_ms Unit_us)
                       {| dtype := timedelta64 Unit_ms; shape := [1];
                          data := data (Sample.one_ms Unit_ms 1);
                          c_contiguous := true |})))
  /\ dtype (as_decoded (to_milliseconds (np.cast_datetime Unit_ms Unit_us)
                          (Sample.one_ms Unit_ms 1))) = float64
  /\ shape (as_decoded (to_milliseconds (np.cast_datetime Unit_ms Unit_us)
                          (Sample.one_ms Unit_ms 1))) = [1].
Proof.
  apply (temporal_round_trip Sample.settings Unit_ms [1]
           (data (Sample.one_ms Unit_ms 1)) true).
  - split; [repeat constructor; lia | reflexivity].
  - discriminate.
  - reflexivity.
  - vm_compute. discriminate.
Defined.

(** ** Masked arrays through the envelope *)

(** X22.  A masked array of floats that is sent in binary loses its
    mask: the decoded array has the dtype and the shape of the data, the
    bits of every unmasked element, and the quiet NaN at every masked
    element. *)
Theorem masked_round_trip
    (settings : Settings) (a : ndarray) (m : list bool) (e mb : Z) :
  np.float_format (dtype a) = Some (e, mb) ->
  length m = length (np.raw a) ->
  eligible settings a ->
  exists (d : gmap string pyval) (b : ndarray),
    serialize_array settings (Masked a (Some m)) false = Ok (PyDict d)
    /\ decode_base64_dict d = Ok b
    /\ dtype b = dtype a /\ shape b = shape a
    /\ np.raw b = zip_with (filled_bits (IEEE.nan_bits e mb)) (np.raw a) m.
Proof.
  intros Hf Hlen (Hv & Hsh & Hb & Hdt & Hcut).
  destruct (np.filled_nan a (Some m)) as [a'|err] eqn:Hfill.
  - destruct (filled_nan_bits a a' m e mb Hf Hlen Hfill) as (Edt & Esh & Eraw & Hv').
    assert (Ha' : eligible settings a').
    { unfold eligible. rewrite Edt, Esh. auto. }
    destruct (eligible_round_trip settings a' Ha') as (d & Henc & _ & Hdec).
    exists d, (as_decoded a').
    destruct (whitelisted_not_temporal _ Hdt) as [HM Hm].
    rewrite (transform_array_not_temporal settings (Plain a') false) in Henc
      by (cbn [np.base]; now rewrite Edt).
    split.
    + rewrite <- Henc. unfold serialize_array. now rewrite Hfill.
    + split; [exact Hdec|]. cbn [as_decoded dtype shape].
      split; [exact Edt|]. split; [exact Esh|].
      transitivity (np.raw a'); [reflexivity | exact Eraw].
  - exfalso. unfold np.filled_nan in Hfill. rewrite Hf in Hfill.
    destruct (np.any m); discriminate Hfill.
Qed.

Lemma masked_round_trip_witness :
  exists (d : gmap string pyval) (b : ndarray),
    serialize_array Sample.settings Cases.masked_square false = Ok (PyDict d)
    /\ decode_base64_dict d = Ok b
    /\ dtype b = float64 /\ shape b = [2; 2]
    /\ np.raw b = zip_with (filled_bits (IEEE.nan_bits 11 52)) (np.raw Sample.square)
                    [false; false; true; false].
Proof.
  apply (masked_round_trip Sample.settings Sample.square [false; false; true; false] 11 52).
  - reflexivity.
  - reflexivity.
  - exact eligible_square.
Defined.

(** ** What the decoder returns, and when it does not *)

Lemma Forall_filter_nonneg (dims : list Z) :
  Forall (fun d => 0 <= d) (List.filter (fun d => 0 <=? d) dims).
Proof.
  apply Forall_forall. intros d Hd. apply list_elem_of_In, filter_In in Hd as [_ Hd].
  now apply Z.leb_le.
Qed.

Lemma no_negative (dims : list Z) :
  length (List.filter (fun d => d <? 0) dims) = 0%nat -> Forall (fun d => 0 <= d) dims.
Proof.
  induction dims as [|d dims IH]; cbn [List.filter]; intros H; [constructor|].
  destruct (Z.ltb_spec d 0); [discriminate H|]. constructor; auto.
Qed.

Lemma Zprod_inferred (dims : list Z) (q : Z) :
  Zprod (map (fun d => if d <? 0 then q else d) dims)
  = Zprod (List.filter (fun d => 0 <=? d) dims)
    * q ^ Z.of_nat (length (List.filter (fun d => d <? 0) dims)).
Proof.
  induction dims as [|d dims IH]; [reflexivity|].
  cbn [map List.filter Zprod fold_right].
  fold (Zprod (map (fun d => if d <? 0 then q else d) dims)). rewrite IH.
  destruct (Z.ltb_spec d 0); destruct (Z.leb_spec 0 d); try lia.
  - cbn [length]. rewrite Nat2Z.inj_succ, Z.pow_succ_r by lia.
    unfold Zprod. ring.
  - cbn [Zprod fold_right]. unfold Zprod. ring.
Qed.

(** What [reshape] returns holds the same elements under a shape of the
    same count. *)
Lemma reshape_sound (a b : ndarray) (dims : list Z) :
  0 <= np.size a -> np.reshape a dims = Ok b ->
  dtype b = dtype a /\ data b = data a
  /\ Zprod (shape b) = np.size a /\ Forall (fun d => 0 <= d) (shape b).
Proof.
  intros Hsize. unfold np.reshape.
  set (known := Zprod (List.filter (fun d => 0 <=? d) dims)).
  assert (Hknown : 0 <= known) by apply Zprod_nonneg, Forall_filter_nonneg.
  destruct (length (List.filter (fun d => d <? 0) dims)) as [|[|n]] eqn:Hneg;
    [| |discriminate].
  - destruct (Z.eqb_spec known (np.size a)) as [Heq|]; [|discriminate].
    intros [= <-]. cbn [dtype data shape].
    pose proof (no_negative dims Hneg) as Hpos.
    destruct (filter_nonneg dims Hpos) as [Hf _]. subst known. rewrite Hf in Heq.
    auto.
  - destruct (Z.eqb_spec known 0) as [|Hne]; [discriminate|].
    destruct (Z.eqb_spec (np.size a mod known) 0) as [Hmod|]; [|discriminate].
    cbn [orb negb]. intros [= <-]. cbn [dtype data shape].
    split; [reflexivity|]. split; [reflexivity|]. split.
    + rewrite Zprod_inferred, Hneg. fold known.
      change (Z.of_nat 1) with 1. rewrite Z.pow_1_r.
      apply Z.div_exact in Hmod; lia.
    + apply Forall_map, Forall_forall. intros d _.
      destruct (Z.ltb_spec d 0); [|lia]. apply Z.div_pos; lia.
Qed.

(** X10.  For an envelope whose payload is a base64 text, whose dtype is a
    canonical name and whose shape is a list or tuple of ints: whenever
    [decode_base64_dict] returns an array, the array has the named dtype,
    its bytes are exactly the decoded payload, and its shape is consistent
    with them (no negative dimension, element count times element size
    equal to the byte count). *)
Theorem decode_base64_dict_sound
    (envelope : gmap string pyval) (text name : string) (buf : list byte)
    (dt : np_dtype) (sh : pyval) (dims : list Z) (a : ndarray) :
  envelope !! "__ndarray__" = Some (PyStr text) ->
  Base64.b64decode text = Some buf ->
  envelope !! "dtype" = Some (PyStr name) ->
  np.dtype_of_name name = Some dt ->
  envelope !! "shape" = Some sh ->
  as_dims sh = Ok dims ->
  decode_base64_dict envelope = Ok a ->
  dtype a = dt /\ data a = buf /\ np.valid a
  /\ Z.of_nat (length buf) mod np.itemsize dt = 0.
Proof.
  intros H1 H2 H3 H4 H5 Hdims.
  rewrite (decode_base64_dict_unfold _ _ _ _ _ _ H1 H2 H3 H4 H5).
  unfold np.fromstring.
  destruct (Z.eqb_spec (Z.of_nat (length buf) mod np.itemsize dt) 0) as [Hmod|];
    [|discriminate].
  rewrite bind_Ok, (as_dims_len _ _ Hdims), bind_Ok, Hdims.
  pose proof (itemsize_pos dt) as Hk.
  assert (Hcount : 0 <= Z.of_nat (length buf) / np.itemsize dt)
    by (apply Z.div_pos; lia).
  assert (Hlen : Z.of_nat (length buf)
                 = np.itemsize dt * (Z.of_nat (length buf) / np.itemsize dt))
    by (apply Z.div_exact in Hmod; lia).
  destruct (1 <? Z.of_nat (length dims)).
  - rewrite bind_Ok.
    intros Hre. apply reshape_sound in Hre; [|unfold np.size; cbn; lia].
    cbn [dtype data] in Hre. destruct Hre as (Edt & Edata & Eprod & Hpos).
    unfold np.size in Eprod. cbn [shape Zprod fold_right] in Eprod.
    split; [exact Edt|]. split; [exact Edata|]. split; [|exact Hmod].
    split; [exact Hpos|]. rewrite Edt, Edata, Eprod. lia.
  - intros [= <-]. cbn [dtype data].
    split; [reflexivity|]. split; [reflexivity|]. split; [|exact Hmod].
    split; cbn [shape dtype data].
    + constructor; [lia | constructor].
    + cbn [Zprod fold_right]. lia.
Qed.

Lemma decode_base64_dict_sound_witness :
  dtype {| dtype := uint8; shape := [2; 3];
           data := [Byte.x00; Byte.x01; Byte.x02; Byte.x03; Byte.x04; Byte.x05];
           c_contiguous := true |} = uint8
  /\ data {| dtype := uint8; shape := [2; 3];
             data := [Byte.x00; Byte.x01; Byte.x02; Byte.x03; Byte.x04; Byte.x05];
             c_contiguous := true |}
     = [Byte.x00; Byte.x01; Byte.x02; Byte.x03; Byte.x04; Byte.x05]
  /\ np.valid {| dtype := uint8; shape := [2; 3];
                 data := [Byte.x00; Byte.x01; Byte.x02; Byte.x03; Byte.x04; Byte.x05];
                 c_contiguous := true |}
  /\ Z.of_nat (length [Byte.x00; Byte.x01; Byte.x02; Byte.x03; Byte.x04; Byte.x05])
     mod np.itemsize uint8 = 0.
Proof.
  apply (decode_base64_dict_sound Cases.inferred_envelope "AAECAwQF" "uint8"
           [Byte.x00; Byte.x01; Byte.x02; Byte.x03; Byte.x04; Byte.x05]
           uint8 (PyList [PyInt (-1); PyInt 3]) [-1; 3]);
    vm_compute; reflexivity.
Defined.

(** A dtype of [None] is numpy's default, float64. *)
Example decode_base64_dict_default_dtype :
  decode_base64_dict {[ "__ndarray__" := PyStr "AAAAAAAA8D8=";
                        "dtype" := PyNone;
                        "shape" := PyList [PyInt 1] ]}
  = Ok (np.of_words float64 [1] [0x3FF0000000000000]).
Proof. vm_compute. reflexivity. Qed.

Example decode_base64_dict_no_dtype :
  decode_base64_dict Cases.keyless_envelope = Raise KeyError
  /\ decode_column_data {[ "a" := PyDict Cases.keyless_envelope ]} = Raise KeyError
  /\ decode_column_data {[ "a" := PyDict {[ "shape" := PyList [PyInt 6] ]} ]}
     = Ok {[ "a" := PyDict {[ "shape" := PyList [PyInt 6] ]} ]}.
Proof. repeat split; vm_compute; reflexivity. Qed.



(** ** Traversing twice *)

Lemma sanitize_tree_idem (v : pyval) : sanitize_tree (sanitize_tree v) = sanitize_tree v.
Proof.
  induction v as [|b|n|f|s|dt count|items IH|items IH|d|a|values]
    using pyval_nested_ind; try reflexivity.
  - now destruct f as [| [|] | |].
  - cbn [sanitize_tree]. f_equal. rewrite map_map. now apply map_ext_Forall'.
  - cbn [sanitize_tree]. f_equal. rewrite map_map. now apply map_ext_Forall'.
Qed.

Lemma is_ndarray_sanitize_tree (v : pyval) : is_ndarray (sanitize_tree v) = is_ndarray v.
Proof.
  destruct v as [|b|n|f|s|dt count|items|items|d|a|values]; try reflexivity.
  now destruct f as [| [|] | |].
Qed.

Lemma no_array_run_sanitize_tree (v : pyval) :
  no_array_run v = true -> no_array_run (sanitize_tree v) = true.
Proof.
  assert (Hseq : forall items,
             Forall (fun v => no_array_run v = true ->
                              no_array_run (sanitize_tree v) = true) items ->
             no_array_run (PyList items) = true ->
             no_array_run (PyList (map sanitize_tree items)) = true).
  { intros items IH. cbn [no_array_run]. intros H.
    apply andb_true_iff in H as [Hrun Hall]. apply andb_true_iff. split.
    - destruct items as [|x items]; [reflexivity|]. cbn [map].
      rewrite <- Hrun. f_equal. cbn [forallb].
      rewrite is_ndarray_sanitize_tree. f_equal.
      clear. induction items as [|y items IH]; [reflexivity|].
      cbn [map forallb]. now rewrite is_ndarray_sanitize_tree, IH.
    - rewrite forallb_forall in Hall |- *. intros y Hy.
      apply in_map_iff in Hy as (x & <- & Hx). rewrite Forall_forall in IH.
      apply IH; [now apply list_elem_of_In | now apply Hall]. }
  induction v as [|b|n|f|s|dt count|items IH|items IH|d|a|values]
    using pyval_nested_ind; try reflexivity.
  - intros _. now destruct f as [| [|] | |].
  - apply (Hseq items IH).
  - apply (Hseq items IH).
Qed.

(** X13.  Traversal is idempotent on data without runs of arrays: what
    [traverse_data] returns for such a sequence is returned unchanged when
    traversed again. *)
Theorem traverse_data_idempotent
    (settings : Settings) (numpy use_numpy : bool) (datum out : list pyval) :
  no_array_run (PyList datum) = true ->
  traverse_data settings numpy use_numpy datum = Ok out ->
  traverse_data settings numpy use_numpy out = Ok out.
Proof.
  intros Hplain Hout.
  rewrite (traverse_data_plain settings numpy use_numpy datum Hplain) in Hout.
  injection Hout as <-.
  pose proof (no_array_run_sanitize_tree (PyList datum) Hplain) as Hplain'.
  cbn [sanitize_tree] in Hplain'.
  rewrite (traverse_data_plain settings numpy use_numpy _ Hplain').
  f_equal. rewrite map_map. apply map_ext. intros v. apply sanitize_tree_idem.
Qed.

Lemma traverse_data_idempotent_witness :
  traverse_data Sample.settings is_numpy true Sample.mixed_traversed
  = Ok Sample.mixed_traversed.
Proof.
  apply (traverse_data_idempotent Sample.settings is_numpy true Sample.mixed);
    reflexivity.
Defined.

(** ** Arrays beside other items *)

(** X19.  When the items of a sequence are not all arrays, the loop of
    [traverse_data] appends every item that is not a list, a tuple or a
    float as it found it, at the same position: an array beside a
    non-array is not serialized and comes back as the array itself. *)
Theorem traverse_data_keeps_arrays
    (settings : Settings) (numpy use_numpy : bool) (datum out : list pyval) :
  (numpy && use_numpy) && forallb is_ndarray datum = false ->
  traverse_data settings numpy use_numpy datum = Ok out ->
  forall (i : nat) (x : pyval),
    datum !! i = Some x -> kept_by_loop x = true -> out !! i = Some x.
Proof.
  unfold traverse_data. intros -> Hout i x Hi Hx.
  apply mapM_Forall2 in Hout.
  destruct (Forall2_lookup_l _ _ _ i x Hout Hi) as (y & Hy & Hxy).
  rewrite Hy. destruct x; try discriminate Hx; cbn [traverse_item] in Hxy; congruence.
Qed.

Lemma traverse_data_keeps_arrays_witness :
  [PyArray (Plain Sample.square); PyInt 7; PyStr "NaN"] !! 0%nat
  = Some (PyArray (Plain Sample.square)).
Proof.
  apply (traverse_data_keeps_arrays Sample.settings is_numpy true Cases.array_and_scalars
           [PyArray (Plain Sample.square); PyInt 7; PyStr "NaN"]
           eq_refl eq_refl 0%nat (PyArray (Plain Sample.square)) eq_refl eq_refl).
Defined.

(** ** The shape of the list export *)

Lemma sanitized_item_leaf (dt : np_dtype) (x : Z) : is_leaf (sanitized_item dt x) = true.
Proof.
  unfold sanitized_item, np.item.
  destruct (np.float_format dt) as [[e m]|] eqn:Hf.
  - destruct (IEEE.isnan e m x), (IEEE.isposinf e m x), (IEEE.isneginf e m x); reflexivity.
  - destruct dt; cbv zeta;
      repeat match goal with |- context [if ?b then _ else _] => destruct b end;
      reflexivity.
Qed.

Lemma nest_has_shape (dims : list Z) (xs : list pyval) :
  Forall (fun d => 0 <= d) dims ->
  length xs = Z.to_nat (Zprod dims) ->
  Forall (fun x => is_leaf x = true) xs ->
  has_shape dims (np.nest dims xs) = true.
Proof.
  intros Hpos. revert xs.
  induction Hpos as [|d dims Hd Hpos IH]; intros xs Hlen Hleaf.
  - destruct Hleaf as [|x xs Hx _]; [discriminate Hlen | exact Hx].
  - cbn [np.nest has_shape]. rewrite length_map, length_blocks.
    rewrite Z2Nat.id by exact Hd. rewrite Z.eqb_refl. cbn [andb].
    apply forallb_forall. intros v Hv.
    apply in_map_iff in Hv as (blk & <- & Hblk). apply list_elem_of_In in Hblk.
    pose proof (Zprod_nonneg dims Hpos) as Hp.
    cbn [Zprod fold_right] in Hlen. fold (Zprod dims) in Hlen.
    rewrite Z2Nat.inj_mul in Hlen by lia.
    apply IH.
    + pose proof (blocks_full (Z.to_nat d) (Z.to_nat (Zprod dims)) xs ltac:(lia)) as Hb.
      rewrite Forall_forall in Hb. now apply Hb.
    + pose proof (Forall_blocks _ (Z.to_nat d) (Z.to_nat (Zprod dims)) xs Hleaf) as Hb.
      rewrite Forall_forall in Hb. now apply Hb.
Qed.

(** X17.  The list export of an array follows its shape: at every level
    the list has as many entries as the dimension says (none for a
    dimension of zero), and below the last level sits one leaf per element:
    a number, a sentinel string, a date or time object, or [None] for a
    not-a-time element; an array of no dimension exports as that one
    leaf. *)
Theorem transform_array_to_list_shape (a : ndarray) :
  np.valid a -> has_shape (shape a) (transform_array_to_list a) = true.
Proof.
  intros Hv. rewrite transform_array_to_list_items.
  apply nest_has_shape.
  - apply Hv.
  - rewrite length_map. now apply length_raw_valid.
  - apply Forall_map, Forall_forall. intros x _. apply sanitized_item_leaf.
Qed.

Lemma transform_array_to_list_shape_witness :
  has_shape [2; 2] (transform_array_to_list Sample.square) = true.
Proof.
  apply (transform_array_to_list_shape Sample.square).
  split; [repeat constructor; lia | reflexivity].
Defined.

(** The leaves of temporal arrays: a nanosecond count stays an int and NaT
    is [None]; a day count is a [date], unless its year is beyond 9999; a
    span in months is an int. *)
Example transform_array_to_list_temporal :
  transform_array_to_list (np.of_words (datetime64 Unit_ns) [2] [1; int64_min])
  = PyList [PyInt 1; PyNone]
  /\ transform_array_to_list (np.of_words (datetime64 Unit_D) [2] [0; 2932897])
     = PyList [PyTemporal (datetime64 Unit_D) 0; PyInt 2932897]
  /\ transform_array_to_list (np.of_words (timedelta64 Unit_M) [1] [3])
     = PyList [PyInt 3]
  /\ has_shape [2] (transform_array_to_list
                      (np.of_words (datetime64 Unit_ns) [2] [1; int64_min])) = true.
Proof. repeat split; vm_compute; reflexivity. Qed.

(** ** The two formats carry the same values *)

Lemma transform_array_to_list_decoded (a : ndarray) :
  transform_array_to_list (as_decoded a) = transform_array_to_list a.
Proof. now rewrite !transform_array_to_list_items. Qed.

Lemma transform_array_forced (settings : Settings) (a : ndarray) :
  dtype a ∈ array_types ->
  transform_array settings (Plain a) true = Ok (transform_array_to_list a).
Proof.
  intros Hdt. destruct (whitelisted_not_temporal _ Hdt) as [HM Hm].
  rewrite (transform_array_not_temporal settings (Plain a) true HM Hm).
  unfold serialize_array. now rewrite bind_Ok, orb_true_r.
Qed.

(** X18.  For an eligible plain array the binary and the list format
    agree: the array decoded from the envelope exports, with [force_list],
    the very list the original array exports. *)
Theorem list_export_of_decoded (settings : Settings) (a : ndarray) :
  eligible settings a ->
  exists (d : gmap string pyval) (b : ndarray),
    transform_array settings (Plain a) false = Ok (PyDict d)
    /\ decode_base64_dict d = Ok b
    /\ transform_array settings (Plain b) true = Ok (transform_array_to_list a)
    /\ transform_array settings (Plain a) true = Ok (transform_array_to_list a).
Proof.
  intros Ha. destruct (eligible_round_trip settings a Ha) as (d & Henc & _ & Hdec).
  destruct Ha as (_ & _ & _ & Hdt & _).
  exists d, (as_decoded a). split; [exact Henc|]. split; [exact Hdec|]. split.
  - rewrite transform_array_forced by exact Hdt.
    now rewrite transform_array_to_list_decoded.
  - now apply transform_array_forced.
Qed.

Lemma list_export_of_decoded_witness :
  exists (d : gmap string pyval) (b : ndarray),
    transform_array Sample.settings (Plain Sample.square) false = Ok (PyDict d)
    /\ decode_base64_dict d = Ok b
    /\ transform_array Sample.settings (Plain b) true
       = Ok (transform_array_to_list Sample.square)
    /\ transform_array Sample.settings (Plain Sample.square) true
       = Ok (transform_array_to_list Sample.square).
Proof.
  apply (list_export_of_decoded Sample.settings Sample.square).
  exact eligible_square.
Defined.

(** ** Floats that JSON can carry *)

Lemma digits2_pos_size (p : positive) : digits2_pos p = Pos.size p.
Proof. induction p as [p IH|p IH|]; simpl; congruence. Qed.

Lemma digits2_pos_bound (p : positive) (n : Z) :
  0 <= n -> Z.pos p < 2 ^ n -> Z.pos (digits2_pos p) <= n.
Proof.
  intros Hn Hp. rewrite digits2_pos_size.
  pose proof (Pos.size_le p) as Hle.
  apply Pos2Z.pos_le_pos in Hle. rewrite Pos2Z.inj_pow in Hle.
  change (Z.pos p~0) with (2 * Z.pos p) in Hle.
  assert (Hlt : 2 ^ Z.pos (Pos.size p) < 2 ^ (n + 1)).
  { rewrite Z.pow_add_r, Z.pow_1_r by lia. lia. }
  apply Z.pow_lt_mono_r_iff in Hlt; lia.
Qed.

Lemma digits2_pos_shift (m k : positive) :
  digits2_pos (Pos.iter xO m k) = (digits2_pos m + k)%positive.
Proof.
  induction k as [|k IH] using Pos.peano_ind.
  - simpl. lia.
  - rewrite Pos.iter_succ. simpl. rewrite IH. lia.
Qed.

(** A mantissa already in canonical position is not rounded. *)
Lemma binary_round_aux_canonical (s : bool) (m : positive) (e : Z) :
  fexp 53 1024 (Z.pos (digits2_pos m) + e) = e -> e <= 971 ->
  binary_round_aux 53 1024 s (Z.pos m) e loc_Exact = S754_finite s m e.
Proof.
  intros Hcan He. unfold binary_round_aux, shr_fexp.
  cbn [Zdigits2 shr_record_of_loc]. rewrite Hcan, Z.sub_diag.
  cbn [shr shr_m loc_of_shr_record round_nearest_even Zdigits2 shr_record_of_loc].
  rewrite Hcan, Z.sub_diag. cbn [shr shr_m].
  replace (e <=? 1024 - 53) with true by (symmetry; apply Z.leb_le; lia).
  reflexivity.
Qed.

(** A mantissa of at most 53 bits with an exponent in the binary64 range
    is a finite float. *)
Lemma binary_round_finite (s : bool) (m : positive) (e : Z) :
  Z.pos (digits2_pos m) <= 53 -> -1074 <= e <= 971 ->
  exists m' e', binary_round 53 1024 s m e = S754_finite s m' e'.
Proof.
  intros Hd He. unfold binary_round, shl_align.
  set (e1 := fexp 53 1024 (Z.pos (digits2_pos m) + e)).
  assert (He1 : e1 = Z.max (Z.pos (digits2_pos m) + e - 53) (-1074)) by reflexivity.
  destruct (e1 - e) as [|d|d] eqn:Hdiff.
  - eexists _, _. apply binary_round_aux_canonical; [fold e1; lia | lia].
  - lia.
  - eexists _, _. apply binary_round_aux_canonical; [|lia].
    rewrite digits2_pos_shift, Pos2Z.inj_add.
    replace (Z.pos (digits2_pos m) + Z.pos d + e1)
      with (Z.pos (digits2_pos m) + e) by lia.
    reflexivity.
Qed.

Lemma binary_normalize_finite (m e : Z) (s : bool) :
  Z.abs m < 2 ^ 53 -> -1074 <= e <= 971 ->
  match binary_normalize 53 1024 m e s with
  | S754_nan | S754_infinity _ => False
  | _ => True
  end.
Proof.
  intros Hm He. destruct m as [|p|p]; cbn [binary_normalize]; [exact I| |].
  - destruct (binary_round_finite false p e) as (m' & e' & ->); [|exact He|exact I].
    apply digits2_pos_bound; [lia | exact Hm].
  - destruct (binary_round_finite true p e) as (m' & e' & ->); [|exact He|exact I].
    apply digits2_pos_bound; [lia | exact Hm].
Qed.

(** The Python float of a finite element is finite. *)
Lemma to_float_finite (dt : np_dtype) (ebits mbits x : Z) :
  np.float_format dt = Some (ebits, mbits) ->
  IEEE.isfinite ebits mbits x = true ->
  match IEEE.to_float ebits mbits x with
  | S754_nan | S754_infinity _ => False
  | _ => True
  end.
Proof.
  intros Hf Hfin. unfold IEEE.isfinite in Hfin. apply negb_true_iff in Hfin.
  unfold IEEE.to_float. rewrite Hfin.
  assert (Hfrac : 0 <= IEEE.frac ebits mbits x < 2 ^ mbits).
  { unfold IEEE.frac. destruct dt; try discriminate Hf; injection Hf as <- <-;
      rewrite Z.land_ones by lia; apply Z.mod_pos_bound; lia. }
  assert (Hexp : 0 <= IEEE.expo ebits mbits x < 2 ^ ebits).
  { unfold IEEE.expo. destruct dt; try discriminate Hf; injection Hf as <- <-;
      rewrite Z.land_ones by lia; apply Z.mod_pos_bound; lia. }
  apply Z.eqb_neq in Hfin.
  set (fr := IEEE.frac ebits mbits x) in *.
  set (ex := IEEE.expo ebits mbits x) in *.
  clearbody fr ex.
  assert (Hrange : 1 <= mbits <= 52 /\ 2 ^ mbits <= 2 ^ 52
                   /\ -1074 <= 1 - (2 ^ (ebits - 1) - 1) - mbits
                   /\ Z.ones ebits - 1 - (2 ^ (ebits - 1) - 1) - mbits <= 971
                   /\ Z.ones ebits = 2 ^ ebits - 1 /\ 2 <= Z.ones ebits).
  { destruct dt; try discriminate Hf; injection Hf as <- <-; vm_compute;
      repeat split; discriminate. }
  destruct Hrange as (Hmb & Hpow & Hlo & Hhi & Hones & Htwo).
  assert (H53 : 2 ^ 53 = 2 * 2 ^ 52) by reflexivity.
  assert (Hm1 : 2 ^ mbits + 2 ^ mbits <= 2 ^ 53) by lia.
  set (bias := 2 ^ (ebits - 1) - 1) in *. clearbody bias.
  set (top := 2 ^ mbits) in *. set (lim := 2 ^ 53) in *.
  destruct (ex =? 0) eqn:E0.
  - apply binary_normalize_finite; [destruct (IEEE.sign _ _ x); fold lim; lia | lia].
  - apply Z.eqb_neq in E0.
    apply binary_normalize_finite; [destruct (IEEE.sign _ _ x); fold lim; lia | lia].
Qed.

Lemma sanitized_item_no_nonfinite (dt : np_dtype) (x : Z) :
  no_nonfinite (sanitized_item dt x) = true.
Proof.
  unfold sanitized_item.
  destruct (np.float_format dt) as [[e m]|] eqn:Hf.
  - destruct (IEEE.isnan e m x) eqn:Hnan; [reflexivity|].
    destruct (IEEE.isposinf e m x) eqn:Hpos; [reflexivity|].
    destruct (IEEE.isneginf e m x) eqn:Hneg; [reflexivity|].
    unfold np.item. rewrite Hf. cbn [no_nonfinite].
    assert (Hfin : IEEE.isfinite e m x = true).
    { unfold IEEE.isnan, IEEE.isposinf, IEEE.isneginf, IEEE.isinf, IEEE.isfinite in *.
      destruct (IEEE.expo e m x =? Z.ones e); [|reflexivity].
      destruct (IEEE.frac e m x =? 0), (IEEE.sign e m x); discriminate. }
    pose proof (to_float_finite dt e m x Hf Hfin) as H.
    destruct (IEEE.to_float e m x); try reflexivity; contradiction.
  - unfold np.item. rewrite Hf.
    destruct dt; cbv zeta;
      repeat match goal with |- context [if ?b then _ else _] => destruct b end;
      reflexivity.
Qed.

Lemma nest_no_nonfinite (dims : list Z) (xs : list pyval) :
  Forall (fun x => no_nonfinite x = true) xs -> no_nonfinite (np.nest dims xs) = true.
Proof.
  revert xs. induction dims as [|d dims IH]; intros xs H.
  - destruct H; [reflexivity | assumption].
  - cbn [np.nest no_nonfinite]. apply forallb_forall. intros v Hv.
    apply in_map_iff in Hv as (blk & <- & Hblk).
    apply IH.
    pose proof (Forall_blocks _ (Z.to_nat d) (Z.to_nat (Zprod dims)) xs H) as Hb.
    rewrite Forall_forall in Hb. apply Hb. now apply list_elem_of_In.
Qed.

Lemma transform_array_to_list_no_nonfinite (a : ndarray) :
  no_nonfinite (transform_array_to_list a) = true.
Proof.
  rewrite transform_array_to_list_items. apply nest_no_nonfinite.
  apply Forall_map, Forall_forall. intros x _. apply sanitized_item_no_nonfinite.
Qed.

Lemma serialize_array_no_nonfinite settings (x : array) (force_list : bool) (v : pyval) :
  serialize_array settings x force_list = Ok v -> no_nonfinite v = true.
Proof.
  unfold serialize_array.
  destruct (match x with Masked a mask => np.filled_nan a mask | Plain a => Ok a end)
    as [a|e]; [|discriminate].
  rewrite bind_Ok.
  destruct (encoding_disabled settings a || force_list); intros [= <-].
  - apply transform_array_to_list_no_nonfinite.
  - reflexivity.
Qed.

Lemma transform_array_no_nonfinite settings (x : array) (force_list : bool) (v : pyval) :
  transform_array settings x force_list = Ok v -> no_nonfinite v = true.
Proof.
  unfold transform_array.
  match goal with |- (?r ≫= _) = _ -> _ => destruct r as [y|e] end; [|discriminate].
  rewrite bind_Ok. apply serialize_array_no_nonfinite.
Qed.

(** X23.  Whatever [transform_array] returns for an array of floats, of
    integers, of datetimes or of timedeltas (the dtypes of [np_dtype]; an
    array of dtype [object] is not among them), masked or not and of any
    shape, holds no NaN and no infinite float at any depth: in the list
    form every float is finite (the others have become the strings
    ["NaN"], ["Infinity"], ["-Infinity"]), and the envelope holds no
    float. *)
Theorem transform_array_finite_floats
    (settings : Settings) (x : array) (force_list : bool) (v : pyval) :
  transform_array settings x force_list = Ok v -> no_nonfinite v = true.
Proof.
  unfold transform_array.
  match goal with |- (?r ≫= _) = _ -> _ => destruct r as [y|e] end; [|discriminate].
  rewrite bind_Ok. unfold serialize_array.
  destruct (match y with Masked a mask => np.filled_nan a mask | Plain a => Ok a end)
    as [a|e]; [|discriminate].
  rewrite bind_Ok.
  destruct (encoding_disabled settings a || force_list); intros [= <-].
  - rewrite transform_array_to_list_items. apply nest_no_nonfinite.
    apply Forall_map, Forall_forall. intros el _. apply sanitized_item_no_nonfinite.
  - reflexivity.
Qed.

Lemma transform_array_finite_floats_witness :
  no_nonfinite (PyList [PyList [PyFloat (S754_finite false 4503599627370496 (-52));
                                PyStr "NaN"];
                        PyList [PyStr "Infinity"; PyStr "-Infinity"]]) = true.
Proof.
  apply (transform_array_finite_floats Sample.settings (Plain Sample.square) true).
  vm_compute. reflexivity.
Defined.

Lemma transform_each_no_nonfinite settings (items out : list pyval) :
  forallb is_ndarray items = true ->
  transform_each settings items = Ok out ->
  forallb no_nonfinite out = true.
Proof.
  intros Harr Hout. apply all_ndarray_inv in Harr.
  apply mapM_Forall2 in Hout.
  induction Hout as [|el v items out Hv _ IH]; [reflexivity|].
  inversion Harr as [|? ? [a ->] Hrest]; subst.
  cbn [forallb]. rewrite (transform_array_no_nonfinite _ _ _ _ Hv). now apply IH.
Qed.

Lemma traverse_item_no_nonfinite settings (v out : pyval) :
  traverse_item settings v = Ok out -> no_nonfinite out = true.
Proof.
  assert (Hseq : forall items,
             Forall (fun v => forall out, traverse_item settings v = Ok out ->
                                          no_nonfinite out = true) items ->
             forall out,
             (if (is_numpy && true) && forallb is_ndarray items
              then PyList <$> transform_each settings items
              else PyList <$> mapM (traverse_item settings) items) = Ok out ->
             no_nonfinite out = true).
  { intros items IH res.
    destruct ((is_numpy && true) && forallb is_ndarray items) eqn:Hfast;
      intros H; apply fmap_Ok_inv in H as (l & Hl & ->); cbn [no_nonfinite].
    - apply (transform_each_no_nonfinite settings items); [|exact Hl].
      now apply andb_true_iff in Hfast as [_ ?].
    - apply mapM_Forall2 in Hl. clear Hfast.
      induction Hl as [|x y items l Hy _ IHl]; [reflexivity|].
      inversion IH as [|? ? Hx Hrest]; subst. cbn [forallb].
      rewrite (Hx _ Hy). now apply IHl. }
  revert out.
  induction v as [|b|n|f|s|dt count|items IH|items IH|d|a|values]
    using pyval_nested_ind; intros res; try (intros [= <-]; reflexivity).
  - cbn [traverse_item]. intros [= <-]. now destruct f as [| [|] | |].
  - apply (Hseq items IH).
  - apply (Hseq items IH).
Qed.

Lemma traverse_data_no_nonfinite
    settings (numpy use_numpy : bool) (datum out : list pyval) :
  traverse_data settings numpy use_numpy datum = Ok out ->
  forallb no_nonfinite out = true.
Proof.
  unfold traverse_data.
  destruct ((numpy && use_numpy) && forallb is_ndarray datum) eqn:Hfast; intros H.
  - apply (transform_each_no_nonfinite settings datum); [|exact H].
    now apply andb_true_iff in Hfast as [_ ?].
  - apply mapM_Forall2 in H. clear Hfast.
    induction H as [|x y items l Hy _ IHl]; [reflexivity|].
    cbn [forallb]. now rewrite (traverse_item_no_nonfinite _ _ _ Hy), IHl.
Qed.

Lemma transform_column_no_nonfinite settings (v w : pyval) :
  transform_column settings v = Ok w -> no_nonfinite w = true.
Proof.
  assert (Hiter : forall items,
             PyList <$> traverse_data settings is_numpy true items = Ok w ->
             no_nonfinite w = true).
  { intros items H. apply fmap_Ok_inv in H as (out & Hout & ->).
    cbn [no_nonfinite]. apply (traverse_data_no_nonfinite _ _ _ _ _ Hout). }
  destruct v as [|b|n|f|s|dt count|items|items|d|a|values];
    cbn [transform_column iter_payload];
    rewrite ?bind_Ok, ?bind_Raise; try discriminate; try apply Hiter.
  - apply transform_array_no_nonfinite.
  - apply transform_array_no_nonfinite.
Qed.

(** X24.  For a column set built from the values of [pyval] ([None],
    bools, ints, Python floats, strings, date and time objects, dicts,
    lists, tuples, and arrays or series of the dtypes of [np_dtype]; numpy
    scalars and arrays of dtype [object] are not among them), no column
    that [transform_column_source_data] returns holds a NaN or an infinite
    float at any depth of its list nesting: all of them have become
    sentinel strings, whether they stood in a list, in a tuple or in an
    array. *)
Theorem transform_column_source_data_finite_floats
    (settings : Settings) (data wire : gmap string pyval) (key : string) (w : pyval) :
  transform_column_source_data settings data = Ok wire ->
  wire !! key = Some w ->
  no_nonfinite w = true.
Proof.
  unfold transform_column_source_data.
  rewrite (loop_spec (transform_column settings)). intros Hall Hw.
  specialize (Hall key). destruct (data !! key) as [v|]; [|congruence].
  destruct Hall as (w' & Hv & Hw'). rewrite Hw in Hw'. injection Hw' as <-.
  apply (transform_column_no_nonfinite _ _ _ Hv).
Qed.

Lemma transform_column_source_data_finite_floats_witness :
  no_nonfinite (PyList [Sample.py_float 1; PyStr "NaN";
                        PyList [PyStr "Infinity"; PyStr "NaN"]]) = true.
Proof.
  apply (transform_column_source_data_finite_floats
           Sample.settings Cases.plain_columns
           {[ "x" := PyList [Sample.py_float 1; PyStr "NaN";
                             PyList [PyStr "Infinity"; PyStr "NaN"]];
              "y" := PyList [] ]} "x").
  - vm_compute. reflexivity.
  - vm_compute. reflexivity.
Defined.

(** ** Lists of the store *)

Section StoreLists.

Variable settings : Settings.

(** The loop of the slow path keeps the list it fills a list. *)
Lemma traverse_loop_fills (limit : nat) (h : Store.heap) (dc : Store.loc)
    (items : list Store.value) (hi : Store.heap) (u : unit) (h2 : Store.heap) :
  h !! dc = None ->
  h ⊆ hi -> (exists vals, hi !! dc = Some (Store.OList vals)) ->
  Store.for_each
    (Store.traverse_step (Store.traverse_data settings limit is_numpy true) dc)
    items hi = Ok (u, h2) ->
  h ⊆ h2 /\ exists vals, h2 !! dc = Some (Store.OList vals).
Proof.
  intros Hdc Hsub Hlist Hloop.
  revert Hloop.
  apply (StoreFacts.for_each_invariant
           (fun hj => h ⊆ hj /\ exists vals, hj !! dc = Some (Store.OList vals)));
    [|split; assumption].
  intros item hj u' hj' _ [Hj [vals Hvals]] Hbody. unfold Store.traverse_step in Hbody.
  apply StoreFacts.bind_inv in Hbody as (h0 & h3 & Hget & Hbody).
  apply StoreFacts.get_heap_inv in Hget as [-> ->].
  assert (Happ : forall v hk uk hk',
             h ⊆ hk -> Store.list_append dc v hk = Ok (uk, hk') ->
             h ⊆ hk' /\ exists vals, hk' !! dc = Some (Store.OList vals)).
  { intros v hk uk hk' Hk Ha.
    apply StoreFacts.list_append_inv in Ha as (its & _ & ->). split.
    - now apply insert_subseteq_r.
    - eexists. apply lookup_insert_eq. }
  destruct (Store.is_sequence hj item).
  - apply StoreFacts.bind_inv in Hbody as (r & h3 & Hrec & Happend).
    apply StoreFacts.traverse_data_frame in Hrec.
    apply (Happ _ _ _ _ (transitivity Hj Hrec) Happend).
  - destruct item as [[]|]; apply (Happ _ _ _ _ Hj Hbody).
Qed.

(** X14.  Called on a list, tuple or dict of the store, [traverse_data]
    returns, when it returns, a list object that did not exist before the
    call, so never its argument, even when no item had to be replaced; and
    every object the store held is still there unchanged. *)
Theorem traverse_data_new_list
    (limit : nat) (numpy use_numpy : bool) (l : Store.loc)
    (h : Store.heap) (out : Store.value) (h' : Store.heap) :
  Store.traverse_data settings limit numpy use_numpy (Store.VRef l) h = Ok (out, h') ->
  exists (datum_copy : Store.loc) (items : list Store.value),
    out = Store.VRef datum_copy
    /\ datum_copy <> l
    /\ h !! datum_copy = None
    /\ h' !! datum_copy = Some (Store.OList items)
    /\ h ⊆ h'.
Proof.
  intros Hrun.
  pose proof (StoreFacts.traverse_data_frame settings _ _ _ _ _ _ _ Hrun) as Hframe.
  destruct limit as [|limit]; [discriminate|].
  cbn [Store.traverse_data] in Hrun.
  apply StoreFacts.bind_inv in Hrun as (h0 & h1 & Hget & Hrun).
  apply StoreFacts.get_heap_inv in Hget as [-> ->].
  apply StoreFacts.bind_inv in Hrun as (items & h1 & Hiter & Hrun).
  assert (Hl : is_Some (h !! l)).
  { destruct (h !! l); [eauto | discriminate Hiter]. }
  apply StoreFacts.iter_object_inv in Hiter as ->.
  assert (Hne : forall dc : Store.loc, h !! dc = None -> dc <> l).
  { intros dc Hdc ->. rewrite Hdc in Hl. now destruct Hl. }
  destruct ((numpy && use_numpy)
            && forallb (fun el => bool_decide (is_Some (Store.as_ndarray h el))) items).
  - apply StoreFacts.bind_inv in Hrun as (results & h1 & Hcol & Hrun).
    apply StoreFacts.collect_pure in Hcol as ->.
    + apply StoreFacts.fmap_inv in Hrun as (l' & Hal & ->).
      apply StoreFacts.alloc_inv in Hal as [Hfresh ->].
      exists l', results. split; [reflexivity|]. split; [now apply Hne|].
      split; [exact Hfresh|]. split; [apply lookup_insert_eq | exact Hframe].
    + intros el h0 y h0' Hel. unfold Store.transform_element in Hel.
      destruct (Store.as_ndarray h el).
      * apply StoreFacts.fmap_inv in Hel as (r & Hr & _).
        now apply StoreFacts.lift_inv in Hr as [_ ->].
      * now apply StoreFacts.mret_inv in Hel as [_ ->].
  - apply StoreFacts.bind_inv in Hrun as (datum_copy & h1 & Hal & Hrun).
    apply StoreFacts.alloc_inv in Hal as [Hfresh ->].
    apply StoreFacts.bind_inv in Hrun as (u & h2 & Hloop & Hret).
    apply StoreFacts.mret_inv in Hret as [-> ->].
    destruct (traverse_loop_fills limit h datum_copy items
                (<[datum_copy := Store.OList []]> h) u h2 Hfresh) as [_ [vals Hvals]];
      [now apply insert_subseteq | eexists; apply lookup_insert_eq | exact Hloop |].
    exists datum_copy, vals. split; [reflexivity|]. split; [now apply Hne|].
    split; [exact Hfresh|]. split; [exact Hvals | exact Hframe].
Qed.

(** X15.  A list whose first item is the list itself cannot be traversed:
    whatever the recursion limit, the nested calls use it up and the call
    raises [RecursionError]. *)
Theorem traverse_data_cyclic
    (limit : nat) (numpy use_numpy : bool) (l : Store.loc)
    (rest : list Store.value) (h : Store.heap) :
  h !! l = Some (Store.OList (Store.VRef l :: rest)) ->
  Store.traverse_data settings limit numpy use_numpy (Store.VRef l) h
  = Raise RecursionError.
Proof.
  revert numpy use_numpy h.
  induction limit as [|limit IH]; intros numpy use_numpy h Hl; [reflexivity|].
  cbn [Store.traverse_data].
  unfold mbind at 1, Store.St_bind at 1, Store.get_heap at 1. cbv beta iota.
  rewrite Hl. cbn [Store.iter_object].
  unfold mbind at 1, Store.St_bind at 1, mret at 1, Store.St_ret at 1. cbv beta iota.
  cbn [forallb Store.as_ndarray]. rewrite Hl.
  assert (Hnone : bool_decide (is_Some (@None array)) = false)
    by (apply bool_decide_eq_false_2; intros [? ?]; discriminate).
  rewrite Hnone. cbn [andb]. rewrite andb_false_r.
  unfold mbind at 1, Store.St_bind at 1, Store.alloc at 1. cbv beta iota zeta.
  set (dc := fresh (dom h)).
  assert (Hdc : h !! dc = None) by apply not_elem_of_dom, is_fresh.
  assert (Hne : l <> dc) by (intros ->; congruence).
  set (h1 := <[dc := Store.OList []]> h).
  assert (Hl1 : h1 !! l = Some (Store.OList (Store.VRef l :: rest))).
  { subst h1. now rewrite lookup_insert_ne by congruence. }
  unfold mbind at 1, Store.St_bind at 1. cbn [Store.for_each].
  unfold Store.traverse_step at 1.
  unfold mbind at 1, Store.St_bind at 1, Store.get_heap at 1. cbv beta iota.
  cbn [Store.is_sequence]. rewrite Hl1.
  unfold mbind at 1, Store.St_bind at 1.
  now rewrite (IH is_numpy true h1 Hl1).
Qed.

End StoreLists.

Lemma traverse_data_new_list_witness :
  exists (datum_copy : Store.loc) (items : list Store.value),
    Store.VRef 5%positive = Store.VRef datum_copy
    /\ datum_copy <> 3%positive
    /\ Sample.store !! datum_copy = None
    /\ <[5%positive := Store.OList [Store.VPure (PyInt 1); Store.VPure (PyStr "NaN");
                                    Store.VRef 6%positive]]>
         (<[6%positive := Store.OList [Store.VPure (Sample.py_float 2)]]> Sample.store)
       !! datum_copy = Some (Store.OList items)
    /\ Sample.store
       ⊆ <[5%positive := Store.OList [Store.VPure (PyInt 1); Store.VPure (PyStr "NaN");
                                      Store.VRef 6%positive]]>
           (<[6%positive := Store.OList [Store.VPure (Sample.py_float 2)]]> Sample.store).
Proof.
  apply (traverse_data_new_list Sample.settings 10 is_numpy true 3%positive).
  vm_compute. reflexivity.
Defined.

Lemma traverse_data_cyclic_witness :
  Store.traverse_data Sample.settings 1000 is_numpy true (Store.VRef 5%positive) Cases.knot
  = Raise RecursionError.
Proof.
  apply (traverse_data_cyclic Sample.settings 1000 is_numpy true 5%positive
           [Store.VPure (Sample.py_float 1)] Cases.knot).
  reflexivity.
Defined.

Lemma transform_column_simulates_witness :
  exists o h',
    Store.transform_column Sample.settings 10 (Store.VRef 3%positive) Sample.store
    = Ok (o, h')
    /\ Store.reads_fresh Sample.store Sample.store h' o
         (PyList [PyInt 1; PyStr "NaN"; PyList [Sample.py_float 2]]).
Proof.
  apply (StoreRefinement.transform_column_simulates Sample.settings 10
           Sample.store Sample.store (Store.VRef 3%positive)
           (PyList [PyInt 1; PyFloat S754_nan; PyTuple [Sample.py_float 2]])).
  - reflexivity.
  - apply Store.reads_list
      with (items := [Store.VPure (PyInt 1); Store.VPure (PyFloat S754_nan);
                      Store.VRef 4%positive]); [reflexivity|].
    repeat constructor.
    apply Store.reads_tuple with (items := [Store.VPure (Sample.py_float 2)]);
      [reflexivity | repeat constructor].
  - vm_compute. lia.
  - reflexivity.
Defined.
